(** * bitcoin-blockchain-parser: a shallow embedding of the block-file
    scanner, the varint decoder, the blockchain facade and the scanning
    wrapper, with the properties the specification states about them.

    Source files embedded here:
    - [blockchain_parser/utils.py]      ([format_hash], [decode_varint])
    - [blockchain_parser/blockchain.py] ([get_blocks], [get_block], [Blockchain])
    - [blockchain_parser/scanner.py]    ([Scanner])

    Python integers are unbounded, so they are [Z]; [bytes] objects are
    [list byte]; an exception is a value of [exn] carried by [res]; a
    generator is the list of items it yields together with the way it ends. *)

From Stdlib Require Import ZArith List Bool Lia String Ascii.
From Stdlib Require Import Init.Byte Strings.Byte.
From Stdlib Require Import Sorted Permutation.
Import ListNotations.

Local Open Scope Z_scope.

(** ** Exceptions and fallible computations *)

Inductive exn : Type :=
| EOFError            (* decode_varint: the stream ran dry *)
| ValueError          (* "Block not on disk"; mmap of an empty file *)
| IndexError          (* list index out of range *)
| StructError         (* struct.unpack on a buffer of the wrong size *)
| FileNotFoundError   (* open() of a missing block file *)
| OSError             (* seek to a negative position *)
| AttributeError      (* attribute read before it is assigned *)
| NameError           (* global name that is not defined *)
| UnboundLocalError   (* local variable read before assignment *)
| TypeError           (* None used as a sequence *)
| PickleError.        (* cache file that does not unpickle *)

Inductive res (A : Type) : Type :=
| Ok (a : A)
| Err (e : exn).
Arguments Ok {A} a.
Arguments Err {A} e.

Definition bind {A B : Type} (m : res A) (k : A -> res B) : res B :=
  match m with
  | Ok a => k a
  | Err e => Err e
  end.

Declare Scope res_scope.
Delimit Scope res_scope with res.
Notation "x <- m ;; k" := (bind m (fun x => k))
  (at level 61, m at next level, right associativity) : res_scope.
Notation "' p <- m ;; k" := (bind m (fun x => match x with p => k end))
  (at level 61, p pattern, m at next level, right associativity) : res_scope.
Local Open Scope res_scope.

(** How a generator ends: it returns ([Done]) or an exception escapes it. *)
Inductive ending : Type :=
| Done
| Raised (e : exn).

(** ** Bytes *)

Definition bytes := list byte.

(** [ord b]: the integer value of a byte. *)
Definition ord (b : byte) : Z := Z.of_N (Byte.to_N b).

(** [chr z]: the byte whose value is [z mod 256]. *)
Definition chr (z : Z) : byte :=
  match Byte.of_N (Z.to_N (z mod 256)) with
  | Some b => b
  | None => x00
  end.

(** ** Python sequence indexing and slicing *)

Definition len {A : Type} (l : list A) : Z := Z.of_nat (List.length l).

(** [l[i]]: a negative index counts from the end; out of range raises. *)
Definition py_index {A : Type} (l : list A) (i : Z) : res A :=
  let j := if i <? 0 then i + len l else i in
  if (j <? 0) || (len l <=? j) then Err IndexError
  else match nth_error l (Z.to_nat j) with
       | Some a => Ok a
       | None => Err IndexError
       end.

(** The clamping of one slice bound (CPython's [PySlice_AdjustIndices],
    step 1). *)
Definition adjust_index (n i : Z) : Z :=
  if i <? 0 then Z.max 0 (i + n) else Z.min i n.

(** [l[start:stop]]. *)
Definition py_slice {A : Type} (l : list A) (start stop : Z) : list A :=
  let a := adjust_index (len l) start in
  let b := adjust_index (len l) stop in
  firstn (Z.to_nat (b - a)) (skipn (Z.to_nat a) l).

(** ** utils.py *)

Definition hex_digit (n : Z) : ascii :=
  match n with
  | 0 => "0" | 1 => "1" | 2 => "2" | 3 => "3" | 4 => "4" | 5 => "5"
  | 6 => "6" | 7 => "7" | 8 => "8" | 9 => "9" | 10 => "a" | 11 => "b"
  | 12 => "c" | 13 => "d" | 14 => "e" | _ => "f"
  end%char.

Fixpoint hexlify (data : bytes) : string :=
  match data with
  | [] => EmptyString
  | b :: data' =>
      String (hex_digit (ord b / 16)) (String (hex_digit (ord b mod 16)) (hexlify data'))
  end.

(** [format_hash(hash_)]: hex of the reversed bytes. *)
Definition format_hash (hash_ : bytes) : string := hexlify (rev hash_).

(** [decode_uint32], for a buffer of exactly four bytes ([struct.unpack("<I", ..)]). *)
Definition unpack_le32 (data : bytes) : res Z :=
  match data with
  | [b0; b1; b2; b3] =>
      Ok (ord b0 + 256 * ord b1 + 65536 * ord b2 + 16777216 * ord b3)
  | _ => Err StructError
  end.

(** The [while True] loop of [decode_varint]: [stream] is what is left of the
    [BytesIO]; [length], [shift] and [result] are the three locals. *)
Fixpoint decode_varint_loop (stream : bytes) (length shift result : Z) : res (Z * Z) :=
  match stream with
  | [] => Err EOFError
  | ib :: stream' =>
      let i := ord ib in
      let length := length + 1 in
      let result := Z.lor result (Z.shiftl (Z.land i 127) shift) in
      let shift := shift + 7 in
      if Z.land i 128 =? 0 then Ok (result, length)
      else decode_varint_loop stream' length shift result
  end.

Definition decode_varint (varint : bytes) : res (Z * Z) :=
  decode_varint_loop varint 0 0 0.

(** Modelled from the spec: the repository has no varint encoder; this is the
    encoding that section 4.1's decoding algorithm reads back: seven bits
    per byte, least significant group first, the high bit set on every byte but
    the last.  [fuel] bounds the number of bytes written. *)
Fixpoint encode_varint_fuel (fuel : nat) (v : Z) : bytes :=
  match fuel with
  | O => []
  | S fuel' =>
      if v <? 128 then [chr v]
      else chr (Z.lor (Z.land v 127) 128) :: encode_varint_fuel fuel' (Z.shiftr v 7)
  end.

Definition encode_varint (v : Z) : bytes :=
  encode_varint_fuel (S (Z.to_nat (Z.log2 v))) v.

(** [bits v]: Python's [int.bit_length]. *)
Definition bits (v : Z) : Z := if v =? 0 then 0 else Z.log2 v + 1.

(** The value a run of varint bytes denotes: the low seven bits of the k-th
    byte sit at bit offset [shift + 7k]. *)
Fixpoint varint_value (bs : bytes) (shift : Z) : Z :=
  match bs with
  | [] => 0
  | b :: bs' => Z.lor (Z.shiftl (Z.land (ord b) 127) shift) (varint_value bs' (shift + 7))
  end.

Definition high_bit_set (b : byte) : bool := negb (Z.land (ord b) 128 =? 0).

(** ** blockchain.py: the block-file scanner *)

(** [BITCOIN_CONSTANT = b"\xf9\xbe\xb4\xd9"] *)
Definition BITCOIN_CONSTANT : bytes := [xf9; xbe; xb4; xd9].

Fixpoint bytes_eqb (a b : bytes) : bool :=
  match a, b with
  | [], [] => true
  | x :: a', y :: b' => Byte.eqb x y && bytes_eqb a' b'
  | _, _ => false
  end.

(** The [while offset < (length - 4)] loop of [get_blocks], one unfolding per
    iteration.  [fuel] bounds the number of iterations; [None] means the bound
    was too small (it never is for [get_blocks], see [get_blocks_loop_fuel]).
    An exception inside the loop ends the generator after the records already
    yielded. *)
Fixpoint get_blocks_loop (fuel : nat) (raw_data : bytes) (offset : Z)
  : option (list bytes * ending) :=
  if offset <? len raw_data - 4 then
    match fuel with
    | O => None
    | S fuel' =>
        if bytes_eqb (py_slice raw_data offset (offset + 4)) BITCOIN_CONSTANT then
          let offset := offset + 4 in
          match unpack_le32 (py_slice raw_data offset (offset + 4)) with
          | Err e => Some ([], Raised e)
          | Ok size =>
              let offset := offset + (4 + size) in
              match get_blocks_loop fuel' raw_data offset with
              | Some (rest, e) => Some (py_slice raw_data (offset - size) offset :: rest, e)
              | None => None
              end
          end
        else get_blocks_loop fuel' raw_data (offset + 1)
    end
  else Some ([], Done).

(** [get_blocks(blockfile)], on the contents of a block file that exists.
    [mmap.mmap] refuses an empty file with a [ValueError]. *)
Definition get_blocks (contents : bytes) : option (list bytes * ending) :=
  match contents with
  | [] => Some ([], Raised ValueError)
  | _ => get_blocks_loop (List.length contents) contents 0
  end.

(** The block files of a data directory: [files n] is the contents of
    ["blk%05d.dat" % n] under [self.path], when that file exists, and
    [max_offset] is the largest position the file system lets a seek set.  No
    file is larger than that, and no position of a file is beyond a signed
    64-bit file offset: a position inside a file is never refused. *)
Record block_files : Type := mkFiles {
  file_contents :> Z -> option bytes;
  max_offset : Z
}.

(** [get_block(blockfile, offset)].  [f.seek(offset - 4)] raises [ValueError]
    for a position that does not fit a signed 64-bit file offset and [OSError]
    for one that is negative or beyond what the file system allows; a position
    past the end of the file is otherwise accepted, and [f.read] returns what
    is left when the file is shorter than asked, so that [struct.unpack] is
    given fewer than four bytes. *)
Definition get_block (files : block_files) (file offset : Z) : res bytes :=
  match files file with
  | None => Err FileNotFoundError
  | Some contents =>
      let target := offset - 4 in
      if target <? - 2 ^ 63 then Err ValueError
      else if target <? 0 then Err OSError
      else if (len contents <? target) && (2 ^ 63 <=? target) then Err ValueError
      else if (len contents <? target) && (max_offset files <? target) then Err OSError
      else
        size <- unpack_le32 (firstn 4 (skipn (Z.to_nat target) contents)) ;;
        Ok (firstn (Z.to_nat size) (skipn (Z.to_nat offset) contents))
  end.

(** ** Blocks and index entries (block.py and index.py are not part of the
    sources at hand) *)

(** Modelled from the spec: a decoded block as section 3 describes it, reduced
    to what the facade and the wrapper touch: its raw bytes and the height it
    was annotated with ([Block(raw, height, parent)]; [None] when the caller
    gave none). *)
Record Block : Type := mkBlock {
  blk_raw : bytes;
  blk_height : option Z
}.

(** Modelled from the spec: a block index entry (section 4.4): the hash taken
    from the store key, the height, and the file number and data offset, each
    [-1] when the block is not on disk. *)
Record DBBlockIndex : Type := mkIndex {
  hash : string;
  height : Z;
  file : Z;
  data_pos : Z
}.

(** [blkIdx.file == -1 or blkIdx.data_pos == -1] *)
Definition not_on_disk (blkIdx : DBBlockIndex) : bool :=
  (file blkIdx =? -1) || (data_pos blkIdx =? -1).

(** An embedded key-value store: its records in key order. *)
Definition DB := list (bytes * bytes).

Fixpoint db_get (db : DB) (key : bytes) : option bytes :=
  match db with
  | [] => None
  | (k, v) :: db' => if bytes_eqb k key then Some v else db_get db' key
  end.

(** An argument handed to [Block.get_transaction]: an integer or a pair. *)
Inductive pyarg : Type :=
| ArgInt (n : Z)
| ArgPair (a b : Z).

(** The [Blockchain] object.  [blockIndexes] is [None] between lines 84 and
    86 of [__init__]; a store handle is [None] while the attribute has not
    been assigned. *)
Record Blockchain : Type := mkBlockchain {
  path : block_files;
  cache : option string;
  blockIndexes : option (list DBBlockIndex);
  blockIndexDb : option DB;
  txIndexDb : option DB
}.

(** [Block(get_block(blkFile, blk.data_pos), blk.height, self)], the expression
    shared by [get_block_by_height] and [get_ordered_blocks]. *)
Definition Block_at (files : block_files) (blk : DBBlockIndex) : res Block :=
  raw <- get_block files (file blk) (data_pos blk) ;;
  Ok (mkBlock raw (Some (height blk))).

Definition get_block_by_height (self : Blockchain) (height : Z) : res Block :=
  match blockIndexes self with
  | None => Err TypeError
  | Some idx =>
      blk <- py_index idx height ;;
      if not_on_disk blk then Err ValueError
      else Block_at (path self) blk
  end.

(** The [for blkIdx in blockIndexes[start:end]] loop of [get_ordered_blocks]. *)
Fixpoint ordered_loop (files : block_files) (entries : list DBBlockIndex)
  : list Block * ending :=
  match entries with
  | [] => ([], Done)
  | blkIdx :: entries' =>
      if not_on_disk blkIdx then ([], Done)
      else match Block_at files blkIdx with
           | Err e => ([], Raised e)
           | Ok block =>
               let '(rest, e) := ordered_loop files entries' in (block :: rest, e)
           end
  end.

(** The entries [get_ordered_blocks] walks over: lines 227 to 237. *)
Definition ordered_window (blockIndexes : list DBBlockIndex) (start : Z) (end_ : option Z)
  : list DBBlockIndex :=
  let end_ := match end_ with None => len blockIndexes | Some e => e end in
  if end_ <? start then
    let blockIndexes := rev blockIndexes in
    let start := len blockIndexes - start in
    let end_ := len blockIndexes - end_ in
    py_slice blockIndexes start end_
  else py_slice blockIndexes start end_.

Definition get_ordered_blocks (self : Blockchain) (start : Z) (end_ : option Z)
  : list Block * ending :=
  match blockIndexes self with
  | None => ([], Raised TypeError)
  | Some idx => ordered_loop (path self) (ordered_window idx start end_)
  end.

(** ** blockchain.py: orphan pruning *)

(** What the absent block decoder gives for a raw block: its display hash and
    the previous-block hash of its header. *)
Record block_codec : Type := mkCodec {
  block_hash : bytes -> string;
  previous_block_hash : bytes -> string
}.

Fixpoint string_in (s : string) (l : list string) : bool :=
  match l with
  | [] => false
  | x :: l' => String.eqb s x || string_in s l'
  end.

(** The [for chain in chains] loop of [_index_confirmed] for one block:
    [inl chains'] when the loop runs to its end (the chains as mutated),
    [inr b] when it returns [b]. *)
Fixpoint grow_chains (num_confirmations : Z) (first_hash bhash bprev : string)
  (chains : list (list string)) : list (list string) + bool :=
  match chains with
  | [] => inl []
  | chain :: chains' =>
      let chain :=
        if String.eqb (last chain EmptyString) bprev then chain ++ [bhash] else chain in
      if len chain =? num_confirmations then inr (string_in first_hash chain)
      else match grow_chains num_confirmations first_hash bhash bprev chains' with
           | inl chains'' => inl (chain :: chains'')
           | inr b => inr b
           end
  end.

(** The [for i, index in enumerate(chain_indexes)] loop of [_index_confirmed].
    [first_block] is [None] before the first iteration.  The result is
    [Some b] for [return b] and [None] when the loop ends without a [return]
    (the method then returns Python's [None]). *)
Fixpoint index_confirmed_loop (codec : block_codec) (files : block_files)
  (num_confirmations : Z) (chain_indexes : list DBBlockIndex)
  (chains : list (list string)) (first_block : option Block) : res (option bool) :=
  match chain_indexes with
  | [] => Ok None
  | index :: chain_indexes' =>
      if not_on_disk index then Ok (Some false)
      else
        raw <- get_block files (file index) (data_pos index) ;;
        let block := mkBlock raw None in
        let first_block :=
          match first_block with None => block | Some fb => fb end in
        let chains := chains ++ [[block_hash codec (blk_raw block)]] in
        match grow_chains num_confirmations
                (block_hash codec (blk_raw first_block))
                (block_hash codec (blk_raw block))
                (previous_block_hash codec (blk_raw block)) chains with
        | inr b => Ok (Some b)
        | inl chains =>
            index_confirmed_loop codec files num_confirmations chain_indexes'
              chains (Some first_block)
        end
  end.

(** [self._index_confirmed(chain_indexes)], with the default
    [num_confirmations=6]. *)
Definition _index_confirmed (codec : block_codec) (files : block_files)
  (chain_indexes : list DBBlockIndex) : res (option bool) :=
  index_confirmed_loop codec files 6 chain_indexes [] None.

(** Truth value of what [_index_confirmed] returns: [None] is false. *)
Definition truthy (r : option bool) : bool :=
  match r with
  | Some b => b
  | None => false
  end.

(** The [for i, blockIdx in enumerate(blockIndexes)] loop of lines 184 to 205:
    [todo] is what is left to enumerate, [i] the position of its head. *)
Fixpoint orphans_loop (codec : block_codec) (files : block_files)
  (blockIndexes : list DBBlockIndex) (i : nat) (todo : list DBBlockIndex)
  (last_height : Z) (orphans : list string) : res (list string) :=
  match todo with
  | [] => Ok orphans
  | blockIdx :: todo' =>
      if (last_height >? -1) && (height blockIdx =? last_height) then
        r <- _index_confirmed codec files (skipn i blockIndexes) ;;
        let orphans :=
          if truthy r
          then orphans ++ [hash (nth (i - 1) blockIndexes blockIdx)]
          else orphans ++ [hash (nth i blockIndexes blockIdx)] in
        orphans_loop codec files blockIndexes (S i) todo' (height blockIdx) orphans
      else
        orphans_loop codec files blockIndexes (S i) todo' (height blockIdx) orphans
  end.

(** Lines 184 to 210: the orphans, then the filter. *)
Definition prune_orphans (codec : block_codec) (files : block_files)
  (blockIndexes : list DBBlockIndex) : res (list DBBlockIndex) :=
  orphans <- orphans_loop codec files blockIndexes 0 blockIndexes (-1) [] ;;
  Ok (filter (fun block => negb (string_in (hash block) orphans)) blockIndexes).

(** ** blockchain.py: building the index *)

(** [list.sort(key=lambda x: x.height)]: a stable sort. *)
Fixpoint insert_by_height (x : DBBlockIndex) (l : list DBBlockIndex) : list DBBlockIndex :=
  match l with
  | [] => [x]
  | y :: l' => if height x <=? height y then x :: y :: l' else y :: insert_by_height x l'
  end.

Definition sort_by_height (l : list DBBlockIndex) : list DBBlockIndex :=
  fold_right insert_by_height [] l.

(** What surrounds the facade while it is built: the cache files ([None]: no
    such file; otherwise what [pickle.load] gives), and whether the module
    has a global named [db] (blockchain.py defines none). *)
Record world : Type := mkWorld {
  cache_files : string -> option (res (list DBBlockIndex));
  db_defined : bool
}.

(** [self.cache and ...]: [None] and the empty string are false. *)
Definition cache_set (c : option string) : option string :=
  match c with
  | Some EmptyString => None
  | other => other
  end.

(** The list comprehension of lines 166 and 167; [decode] is the absent
    [DBBlockIndex] constructor. *)
Fixpoint read_store (decode : string -> bytes -> res DBBlockIndex) (db : DB)
  : res (list DBBlockIndex) :=
  match db with
  | [] => Ok []
  | (k, v) :: db' =>
      k0 <- py_index k 0 ;;
      if ord k0 =? 98 then
        entry <- decode (format_hash (skipn 1 k)) v ;;
        rest <- read_store decode db' ;;
        Ok (entry :: rest)
      else read_store decode db'
  end.

Definition set_blockIndexes (self : Blockchain) (v : option (list DBBlockIndex)) : Blockchain :=
  mkBlockchain (path self) (cache self) v (blockIndexDb self) (txIndexDb self).

Definition write_cache (w : world) (name : string) (v : list DBBlockIndex) : world :=
  mkWorld (fun n => if String.eqb n name then Some (Ok v) else cache_files w n)
          (db_defined w).

(** [self._build_block_index()]: the value returned (or the exception), the
    object and the world as they are left.  The local [blockIndexes] is
    [None] while it is unbound. *)
Definition _build_block_index (codec : block_codec)
  (decode : string -> bytes -> res DBBlockIndex) (self : Blockchain) (w : world)
  : res (list DBBlockIndex) * Blockchain * world :=
  (* lines 160-163 *)
  let loaded : res (option (list DBBlockIndex)) :=
    match cache_set (cache self) with
    | Some name =>
        match cache_files w name with
        | Some (Ok l) => Ok (Some l)
        | Some (Err e) => Err e
        | None => Ok None
        end
    | None => Ok None
    end in
  match loaded with
  | Err e => (Err e, self, w)
  | Ok blockIndexes_local =>
      (* lines 166-167 *)
      match blockIndexDb self with
      | None => (Err AttributeError, self, w)
      | Some db =>
          match read_store decode db with
          | Err e => (Err e, self, w)
          | Ok from_store =>
              let self := set_blockIndexes self (Some from_store) in
              (* line 168 *)
              if negb (db_defined w) then (Err NameError, self, w)
              else
                (* line 169 *)
                match blockIndexes_local with
                | None => (Err UnboundLocalError, self, w)
                | Some l =>
                    let blockIndexes_local := sort_by_height l in
                    (* lines 171-174 *)
                    let w :=
                      match cache_set (cache self) with
                      | Some name =>
                          match cache_files w name with
                          | None => write_cache w name blockIndexes_local
                          | Some _ => w
                          end
                      | None => w
                      end in
                    (* lines 184-210 *)
                    (prune_orphans codec (path self) blockIndexes_local, self, w)
                end
          end
      end
  end.

(** [Blockchain.__init__(path, cache)]: lines 83 to 86; lines 87 and 88, which
    open the two stores ([stores]), run only when line 86 returns. *)
Definition Blockchain_init (codec : block_codec)
  (decode : string -> bytes -> res DBBlockIndex)
  (files : block_files) (stores : DB * DB) (cache_path : option string) (w : world)
  : res Blockchain * world :=
  let self := mkBlockchain files cache_path None None None in
  match _build_block_index codec decode self w with
  | (Err e, _, w) => (Err e, w)
  | (Ok idx, self, w) =>
      (Ok (mkBlockchain (path self) (cache self) (Some idx)
             (Some (fst stores)) (Some (snd stores))), w)
  end.

(** ** blockchain.py: transaction lookup *)

(** Lines 146 to 149 of [get_transaction]: the three [decode_varint] calls.
    [txInfo] is [None] when the store has no record; [BytesIO(None)] is an
    empty stream.  The last component is what line 149 binds to [txOffs]:
    the pair [decode_varint] returns. *)
Definition tx_location (txInfo : option bytes) : res (Z * Z * (Z * Z)) :=
  '(fileNo, offset) <- decode_varint (match txInfo with Some b => b | None => [] end) ;;
  match txInfo with
  | None => Err TypeError
  | Some txInfo =>
      '(blockOffs, size) <- decode_varint (py_slice txInfo offset (len txInfo)) ;;
      let offset := offset + size in
      txOffs <- decode_varint (py_slice txInfo offset (len txInfo)) ;;
      Ok (fileNo, blockOffs, txOffs)
  end.

(** [self.get_transaction(txid)].  [lx] is [bitcoin.core.lx] and [get_tx] the
    absent [Block.get_transaction]. *)
Definition get_transaction {Tx : Type} (lx : string -> bytes)
  (get_tx : Block -> pyarg -> res Tx) (self : Blockchain) (txid : string) : res Tx :=
  match txIndexDb self with
  | None => Err AttributeError
  | Some db =>
      let txInfo := db_get db (x74 :: lx txid) in
      '(fileNo, blockOffs, txOffs) <- tx_location txInfo ;;
      raw <- get_block (path self) fileNo blockOffs ;;
      get_tx (mkBlock raw None) (ArgPair (fst txOffs) (snd txOffs))
  end.

(** The stored value as section 4.5 words it: four consecutive varints, file
    number, block offset, declared size, transaction offset. *)
Definition tx_location_spec (txInfo : bytes) : res (Z * Z * Z * Z) :=
  '(fileNo, n1) <- decode_varint txInfo ;;
  '(blockOffs, n2) <- decode_varint (skipn (Z.to_nat n1) txInfo) ;;
  '(declared, n3) <- decode_varint (skipn (Z.to_nat (n1 + n2)) txInfo) ;;
  '(txOffs, _) <- decode_varint (skipn (Z.to_nat (n1 + n2 + n3)) txInfo) ;;
  Ok (fileNo, blockOffs, declared, txOffs).

(** The lookup as section 4.5 words it; [None] stands for its NotFound. *)
Definition get_transaction_spec {Tx : Type} (lx : string -> bytes)
  (get_tx : Block -> pyarg -> res Tx) (files : block_files) (db : DB) (txid : string)
  : option (res Tx) :=
  match db_get db (x74 :: lx txid) with
  | None => None
  | Some txInfo =>
      Some ('(fileNo, blockOffs, _, txOffs) <- tx_location_spec txInfo ;;
            raw <- get_block files fileNo blockOffs ;;
            get_tx (mkBlock raw None) (ArgInt txOffs))
  end.

(** ** scanner.py *)

(** What a run of the wrapper does besides yielding: the progress lines it
    logs and the calls of the predicate. *)
Inductive event : Type :=
| EvLog (n : Z) (block : Block)
| EvFlt (block : Block).

(** The [Scanner] object.  [blocks] is the generator made once by
    [get_ordered_blocks()]: the blocks it has still to yield and the way it
    then ends; the index and the files do not change, so it is known in
    advance.  [selected_blocks] is [None] or the list of remembered heights. *)
Record Scanner : Type := mkScanner {
  blockchain : Blockchain;
  blocks : list Block * ending;
  selected_blocks : option (list (option Z))
}.

(** [Scanner.__init__], lines 16 to 18, on the facade of line 15. *)
Definition Scanner_init (bc : Blockchain) : Scanner :=
  mkScanner bc (get_ordered_blocks bc 0 None) None.

(** The [for n, block in enumerate(self.blocks)] loop of [filter_blocks]. *)
Fixpoint filter_loop (flt : Block -> bool) (n : Z) (todo : list Block) (e : ending)
  (selected : list (option Z)) : (list Block * ending) * list event * list (option Z) :=
  match todo with
  | [] => (([], e), [], selected)
  | block :: todo' =>
      let log := if n mod 1000 =? 0 then [EvLog n block] else [] in
      if flt block then
        let '((ys, e'), tr, sel) :=
          filter_loop flt (n + 1) todo' e (selected ++ [blk_height block]) in
        ((block :: ys, e'), log ++ EvFlt block :: tr, sel)
      else
        let '((ys, e'), tr, sel) := filter_loop flt (n + 1) todo' e selected in
        ((ys, e'), log ++ EvFlt block :: tr, sel)
  end.

(** [self.filter_blocks(flt)] consumed to its end: what it yields and how it
    ends, what it does on the way, and the wrapper it leaves: the generator
    [self.blocks] is exhausted. *)
Definition filter_blocks (flt : Block -> bool) (self : Scanner)
  : (list Block * ending) * list event * Scanner :=
  let '(out, tr, sel) := filter_loop flt 0 (fst (blocks self)) (snd (blocks self)) [] in
  (out, tr, mkScanner (blockchain self) ([], Done) (Some sel)).

(** The [for block_height in self.selected_blocks] loop of [iterate_blocks]. *)
Fixpoint replay_loop (bc : Blockchain) (selected : list (option Z)) : list Block * ending :=
  match selected with
  | [] => ([], Done)
  | block_height :: selected' =>
      match match block_height with
            | Some h => get_block_by_height bc h
            | None => Err TypeError
            end with
      | Err e => ([], Raised e)
      | Ok block => let '(ys, e) := replay_loop bc selected' in (block :: ys, e)
      end
  end.

(** [self.iterate_blocks(flt)] consumed to its end. *)
Definition iterate_blocks (flt : Block -> bool) (self : Scanner)
  : (list Block * ending) * list event * Scanner :=
  match selected_blocks self with
  | None => filter_blocks flt self
  | Some selected => (replay_loop (blockchain self) selected, [], self)
  end.

Definition clear_block_filter (self : Scanner) : Scanner :=
  mkScanner (blockchain self) (blocks self) None.

(** ** Notions the statements below use *)

(** [struct.pack("<I", n)] *)
Definition pack_le32 (n : Z) : bytes :=
  [chr n; chr (n / 256); chr (n / 65536); chr (n / 16777216)].

(** One record of a block file: marker, length, payload. *)
Definition frame (payload : bytes) : bytes :=
  BITCOIN_CONSTANT ++ pack_le32 (len payload) ++ payload.

(** A block file made of records, each after some padding that holds no
    [0xF9] byte, so that no marker starts inside it. *)
Definition padded_file (records : list (bytes * bytes)) : bytes :=
  List.concat (map (fun r => fst r ++ frame (snd r)) records).

Definition no_marker_start (pad : bytes) : Prop :=
  Forall (fun b => b <> xf9) pad.

(** An entry whose block can be fetched. *)
Definition fetchable (files : block_files) (e : DBBlockIndex) : Prop :=
  not_on_disk e = false /\ exists b, Block_at files e = Ok b.

(** Heights in ascending, resp. descending, order along a list. *)
Definition ascending (hs : list Z) : Prop :=
  forall i j a b, (i <= j)%nat -> nth_error hs i = Some a -> nth_error hs j = Some b -> a <= b.

Definition descending (hs : list Z) : Prop :=
  forall i j a b, (i <= j)%nat -> nth_error hs i = Some a -> nth_error hs j = Some b -> b <= a.

(** Every entry sits at the position its own height names. *)
Definition dense (idx : list DBBlockIndex) : Prop :=
  forall i e, nth_error idx i = Some e -> height e = Z.of_nat i.



(** An entry that is marked as not on disk, or whose block can be read. *)
Definition readable (files : block_files) (e : DBBlockIndex) : Prop :=
  not_on_disk e = true \/ exists raw, get_block files (file e) (data_pos e) = Ok raw.


(** A record of a padded block file whose padding holds no marker start and
    whose length fits the four-byte field. *)
Definition well_formed_record (r : bytes * bytes) : Prop :=
  no_marker_start (fst r) /\ len (snd r) < 2 ^ 32.

(** The number of loop iterations a padded file takes: one per padding byte,
    one per record. *)
Definition scan_steps (records : list (bytes * bytes)) : nat :=
  list_sum (map (fun r => S (List.length (fst r))) records).

(** A block that the height lookup gives back under its own height. *)
Definition replayable (bc : Blockchain) (b : Block) : Prop :=
  exists h, blk_height b = Some h /\ get_block_by_height bc h = Ok b.

(** ** Sample data *)

(** A toy block format for the samples: the first byte of a raw block names
    it, the second names its predecessor. *)
Definition sample_codec : block_codec :=
  mkCodec (fun raw => hexlify (firstn 1 raw)) (fun raw => hexlify (firstn 1 (skipn 1 raw))).

(** One block file, number 0, of eight two-byte blocks: a genesis block, two
    competing blocks [0a] and [0b] on top of it, and five blocks on top of
    [0b].  The k-th payload starts at byte [10 k + 8]. *)
Definition sample_blocks : list bytes :=
  [[x00; xff]; [x0a; x00]; [x0b; x00]; [x01; x0b]; [x02; x01]; [x03; x02];
   [x04; x03]; [x05; x04]].

(** A second block file, number 1: a genesis block, three competing blocks
    [0a], [0b] and [0c] on top of it, and five blocks on top of [0c]. *)
Definition three_way_blocks : list bytes :=
  [[x00; xff]; [x0a; x00]; [x0b; x00]; [x0c; x00]; [x01; x0c]; [x02; x01];
   [x03; x02]; [x04; x03]; [x05; x04]].

Definition sample_files : block_files :=
  mkFiles
    (fun n =>
       if n =? 0 then Some (List.concat (map frame sample_blocks))
       else if n =? 1 then Some (List.concat (map frame three_way_blocks))
       else None)
    (2 ^ 44).

Definition entry_in (f : Z) (name : byte) (h k : Z) : DBBlockIndex :=
  mkIndex (hexlify [name]) h f (10 * k + 8).

Definition sample_entry (name : byte) (h k : Z) : DBBlockIndex :=
  entry_in 0 name h k.

(** The index of the sample file, sorted by height, with its fork at height 1. *)
Definition forked_index : list DBBlockIndex :=
  [sample_entry x00 0 0; sample_entry x0a 1 1; sample_entry x0b 1 2;
   sample_entry x01 2 3; sample_entry x02 3 4; sample_entry x03 4 5;
   sample_entry x04 5 6; sample_entry x05 6 7].

(** The same index without the orphan [0a]: dense. *)
Definition dense_index : list DBBlockIndex :=
  [sample_entry x00 0 0; sample_entry x0b 1 2; sample_entry x01 2 3;
   sample_entry x02 3 4].


(** The index of block file 1, sorted by height, and what pruning leaves of
    it: [0b] is marked twice, [0a] and [0c] both stay at height 1. *)
Definition three_way_index : list DBBlockIndex :=
  [entry_in 1 x00 0 0; entry_in 1 x0a 1 1; entry_in 1 x0b 1 2; entry_in 1 x0c 1 3;
   entry_in 1 x01 2 4; entry_in 1 x02 3 5; entry_in 1 x03 4 6; entry_in 1 x04 5 7;
   entry_in 1 x05 6 8].

Definition three_way_pruned : list DBBlockIndex :=
  [entry_in 1 x00 0 0; entry_in 1 x0a 1 1; entry_in 1 x0c 1 3;
   entry_in 1 x01 2 4; entry_in 1 x02 3 5; entry_in 1 x03 4 6; entry_in 1 x04 5 7;
   entry_in 1 x05 6 8].


Definition sample_chain (idx : list DBBlockIndex) : Blockchain :=
  mkBlockchain sample_files None (Some idx) None None.

Definition accept_all (block : Block) : bool := true.

Definition at_height (h : Z) (block : Block) : bool :=
  match blk_height block with
  | Some h' => h' =? h
  | None => false
  end.

(** A block file that ends inside its only record: the length field says 5,
    two bytes follow. *)
Definition truncated_file : bytes :=
  BITCOIN_CONSTANT ++ [x05; x00; x00; x00] ++ [x01; x02].

(** A block-index store for the samples: two records under the tag ['b'],
    one under another tag; a value is a height byte and a data-offset byte. *)
Definition sample_store : DB :=
  [([x62; x00], [x00; x08]); ([x62; x0b], [x01; x1c]); ([x66; x00], [x00])].

Definition sample_decode (h : string) (v : bytes) : res DBBlockIndex :=
  match v with
  | [hh; pos] => Ok (mkIndex h (ord hh) 0 (ord pos))
  | _ => Err StructError
  end.

(** A world with one cache file, left by an earlier run, that holds an empty
    index. *)
Definition stale_cache (db_global : bool) : world :=
  mkWorld (fun name => if String.eqb name "cache" then Some (Ok []) else None) db_global.

(** A transaction-index store with one record: file 0, block offset 8, then
    the varints 3 and 4. *)
Definition sample_txdb : DB := [([x74], [x00; x08; x03; x04])].

(** Stand-ins for the two absent functions: [lx] of any id is empty here, and
    the block's transaction decoder answers with the argument it was given. *)
Definition sample_lx (txid : string) : bytes := [].

Definition sample_get_tx (block : Block) (offset : pyarg) : res pyarg := Ok offset.

(** ** More of utils.py: fixed-width integers *)

(** What a function that starts with an [assert] gives: a value, the
    [AssertionError] of the failed assertion, or another exception. *)
Inductive asserted (A : Type) : Type :=
| Value (a : A)
| AssertionError
| Raises (e : exn).
Arguments Value {A} a.
Arguments AssertionError {A}.
Arguments Raises {A} e.

(** [struct.unpack("<Q", data)[0]], for a buffer of exactly eight bytes. *)
Definition unpack_le64 (data : bytes) : res Z :=
  match data with
  | [b0; b1; b2; b3; b4; b5; b6; b7] =>
      Ok (ord b0 + 256 * ord b1 + 65536 * ord b2 + 16777216 * ord b3
          + 4294967296 * ord b4 + 1099511627776 * ord b5
          + 281474976710656 * ord b6 + 72057594037927936 * ord b7)
  | _ => Err StructError
  end.

Definition decode_uint32 (data : bytes) : asserted Z :=
  if len data =? 4 then
    match unpack_le32 data with
    | Ok v => Value v
    | Err e => Raises e
    end
  else AssertionError.

Definition decode_uint64 (data : bytes) : asserted Z :=
  if len data =? 8 then
    match unpack_le64 data with
    | Ok v => Value v
    | Err e => Raises e
    end
  else AssertionError.

(** [struct.pack("<Q", n)] *)
Definition pack_le64 (n : Z) : bytes :=
  pack_le32 n ++ pack_le32 (n / 4294967296).

(** [binascii.unhexlify]: two hex digits of either case per byte; [None]
    stands for its error. *)
Definition unhex_digit (c : ascii) : option Z :=
  let code := Z.of_N (N_of_ascii c) in
  if (48 <=? code) && (code <=? 57) then Some (code - 48)
  else if (97 <=? code) && (code <=? 102) then Some (code - 87)
  else if (65 <=? code) && (code <=? 70) then Some (code - 55)
  else None.

Fixpoint unhexlify (s : string) : option bytes :=
  match s with
  | EmptyString => Some []
  | String _ EmptyString => None
  | String hi (String lo s') =>
      match unhex_digit hi, unhex_digit lo, unhexlify s' with
      | Some h, Some l, Some rest => Some (chr (16 * h + l) :: rest)
      | _, _, _ => None
      end
  end.

Definition lower_hex_digit (c : ascii) : bool :=
  let code := Z.of_N (N_of_ascii c) in
  ((48 <=? code) && (code <=? 57)) || ((97 <=? code) && (code <=? 102)).

Fixpoint string_forall (p : ascii -> bool) (s : string) : bool :=
  match s with
  | EmptyString => true
  | String c s' => p c && string_forall p s'
  end.

(** ** More of blockchain.py: the block files of a directory *)

(** What [os.stat] finds at a path: a directory, with the names [os.listdir]
    gives in the order it gives them, or something else. *)
Inductive fs_node : Type :=
| Directory (listing : list string)
| NotDirectory.

(** [s.startswith(p)] and [s.endswith(p)] *)
Definition startswith (s p : string) : bool := String.prefix p s.

Definition endswith (s p : string) : bool :=
  (String.length p <=? String.length s)%nat
  && String.eqb (substring (String.length s - String.length p) (String.length p) s) p.

(** [os.path.join(a, b)] of posixpath. *)
Definition path_join (a b : string) : string :=
  if startswith b "/" then b
  else if String.eqb a EmptyString || endswith a "/" then String.append a b
  else String.append a (String.append "/" b).

(** [sorted] on strings. *)
Fixpoint insert_string (x : string) (l : list string) : list string :=
  match l with
  | [] => [x]
  | y :: l' => if String.leb x y then x :: y :: l' else y :: insert_string x l'
  end.

Definition sorted_strings (l : list string) : list string :=
  fold_right insert_string [] l.

Definition is_blk_file (f : string) : bool :=
  startswith f "blk" && endswith f ".dat".

(** [get_files(path)]; [node] is what is found at [path], [None] when nothing
    is there ([os.stat] raises). *)
Definition get_files (path : string) (node : option fs_node) : res (list string) :=
  match node with
  | None => Err FileNotFoundError
  | Some NotDirectory => Ok [path]
  | Some (Directory files) =>
      let files := filter is_blk_file files in
      let files := map (fun x => path_join path x) files in
      Ok (sorted_strings files)
  end.

(** The two nested loops of [get_unordered_blocks]; [read] gives the contents
    of a file, or the exception [open] raises on it. *)
Fixpoint unordered_loop (read : string -> res bytes) (files : list string)
  : option (list Block * ending) :=
  match files with
  | [] => Some ([], Done)
  | blk_file :: files' =>
      match read blk_file with
      | Err e => Some ([], Raised e)
      | Ok contents =>
          match get_blocks contents with
          | None => None
          | Some (raws, Raised e) => Some (map (fun raw => mkBlock raw None) raws, Raised e)
          | Some (raws, Done) =>
              match unordered_loop read files' with
              | Some (rest, e) => Some (map (fun raw => mkBlock raw None) raws ++ rest, e)
              | None => None
              end
          end
      end
  end.

(** [self.get_unordered_blocks()] consumed to its end, [self.path] being the
    string [path]. *)
Definition get_unordered_blocks (path : string) (node : option fs_node)
  (read : string -> res bytes) : option (list Block * ending) :=
  match get_files path node with
  | Err e => Some ([], Raised e)
  | Ok files => unordered_loop read files
  end.

(** ** More of scanner.py: transactions *)

(** The wrapper with its transaction selection: [selected_tx] is [None] or
    the list of remembered (height, position) pairs. *)
Record TxScanner : Type := mkTxScanner {
  scanner : Scanner;
  selected_tx : option (list (option Z * Z))
}.

(** The [for i, tx in enumerate(block.transactions)] loop of [filter_tx]:
    the triples it yields. *)
Fixpoint filter_tx_block {Tx : Type} (flt : Tx -> bool) (block : Block) (i : Z)
  (txs : list Tx) : list (Block * Z * Tx) :=
  match txs with
  | [] => []
  | tx :: txs' =>
      if flt tx then (block, i, tx) :: filter_tx_block flt block (i + 1) txs'
      else filter_tx_block flt block (i + 1) txs'
  end.

(** [self.filter_tx(flt)] consumed to its end.  [transactions] is the absent
    [Block.transactions].  The events are those of the inner
    [self.iterate_blocks()], which runs with its default predicate, and the
    transactions the predicate is called on, each list in order. *)
Definition filter_tx {Tx : Type} (transactions : Block -> list Tx) (flt : Tx -> bool)
  (self : TxScanner)
  : (list (Block * Z * Tx) * ending) * (list event * list Tx) * TxScanner :=
  let '((bs, e), tr, s') := iterate_blocks (fun _ => true) (scanner self) in
  let hits := flat_map (fun block => filter_tx_block flt block 0 (transactions block)) bs in
  ((hits, e), (tr, flat_map transactions bs),
   mkTxScanner s' (Some (map (fun hit => (blk_height (fst (fst hit)), snd (fst hit))) hits))).

(** The [for block_height, i in self.selected_tx] loop of [iterate_tx]. *)
Fixpoint tx_replay_loop {Tx : Type} (transactions : Block -> list Tx) (bc : Blockchain)
  (selected : list (option Z * Z)) : list (Block * Z * Tx) * ending :=
  match selected with
  | [] => ([], Done)
  | (block_height, i) :: selected' =>
      match (block <- match block_height with
                      | Some h => get_block_by_height bc h
                      | None => Err TypeError
                      end ;;
             tx <- py_index (transactions block) i ;;
             Ok (block, i, tx)) with
      | Err e => ([], Raised e)
      | Ok hit =>
          let '(ys, e) := tx_replay_loop transactions bc selected' in (hit :: ys, e)
      end
  end.

(** [self.iterate_tx(flt)] consumed to its end. *)
Definition iterate_tx {Tx : Type} (transactions : Block -> list Tx) (flt : Tx -> bool)
  (self : TxScanner)
  : (list (Block * Z * Tx) * ending) * (list event * list Tx) * TxScanner :=
  match selected_tx self with
  | None => filter_tx transactions flt self
  | Some selected =>
      (tx_replay_loop transactions (blockchain (scanner self)) selected, ([], []), self)
  end.

Definition clear_tx_filter (self : TxScanner) : TxScanner :=
  mkTxScanner (scanner self) None.

(** ** Further notions for the statements *)

(** The blocks a predicate was called on, and the progress lines logged. *)
Fixpoint calls_of (tr : list event) : list Block :=
  match tr with
  | [] => []
  | EvFlt b :: tr' => b :: calls_of tr'
  | EvLog _ _ :: tr' => calls_of tr'
  end.

Fixpoint logs_of (tr : list event) : list (Z * Block) :=
  match tr with
  | [] => []
  | EvLog n b :: tr' => (n, b) :: logs_of tr'
  | EvFlt _ :: tr' => logs_of tr'
  end.

(** The items of a list at the positions [n, n+1, ...] that are multiples
    of 1000, with their positions. *)
Fixpoint every_1000th {A : Type} (n : Z) (l : list A) : list (Z * A) :=
  match l with
  | [] => []
  | x :: l' =>
      if n mod 1000 =? 0 then (n, x) :: every_1000th (n + 1) l'
      else every_1000th (n + 1) l'
  end.

(** No entry has the height of the entry before it. *)
Fixpoint no_repeated_height (idx : list DBBlockIndex) : Prop :=
  match idx with
  | [] => True
  | a :: rest =>
      match rest with
      | [] => True
      | b :: _ => height b <> height a
      end /\ no_repeated_height rest
  end.

(** A list of strings in ascending order. *)
Definition strings_ascending (l : list string) : Prop :=
  forall i j a b, (i <= j)%nat -> nth_error l i = Some a -> nth_error l j = Some b ->
                  String.leb a b = true.

Definition string_le (a b : string) : Prop := String.leb a b = true.

(** A block file as a list of padded records and a trailer, well formed and
    not empty, found under a name. *)
Definition good_block_file (read : string -> res bytes) (name : string)
  (layout : list (bytes * bytes) * bytes) : Prop :=
  read name = Ok (padded_file (fst layout) ++ snd layout)
  /\ Forall well_formed_record (fst layout)
  /\ no_marker_start (snd layout)
  /\ padded_file (fst layout) ++ snd layout <> [].

(** The blocks of a list of such files, in order, as the unordered iteration
    builds them. *)
Definition blocks_of_layouts (layouts : list (list (bytes * bytes) * bytes)) : list Block :=
  map (fun raw => mkBlock raw None) (flat_map (fun r => map snd (fst r)) layouts).

(** A sample directory: two block files and another file, listed out of
    order; and the same directory with its second block file empty. *)
Definition sample_listing : list string :=
  ["blk00001.dat"; "rev00000.dat"; "blk00000.dat"]%string.

Definition sample_read (name : string) : res bytes :=
  if String.eqb name "blocks/blk00000.dat" then Ok (padded_file [([], [x01])] ++ [])
  else if String.eqb name "blocks/blk00001.dat"
       then Ok (padded_file [([x00], [x02])] ++ [x00])
       else Err FileNotFoundError.

Definition sample_read_empty (name : string) : res bytes :=
  if String.eqb name "blocks/blk00000.dat" then Ok (padded_file [([], [x01])] ++ [])
  else if String.eqb name "blocks/blk00001.dat" then Ok []
       else Err FileNotFoundError.

(** Entries compared by height. *)
Definition height_le (a b : DBBlockIndex) : Prop := height a <= height b.

(** A hash that belongs to one of two neighbouring entries of equal height. *)
Definition of_repeated_height (idx : list DBBlockIndex) (s : string) : Prop :=
  exists j a b,
    nth_error idx j = Some a /\ nth_error idx (S j) = Some b
    /\ height b = height a /\ (s = hash a \/ s = hash b).

(** A stand-in for the absent [Block.transactions]: every byte of the raw
    block counts as one transaction. *)
Definition sample_transactions (block : Block) : list byte := blk_raw block.

Definition is_zero_byte (tx : byte) : bool := Byte.eqb tx x00.

(** A fresh wrapper over a facade, with no transaction selection. *)
Definition TxScanner_init (bc : Blockchain) : TxScanner :=
  mkTxScanner (Scanner_init bc) None.

(** ** Bytes and bit arithmetic *)

Lemma ord_range (b : byte) : 0 <= ord b < 256.
Proof.
  destruct b; vm_compute; split; congruence.
Qed.

Lemma ord_chr (z : Z) : ord (chr z) = z mod 256.
Proof.
  unfold ord, chr.
  assert (Hr : 0 <= z mod 256 < 256) by (apply Z.mod_pos_bound; lia).
  destruct (Byte.of_N (Z.to_N (z mod 256))) as [b|] eqn:E.
  - apply Strings.Byte.to_of_N in E. rewrite E. lia.
  - apply Strings.Byte.of_N_None_iff in E. lia.
Qed.

Lemma chr_ord (b : byte) : chr (ord b) = b.
Proof. destruct b; reflexivity. Qed.

Lemma byte_low7 (b : byte) : Z.land (ord b) 127 = ord b mod 128.
Proof. destruct b; reflexivity. Qed.

Lemma byte_high_bit (b : byte) : (Z.land (ord b) 128 =? 0) = (ord b <? 128).
Proof. destruct b; reflexivity. Qed.

Lemma byte_set_high (b : byte) : ord b < 128 -> Z.lor (ord b) 128 = ord b + 128.
Proof. destruct b; vm_compute; intros H; try reflexivity; discriminate H. Qed.

(** ** The varint decoder *)

Lemma shiftl_split7 (v s : Z) :
  0 <= s ->
  Z.shiftl v s = Z.lor (Z.shiftl (v mod 128) s) (Z.shiftl (Z.shiftr v 7) (s + 7)).
Proof.
  intros Hs. apply Z.bits_inj'. intros n Hn.
  rewrite Z.lor_spec, !Z.shiftl_spec by lia.
  change 128 with (2 ^ 7).
  destruct (Z.lt_ge_cases (n - s) 7) as [Hlow | Hhigh].
  - rewrite (Z.testbit_neg_r _ (n - (s + 7))) by lia.
    rewrite orb_false_r.
    destruct (Z.lt_ge_cases (n - s) 0) as [Hneg | Hpos].
    + now rewrite !Z.testbit_neg_r by lia.
    + now rewrite Z.mod_pow2_bits_low by lia.
  - rewrite Z.mod_pow2_bits_high by lia.
    rewrite Z.shiftr_spec by lia.
    simpl. f_equal. lia.
Qed.

Lemma shiftr7_bound (v : Z) (k : Z) :
  0 <= k -> 0 <= v < 2 ^ (7 * (k + 1)) -> 0 <= Z.shiftr v 7 < 2 ^ (7 * k).
Proof.
  intros Hk [Hv Hlt]. rewrite Z.shiftr_div_pow2 by lia. split.
  - apply Z.div_pos; lia.
  - apply Z.div_lt_upper_bound; [lia|].
    rewrite <- Z.pow_add_r by lia. replace (7 + 7 * k) with (7 * (k + 1)) by lia. exact Hlt.
Qed.

Lemma continuation_byte (v : Z) :
  ord (chr (Z.lor (Z.land v 127) 128)) = v mod 128 + 128.
Proof.
  change 127 with (Z.ones 7). rewrite Z.land_ones by lia. change (2 ^ 7) with 128.
  assert (Hm : 0 <= v mod 128 < 128) by (apply Z.mod_pos_bound; lia).
  assert (E : ord (chr (v mod 128)) = v mod 128)
    by (rewrite ord_chr; apply Z.mod_small; lia).
  rewrite <- E at 1. rewrite byte_set_high by (rewrite E; lia).
  rewrite E, ord_chr. apply Z.mod_small. lia.
Qed.

Lemma encode_varint_fuel_S (fuel : nat) (v : Z) :
  encode_varint_fuel (S fuel) v
  = if v <? 128 then [chr v]
    else chr (Z.lor (Z.land v 127) 128) :: encode_varint_fuel fuel (Z.shiftr v 7).
Proof. reflexivity. Qed.

Lemma decode_encode_loop (fuel : nat) :
  forall (v : Z) (rest : bytes) (length shift acc : Z),
    0 <= v < 2 ^ (7 * (Z.of_nat fuel + 1)) -> 0 <= shift ->
    decode_varint_loop (encode_varint_fuel (S fuel) v ++ rest) length shift acc
    = Ok (Z.lor acc (Z.shiftl v shift), length + len (encode_varint_fuel (S fuel) v)).
Proof.
  induction fuel as [|fuel IH]; intros v rest length shift acc Hv Hs.
  - assert (Hlt : v < 128) by (change (2 ^ (7 * (Z.of_nat 0 + 1))) with 128 in Hv; lia).
    simpl encode_varint_fuel. apply Z.ltb_lt in Hlt. rewrite Hlt. apply Z.ltb_lt in Hlt.
    simpl. rewrite byte_high_bit, byte_low7, ord_chr.
    rewrite (Z.mod_small v 256) by lia. rewrite (Z.mod_small v 128) by lia.
    apply Z.ltb_lt in Hlt. rewrite Hlt. reflexivity.
  - rewrite (encode_varint_fuel_S (S fuel) v). destruct (v <? 128) eqn:Hlt.
    + apply Z.ltb_lt in Hlt.
      simpl. rewrite byte_high_bit, byte_low7, ord_chr.
      rewrite (Z.mod_small v 256) by lia. rewrite (Z.mod_small v 128) by lia.
      apply Z.ltb_lt in Hlt. rewrite Hlt. reflexivity.
    + apply Z.ltb_ge in Hlt.
      cbn [app decode_varint_loop].
      rewrite byte_high_bit, byte_low7, continuation_byte.
      assert (Hm : 0 <= v mod 128 < 128) by (apply Z.mod_pos_bound; lia).
      replace (v mod 128 + 128 <? 128) with false by (symmetry; apply Z.ltb_ge; lia).
      replace ((v mod 128 + 128) mod 128) with (v mod 128)
        by (apply Z.mod_unique with (q := 1); lia).
      rewrite IH.
      * f_equal. f_equal.
        -- rewrite <- Z.lor_assoc, <- shiftl_split7 by lia. reflexivity.
        -- unfold len. cbn [List.length]. lia.
      * apply shiftr7_bound; [lia|].
        replace (Z.of_nat fuel + 1 + 1) with (Z.of_nat (S fuel) + 1) by lia. exact Hv.
      * lia.
Qed.

Lemma encode_fuel_enough (v : Z) :
  0 <= v -> 0 <= v < 2 ^ (7 * (Z.of_nat (Z.to_nat (Z.log2 v)) + 1)).
Proof.
  intros Hv. split; [exact Hv|].
  pose proof (Z.log2_nonneg v) as Hl. rewrite Z2Nat.id by lia.
  destruct (Z.eq_dec v 0) as [->|Hnz].
  - apply Z.pow_pos_nonneg; simpl; lia.
  - apply Z.lt_le_trans with (2 ^ (Z.log2 v + 1)).
    + replace (Z.log2 v + 1) with (Z.succ (Z.log2 v)) by lia. apply Z.log2_spec. lia.
    + apply Z.pow_le_mono_r; lia.
Qed.

Lemma encode_length (fuel : nat) :
  forall v : Z,
    0 <= v < 2 ^ (7 * (Z.of_nat fuel + 1)) ->
    len (encode_varint_fuel (S fuel) v) = Z.max 1 ((bits v + 6) / 7).
Proof.
  induction fuel as [|fuel IH]; intros v Hv.
  - assert (Hlt : v < 128) by (change (2 ^ (7 * (Z.of_nat 0 + 1))) with 128 in Hv; lia).
    simpl encode_varint_fuel. replace (v <? 128) with true by (symmetry; apply Z.ltb_lt; lia).
    unfold bits. destruct (v =? 0) eqn:E0; [reflexivity|].
    apply Z.eqb_neq in E0.
    assert (Hl : Z.log2 v < 7) by (apply Z.log2_lt_pow2; [lia | exact Hlt]).
    pose proof (Z.log2_nonneg v).
    replace ((Z.log2 v + 1 + 6) / 7) with 1; [reflexivity|].
    apply Z.div_unique with (r := Z.log2 v); lia.
  - rewrite (encode_varint_fuel_S (S fuel) v). destruct (v <? 128) eqn:Hlt.
    + apply Z.ltb_lt in Hlt.
      unfold bits. destruct (v =? 0) eqn:E0; [reflexivity|].
      apply Z.eqb_neq in E0.
      assert (Hl : Z.log2 v < 7) by (apply Z.log2_lt_pow2; [lia | exact Hlt]).
      pose proof (Z.log2_nonneg v).
      replace ((Z.log2 v + 1 + 6) / 7) with 1; [reflexivity|].
      apply Z.div_unique with (r := Z.log2 v); lia.
    + apply Z.ltb_ge in Hlt.
      assert (Hb : 0 <= Z.shiftr v 7 < 2 ^ (7 * (Z.of_nat fuel + 1))).
      { apply shiftr7_bound; [lia|].
        replace (Z.of_nat fuel + 1 + 1) with (Z.of_nat (S fuel) + 1) by lia. exact Hv. }
      assert (Hl7 : 7 <= Z.log2 v) by (apply Z.log2_le_pow2; [lia | exact Hlt]).
      assert (Hs : Z.log2 (Z.shiftr v 7) = Z.log2 v - 7).
      { rewrite Z.log2_shiftr by lia. lia. }
      assert (Hpos : 0 < Z.shiftr v 7).
      { rewrite Z.shiftr_div_pow2 by lia. apply Z.div_str_pos. change (2 ^ 7) with 128. lia. }
      unfold len in *. cbn [List.length]. rewrite Nat2Z.inj_succ, (IH _ Hb).
      unfold bits. rewrite Hs.
      replace (Z.shiftr v 7 =? 0) with false by (symmetry; apply Z.eqb_neq; lia).
      replace (v =? 0) with false by (symmetry; apply Z.eqb_neq; lia).
      replace (Z.log2 v + 1 + 6) with (Z.log2 v - 7 + 1 + 6 + 1 * 7) by lia.
      rewrite Z.div_add by lia.
      assert (0 <= (Z.log2 v - 7 + 1 + 6) / 7) by (apply Z.div_pos; lia).
      assert (1 <= (Z.log2 v - 7 + 1 + 6) / 7)
        by (apply Z.div_le_lower_bound; lia).
      lia.
Qed.

Lemma decode_varint_run (cont : bytes) :
  forall (last : byte) (rest : bytes) (length shift acc : Z),
    forallb high_bit_set cont = true -> high_bit_set last = false ->
    decode_varint_loop (cont ++ last :: rest) length shift acc
    = Ok (Z.lor acc (varint_value (cont ++ [last]) shift), length + len cont + 1).
Proof.
  induction cont as [|b cont IH]; intros last rest length shift acc Hc Hl.
  - unfold high_bit_set in Hl. apply negb_false_iff in Hl.
    cbn [app decode_varint_loop varint_value]. rewrite Hl, Z.lor_0_r.
    unfold len. cbn [List.length]. f_equal. f_equal. lia.
  - simpl in Hc. apply andb_true_iff in Hc as [Hb Hc].
    unfold high_bit_set in Hb. apply negb_true_iff in Hb.
    cbn [app decode_varint_loop varint_value]. rewrite Hb.
    rewrite (IH last rest _ _ _ Hc Hl). f_equal. f_equal.
    + now rewrite Z.lor_assoc.
    + unfold len. cbn [List.length]. lia.
Qed.

(** C8.  For every non-negative integer [V] (in particular up to 2^35),
    decoding the base-128 varint encoding of [V], whatever follows it, returns
    [V] with the number [n] of bytes consumed; [n] is the length of the
    encoding, equals ceil(bits(V)/7) raised to at least 1.  The decoder ORs the
    low seven bits of each byte at offsets 0, 7, 14, ... and stops at the first
    byte whose high bit is clear: on a run of bytes with the high bit set
    followed by one without, it returns their [varint_value] and the count. *)
Theorem C8_varint_round_trip (V : Z) (rest : bytes) :
  0 <= V ->
  decode_varint (encode_varint V ++ rest) = Ok (V, len (encode_varint V))
  /\ len (encode_varint V) = Z.max 1 ((bits V + 6) / 7)
  /\ 1 <= len (encode_varint V)
  /\ (forall (cont : bytes) (last : byte) (rest' : bytes),
        forallb high_bit_set cont = true -> high_bit_set last = false ->
        decode_varint (cont ++ last :: rest')
        = Ok (varint_value (cont ++ [last]) 0, len cont + 1)).
Proof.
  intros HV. pose proof (encode_fuel_enough V HV) as Hf.
  assert (Hlen : len (encode_varint V) = Z.max 1 ((bits V + 6) / 7))
    by (apply encode_length; exact Hf).
  repeat split.
  - unfold decode_varint, encode_varint. rewrite decode_encode_loop by (exact Hf || lia).
    rewrite Z.shiftl_0_r. reflexivity.
  - exact Hlen.
  - rewrite Hlen. lia.
  - intros cont last rest' Hc Hl. unfold decode_varint.
    rewrite decode_varint_run by assumption. reflexivity.
Qed.

Lemma C8_varint_round_trip_witness :
  0 <= 2 ^ 35 /\ decode_varint (encode_varint (2 ^ 35) ++ []) = Ok (2 ^ 35, 6).
Proof.
  split; [lia|].
  exact (proj1 (C8_varint_round_trip (2 ^ 35) [] ltac:(lia))).
Defined.

(** ** Lists, slices *)

Lemma len_app {A : Type} (a b : list A) : len (a ++ b) = len a + len b.
Proof. unfold len. rewrite length_app. lia. Qed.

Lemma len_nonneg {A : Type} (a : list A) : 0 <= len a.
Proof. unfold len. lia. Qed.

Lemma len_cons {A : Type} (x : A) (a : list A) : len (x :: a) = 1 + len a.
Proof. unfold len. cbn [List.length]. lia. Qed.

Lemma py_slice_in_range {A : Type} (l : list A) (a b : Z) :
  0 <= a <= b -> b <= len l ->
  py_slice l a b = firstn (Z.to_nat (b - a)) (skipn (Z.to_nat a) l).
Proof.
  intros Ha Hb. unfold py_slice, adjust_index.
  replace (a <? 0) with false by (symmetry; apply Z.ltb_ge; lia).
  replace (b <? 0) with false by (symmetry; apply Z.ltb_ge; lia).
  rewrite !Z.min_l by lia. reflexivity.
Qed.

Lemma py_slice_mid {A : Type} (data pre mid post : list A) (a b : Z) :
  data = pre ++ mid ++ post -> a = len pre -> b = a + len mid ->
  py_slice data a b = mid.
Proof.
  intros -> -> ->.
  pose proof (len_nonneg pre). pose proof (len_nonneg mid). pose proof (len_nonneg post).
  rewrite py_slice_in_range by (rewrite ?len_app; lia).
  unfold len. rewrite Nat2Z.id.
  rewrite skipn_app, skipn_all, Nat.sub_diag. cbn [app skipn].
  replace (Z.to_nat (Z.of_nat (List.length pre) + Z.of_nat (List.length mid)
                     - Z.of_nat (List.length pre))) with (List.length mid) by lia.
  rewrite firstn_app, firstn_all, Nat.sub_diag. cbn [firstn]. apply app_nil_r.
Qed.

(** A slice that runs past the end stops at the end. *)
Lemma py_slice_tail {A : Type} (data pre rest : list A) (a b : Z) :
  data = pre ++ rest -> a = len pre -> len data <= b ->
  py_slice data a b = rest.
Proof.
  intros -> -> Hb.
  pose proof (len_nonneg pre). pose proof (len_nonneg rest).
  unfold py_slice, adjust_index. rewrite len_app in *.
  replace (len pre <? 0) with false by (symmetry; apply Z.ltb_ge; lia).
  replace (b <? 0) with false by (symmetry; apply Z.ltb_ge; lia).
  rewrite (Z.min_l (len pre)) by lia. rewrite (Z.min_r b) by lia.
  unfold len. rewrite Nat2Z.id.
  rewrite skipn_app, skipn_all, Nat.sub_diag. cbn [app skipn].
  apply firstn_all2. lia.
Qed.

Lemma bytes_eqb_eq (a b : bytes) : bytes_eqb a b = true <-> a = b.
Proof.
  revert b. induction a as [|x a IH]; intros [|y b]; simpl; split; intros H;
    try reflexivity; try discriminate.
  - apply andb_true_iff in H as [H1 H2]. apply Strings.Byte.byte_dec_bl in H1.
    apply IH in H2. now subst.
  - injection H as -> ->. apply andb_true_iff. split.
    + now apply Strings.Byte.byte_dec_lb.
    + now apply IH.
Qed.

Lemma bytes_eqb_head (x : byte) (a : bytes) (y : byte) (b : bytes) :
  x <> y -> bytes_eqb (x :: a) (y :: b) = false.
Proof.
  intros Hne. destruct (bytes_eqb (x :: a) (y :: b)) eqn:E; [|reflexivity].
  apply bytes_eqb_eq in E. injection E as E _. contradiction.
Qed.

(** ** Little-endian lengths *)

Lemma unpack_pack (n : Z) : 0 <= n < 2 ^ 32 -> unpack_le32 (pack_le32 n) = Ok n.
Proof.
  intros Hn. unfold pack_le32, unpack_le32. rewrite !ord_chr. f_equal.
  change (2 ^ 32) with 4294967296 in Hn.
  Z.div_mod_to_equations. lia.
Qed.

Lemma unpack_nonneg (data : bytes) (size : Z) : unpack_le32 data = Ok size -> 0 <= size.
Proof.
  destruct data as [|b0 [|b1 [|b2 [|b3 [|b4 data]]]]]; try discriminate.
  intros H.
  assert (E : size = ord b0 + 256 * ord b1 + 65536 * ord b2 + 16777216 * ord b3)
    by (unfold unpack_le32 in H; congruence).
  pose proof (ord_range b0). pose proof (ord_range b1).
  pose proof (ord_range b2). pose proof (ord_range b3). lia.
Qed.

Lemma unpack_four (data : bytes) (size : Z) :
  unpack_le32 data = Ok size -> len data = 4.
Proof.
  destruct data as [|b0 [|b1 [|b2 [|b3 [|b4 data]]]]]; try discriminate. reflexivity.
Qed.

Lemma len_frame (p : bytes) : len (frame p) = 8 + len p.
Proof.
  unfold len, frame. rewrite !length_app.
  cbn [List.length pack_le32 BITCOIN_CONSTANT]. lia.
Qed.

(** ** The scanning loop *)

Lemma get_blocks_loop_S (fuel : nat) (raw_data : bytes) (offset : Z) :
  get_blocks_loop (S fuel) raw_data offset =
  if offset <? len raw_data - 4 then
    if bytes_eqb (py_slice raw_data offset (offset + 4)) BITCOIN_CONSTANT then
      match unpack_le32 (py_slice raw_data (offset + 4) (offset + 4 + 4)) with
      | Err e => Some ([], Raised e)
      | Ok size =>
          match get_blocks_loop fuel raw_data (offset + 4 + (4 + size)) with
          | Some (rest, e) =>
              Some (py_slice raw_data (offset + 4 + (4 + size) - size)
                      (offset + 4 + (4 + size)) :: rest, e)
          | None => None
          end
      end
    else get_blocks_loop fuel raw_data (offset + 1)
  else Some ([], Done).
Proof. reflexivity. Qed.

Lemma get_blocks_loop_end (fuel : nat) (raw_data : bytes) (offset : Z) :
  len raw_data - 4 <= offset -> get_blocks_loop fuel raw_data offset = Some ([], Done).
Proof.
  intros H. destruct fuel; simpl;
    replace (offset <? len raw_data - 4) with false by (symmetry; apply Z.ltb_ge; lia);
    reflexivity.
Qed.

(** The bound on iterations is never reached when it is at least the number
    of bytes ahead. *)
Lemma get_blocks_loop_fuel (fuel : nat) :
  forall (raw_data : bytes) (offset : Z),
    len raw_data - 4 - offset <= Z.of_nat fuel ->
    get_blocks_loop fuel raw_data offset <> None.
Proof.
  induction fuel as [|fuel IH]; intros raw_data offset Hf.
  - rewrite get_blocks_loop_end by lia. discriminate.
  - rewrite get_blocks_loop_S.
    destruct (offset <? len raw_data - 4) eqn:Hc; [|discriminate].
    destruct (bytes_eqb _ _).
    + destruct (unpack_le32 _) as [size|e] eqn:Hu; [|discriminate].
      apply unpack_nonneg in Hu.
      specialize (IH raw_data (offset + 4 + (4 + size)) ltac:(lia)).
      destruct (get_blocks_loop fuel raw_data (offset + 4 + (4 + size))) as [[rest e]|];
        [discriminate | contradiction].
    + apply IH. lia.
Qed.

Lemma scan_frame (fuel : nat) (data pre p post : bytes) :
  data = pre ++ frame p ++ post -> len p < 2 ^ 32 ->
  get_blocks_loop (S fuel) data (len pre) =
  match get_blocks_loop fuel data (len pre + 8 + len p) with
  | Some (ys, e) => Some (p :: ys, e)
  | None => None
  end.
Proof.
  intros Hd Hp. pose proof (len_nonneg p) as Hp0. pose proof (len_nonneg pre).
  pose proof (len_nonneg post).
  rewrite get_blocks_loop_S.
  assert (Hlen : len data = len pre + (8 + len p) + len post)
    by (rewrite Hd, !len_app, len_frame; lia).
  replace (len pre <? len data - 4) with true by (symmetry; apply Z.ltb_lt; lia).
  rewrite (py_slice_mid data pre BITCOIN_CONSTANT (pack_le32 (len p) ++ p ++ post))
    by (first [ reflexivity | rewrite Hd; unfold frame; now rewrite <- ?app_assoc ]).
  replace (bytes_eqb BITCOIN_CONSTANT BITCOIN_CONSTANT) with true by reflexivity.
  rewrite (py_slice_mid data (pre ++ BITCOIN_CONSTANT) (pack_le32 (len p)) (p ++ post))
    by (first [ reflexivity | rewrite len_app; reflexivity
              | rewrite Hd; unfold frame; now rewrite <- ?app_assoc ]).
  rewrite unpack_pack by lia.
  replace (len pre + 4 + (4 + len p)) with (len pre + 8 + len p) by lia.
  destruct (get_blocks_loop fuel data (len pre + 8 + len p)) as [[ys e]|]; [|reflexivity].
  rewrite (py_slice_mid data (pre ++ BITCOIN_CONSTANT ++ pack_le32 (len p)) p post).
  - reflexivity.
  - rewrite Hd. unfold frame. now rewrite <- !app_assoc.
  - rewrite !len_app. change (len BITCOIN_CONSTANT) with 4.
    change (len (pack_le32 (len p))) with 4. lia.
  - lia.
Qed.

Lemma scan_other_byte (fuel : nat) (data pre : bytes) (b : byte) (rest : bytes) :
  data = pre ++ b :: rest -> b <> xf9 -> len pre < len data - 4 ->
  get_blocks_loop (S fuel) data (len pre) = get_blocks_loop fuel data (len pre + 1).
Proof.
  intros Hd Hb Hc. rewrite get_blocks_loop_S.
  replace (len pre <? len data - 4) with true by (symmetry; apply Z.ltb_lt; lia).
  assert (Hs : exists tl, py_slice data (len pre) (len pre + 4) = b :: tl).
  { pose proof (len_nonneg pre). pose proof (len_nonneg rest).
    rewrite py_slice_in_range by lia.
    replace (Z.to_nat (len pre + 4 - len pre)) with 4%nat by lia.
    replace (Z.to_nat (len pre)) with (List.length pre) by (unfold len; lia).
    rewrite Hd, skipn_app, skipn_all, Nat.sub_diag.
    cbn [app skipn firstn]. eauto. }
  destruct Hs as [tl ->]. unfold BITCOIN_CONSTANT.
  now rewrite bytes_eqb_head.
Qed.

Lemma scan_pad (pad : bytes) :
  forall (fuel : nat) (data pre p post : bytes),
    data = pre ++ pad ++ frame p ++ post -> no_marker_start pad ->
    get_blocks_loop (List.length pad + fuel) data (len pre)
    = get_blocks_loop fuel data (len pre + len pad).
Proof.
  induction pad as [|b pad IH]; intros fuel data pre p post Hd Hpad.
  - cbn [List.length Nat.add]. f_equal. unfold len at 3. simpl. lia.
  - unfold no_marker_start in Hpad. apply Forall_cons_iff in Hpad as [Hb Hpad'].
    cbn [List.length Nat.add].
    rewrite (scan_other_byte _ data pre b (pad ++ frame p ++ post)); try assumption.
    + replace (len pre + 1) with (len (pre ++ [b]))
        by (rewrite len_app; reflexivity).
      rewrite (IH fuel data (pre ++ [b]) p post); try assumption.
      * f_equal. rewrite !len_app, !len_cons. change (len (@nil byte)) with 0. lia.
      * rewrite Hd. now rewrite <- app_assoc.
    + rewrite Hd, !len_app, len_cons, len_frame.
      pose proof (len_nonneg pad). pose proof (len_nonneg p). pose proof (len_nonneg post).
      lia.
Qed.

Lemma skip_trailer (trailer : bytes) :
  forall (fuel : nat) (data pre : bytes),
    data = pre ++ trailer -> no_marker_start trailer ->
    (List.length trailer <= fuel)%nat ->
    get_blocks_loop fuel data (len pre) = Some ([], Done).
Proof.
  induction trailer as [|b trailer IH]; intros fuel data pre Hd Ht Hf.
  - apply get_blocks_loop_end. rewrite Hd, app_nil_r. lia.
  - destruct (Z.le_gt_cases (len data - 4) (len pre)) as [Hend | Hc].
    + now apply get_blocks_loop_end.
    + unfold no_marker_start in Ht. apply Forall_cons_iff in Ht as [Hb Ht'].
      destruct fuel as [|fuel]; [simpl in Hf; lia|].
      rewrite (scan_other_byte _ data pre b trailer); try assumption; try lia.
      replace (len pre + 1) with (len (pre ++ [b])) by (rewrite len_app; reflexivity).
      apply IH; try assumption.
      * rewrite Hd. now rewrite <- app_assoc.
      * simpl in Hf. lia.
Qed.

Lemma scan_records (records : list (bytes * bytes)) :
  forall (fuel : nat) (data pre post : bytes),
    data = pre ++ padded_file records ++ post ->
    Forall well_formed_record records ->
    get_blocks_loop (scan_steps records + fuel) data (len pre) =
    match get_blocks_loop fuel data (len pre + len (padded_file records)) with
    | Some (ys, e) => Some (map snd records ++ ys, e)
    | None => None
    end.
Proof.
  induction records as [|[pad p] records IH]; intros fuel data pre post Hd Hwf.
  - change (scan_steps [] + fuel)%nat with fuel.
    change (len (padded_file [])) with 0. rewrite Z.add_0_r.
    change (map snd []) with (@nil bytes). cbn [app].
    destruct (get_blocks_loop fuel data (len pre)) as [[ys e]|]; reflexivity.
  - apply Forall_cons_iff in Hwf as [[Hpad Hp] Hwf']. cbn [fst snd] in Hpad, Hp.
    assert (Hd' : data = pre ++ pad ++ frame p ++ (padded_file records ++ post)).
    { rewrite Hd. unfold padded_file. cbn [map List.concat fst snd].
      now rewrite <- !app_assoc. }
    replace (scan_steps ((pad, p) :: records) + fuel)%nat
      with (List.length pad + S (scan_steps records + fuel))%nat
      by (unfold scan_steps; simpl; lia).
    rewrite (scan_pad pad _ data pre p (padded_file records ++ post) Hd' Hpad).
    replace (len pre + len pad) with (len (pre ++ pad)) by apply len_app.
    rewrite (scan_frame _ data (pre ++ pad) p (padded_file records ++ post));
      [| rewrite Hd'; now rewrite <- !app_assoc | exact Hp].
    replace (len (pre ++ pad) + 8 + len p) with (len (pre ++ pad ++ frame p))
      by (rewrite !len_app, len_frame; lia).
    rewrite (IH fuel data (pre ++ pad ++ frame p) post);
      [| rewrite Hd'; now rewrite <- !app_assoc | exact Hwf'].
    replace (len (pre ++ pad ++ frame p) + len (padded_file records))
      with (len pre + len (padded_file ((pad, p) :: records))).
    + destruct (get_blocks_loop fuel data _) as [[ys e]|]; reflexivity.
    + unfold padded_file. cbn [map List.concat fst snd]. rewrite !len_app. lia.
Qed.

Lemma scan_steps_le (records : list (bytes * bytes)) :
  (scan_steps records <= List.length (padded_file records))%nat.
Proof.
  induction records as [|[pad p] records IH]; [apply Nat.le_refl|].
  change (padded_file ((pad, p) :: records))
    with ((pad ++ frame p) ++ padded_file records).
  change (scan_steps ((pad, p) :: records))
    with (S (List.length pad) + scan_steps records)%nat.
  unfold frame. rewrite !length_app.
  cbn [List.length BITCOIN_CONSTANT]. lia.
Qed.

Lemma padded_file_unpadded (payloads : list bytes) :
  padded_file (map (fun p => ([], p)) payloads) = List.concat (map frame payloads).
Proof.
  unfold padded_file. rewrite map_map. reflexivity.
Qed.

Lemma len_py_slice {A : Type} (l : list A) (a b : Z) :
  0 <= a <= b -> len (py_slice l a b) = Z.min b (len l) - Z.min a (len l).
Proof.
  intros Hab. pose proof (len_nonneg l) as Hl.
  unfold py_slice, adjust_index.
  replace (a <? 0) with false by (symmetry; apply Z.ltb_ge; lia).
  replace (b <? 0) with false by (symmetry; apply Z.ltb_ge; lia).
  unfold len in *. rewrite length_firstn, length_skipn. lia.
Qed.

Lemma py_slice_to_end {A : Type} (l : list A) (a b : Z) :
  0 <= a <= len l -> len l <= b -> py_slice l a b = skipn (Z.to_nat a) l.
Proof.
  intros Ha Hb. unfold py_slice, adjust_index.
  replace (a <? 0) with false by (symmetry; apply Z.ltb_ge; lia).
  replace (b <? 0) with false by (symmetry; apply Z.ltb_ge; lia).
  rewrite (Z.min_l a) by lia. rewrite (Z.min_r b) by lia.
  apply firstn_all2. rewrite length_skipn. unfold len. lia.
Qed.

Lemma scan_truncated (data : bytes) (offset size : Z) (fuel : nat) :
  0 <= offset ->
  py_slice data offset (offset + 4) = BITCOIN_CONSTANT ->
  unpack_le32 (py_slice data (offset + 4) (offset + 8)) = Ok size ->
  len data - (offset + 8) < size ->
  get_blocks_loop (S fuel) data offset
  = Some ([skipn (Z.to_nat (offset + 8)) data], Done).
Proof.
  intros Ho Hm Hu Hs.
  pose proof (unpack_four _ _ Hu) as H4. rewrite len_py_slice in H4 by lia.
  pose proof (unpack_nonneg _ _ Hu) as Hsz.
  assert (Hlen : offset + 8 <= len data) by lia.
  rewrite get_blocks_loop_S.
  replace (offset <? len data - 4) with true by (symmetry; apply Z.ltb_lt; lia).
  rewrite Hm. replace (bytes_eqb BITCOIN_CONSTANT BITCOIN_CONSTANT) with true by reflexivity.
  replace (offset + 4 + 4) with (offset + 8) by lia. rewrite Hu.
  rewrite get_blocks_loop_end by lia.
  rewrite py_slice_to_end by lia.
  do 4 f_equal. lia.
Qed.

Lemma get_blocks_nonempty (contents : bytes) :
  contents <> [] ->
  get_blocks contents = get_blocks_loop (List.length contents) contents 0.
Proof. destruct contents; [contradiction | reflexivity]. Qed.

(** [get_blocks] always produces a result. *)
Lemma get_blocks_total (contents : bytes) : get_blocks contents <> None.
Proof.
  destruct contents as [|b contents]; [discriminate|].
  apply get_blocks_loop_fuel. unfold len. lia.
Qed.

Lemma scan_padded_file (records : list (bytes * bytes)) (trailer : bytes) :
  Forall well_formed_record records -> no_marker_start trailer ->
  padded_file records ++ trailer <> [] ->
  get_blocks (padded_file records ++ trailer) = Some (map snd records, Done).
Proof.
  intros Hwf Ht Hne. rewrite get_blocks_nonempty by exact Hne.
  pose proof (scan_steps_le records) as Hsteps.
  set (data := padded_file records ++ trailer) in *.
  assert (Hf : List.length data
               = (scan_steps records + (List.length data - scan_steps records))%nat).
  { subst data. rewrite length_app. lia. }
  rewrite Hf.
  rewrite (scan_records records _ data [] trailer); [| reflexivity | exact Hwf].
  change (len (@nil byte)) with 0. rewrite Z.add_0_l.
  rewrite (skip_trailer trailer _ data (padded_file records)); try assumption.
  - now rewrite app_nil_r.
  - reflexivity.
  - subst data. rewrite length_app. lia.
Qed.

(** C6.  A block file made of N records, each preceded by the marker
    F9 BE B4 D9 and its little-endian length, yields exactly the N payloads,
    byte for byte and in file order; the scan ends normally after the last
    record (for N = 0 the file is empty, nothing is yielded and [mmap] raises).
    More generally the scan steps over padding one byte at a time: with
    padding that holds no marker start before each record and after the last,
    the same payloads are yielded. *)
Theorem C6_linear_scan_yields_records (payloads : list bytes) :
  Forall (fun p => len p < 2 ^ 32) payloads ->
  get_blocks (List.concat (map frame payloads))
  = Some (payloads, match payloads with [] => Raised ValueError | _ => Done end)
  /\ (forall (records : list (bytes * bytes)) (trailer : bytes),
         Forall well_formed_record records -> no_marker_start trailer ->
         padded_file records ++ trailer <> [] ->
         get_blocks (padded_file records ++ trailer) = Some (map snd records, Done)).
Proof.
  intros Hp. split; [| apply scan_padded_file].
  destruct payloads as [|p payloads]; [reflexivity|].
  rewrite <- padded_file_unpadded.
  rewrite <- (app_nil_r (padded_file _)).
  rewrite scan_padded_file.
  - rewrite map_map. cbn [snd]. now rewrite map_id.
  - apply Forall_map. revert Hp. apply Forall_impl. intros q Hq. split; [constructor | exact Hq].
  - constructor.
  - cbn [map padded_file List.concat fst snd frame BITCOIN_CONSTANT app]. discriminate.
Qed.

Lemma C6_linear_scan_yields_records_witness :
  Forall (fun p => len p < 2 ^ 32) [[x01; x02]; []; [xf9]]
  /\ get_blocks (List.concat (map frame [[x01; x02]; []; [xf9]]))
     = Some ([[x01; x02]; []; [xf9]], Done).
Proof.
  assert (H : Forall (fun p => len p < 2 ^ 32) [[x01; x02]; []; [xf9]])
    by (repeat constructor).
  split; [exact H|].
  exact (proj1 (C6_linear_scan_yields_records _ H)).
Defined.

(** C10.  When the length read after a marker exceeds the bytes that remain
    after the length field, the scan yields those remaining bytes (fewer than
    the declared length, possibly none) as one record and ends normally,
    without an exception; so a file of well-formed records followed by such a
    truncated record yields the payloads and then the truncated rest. *)
Theorem C10_truncated_final_record (data : bytes) (offset size : Z) (fuel : nat) :
  0 <= offset ->
  py_slice data offset (offset + 4) = BITCOIN_CONSTANT ->
  unpack_le32 (py_slice data (offset + 4) (offset + 8)) = Ok size ->
  len data - (offset + 8) < size ->
  get_blocks_loop (S fuel) data offset
  = Some ([skipn (Z.to_nat (offset + 8)) data], Done)
  /\ len (skipn (Z.to_nat (offset + 8)) data) < size
  /\ (forall (records : list (bytes * bytes)) (rest : bytes),
         Forall well_formed_record records -> len rest < size ->
         get_blocks (padded_file records ++ BITCOIN_CONSTANT ++ pack_le32 size ++ rest)
         = Some (map snd records ++ [rest], Done)).
Proof.
  intros Ho Hm Hu Hs.
  pose proof (unpack_four _ _ Hu) as H4. rewrite len_py_slice in H4 by lia.
  pose proof (unpack_nonneg _ _ Hu) as Hsz.
  assert (Hsize : size < 2 ^ 32).
  { clear - Hu. destruct (py_slice data (offset + 4) (offset + 8))
      as [|b0 [|b1 [|b2 [|b3 [|b4 l]]]]]; try discriminate.
    assert (E : size = ord b0 + 256 * ord b1 + 65536 * ord b2 + 16777216 * ord b3)
      by (unfold unpack_le32 in Hu; congruence).
    pose proof (ord_range b0). pose proof (ord_range b1).
    pose proof (ord_range b2). pose proof (ord_range b3).
    change (2 ^ 32) with 4294967296. lia. }
  split; [apply (scan_truncated data offset size); assumption|]. split.
  { unfold len in *. rewrite length_skipn. lia. }
  intros records rest Hwf Hrest.
  set (tail := BITCOIN_CONSTANT ++ pack_le32 size ++ rest).
  set (contents := padded_file records ++ tail).
  assert (Hne : contents <> []).
  { subst contents tail. intros E. apply (f_equal (@List.length byte)) in E.
    rewrite !length_app in E. cbn [List.length BITCOIN_CONSTANT] in E. lia. }
  rewrite get_blocks_nonempty by exact Hne.
  pose proof (scan_steps_le records) as Hsteps.
  assert (Hf : List.length contents
               = (scan_steps records
                  + S (List.length contents - scan_steps records - 1))%nat).
  { subst contents tail. rewrite !length_app. cbn [List.length BITCOIN_CONSTANT]. lia. }
  rewrite Hf.
  rewrite (scan_records records _ contents [] tail); [| reflexivity | exact Hwf].
  change (len (@nil byte)) with 0. rewrite Z.add_0_l.
  pose proof (len_nonneg (padded_file records)) as Hpf. pose proof (len_nonneg rest).
  rewrite (scan_truncated contents (len (padded_file records)) size).
  - f_equal. f_equal. f_equal. f_equal.
    replace (Z.to_nat (len (padded_file records) + 8))
      with (List.length (padded_file records ++ BITCOIN_CONSTANT ++ pack_le32 size))
      by (rewrite !length_app; cbn [List.length BITCOIN_CONSTANT pack_le32];
          unfold len; lia).
    subst contents tail.
    replace (padded_file records ++ BITCOIN_CONSTANT ++ pack_le32 size ++ rest)
      with ((padded_file records ++ BITCOIN_CONSTANT ++ pack_le32 size) ++ rest)
      by (now rewrite <- !app_assoc).
    rewrite skipn_app, skipn_all, Nat.sub_diag. reflexivity.
  - exact Hpf.
  - apply (py_slice_mid contents (padded_file records) BITCOIN_CONSTANT
             (pack_le32 size ++ rest)); reflexivity.
  - rewrite (py_slice_mid contents (padded_file records ++ BITCOIN_CONSTANT)
               (pack_le32 size) rest).
    + apply unpack_pack. lia.
    + subst contents tail. now rewrite <- !app_assoc.
    + rewrite len_app. reflexivity.
    + change (len (pack_le32 size)) with 4. lia.
  - subst contents tail. rewrite !len_app. change (len BITCOIN_CONSTANT) with 4.
    change (len (pack_le32 size)) with 4. lia.
Qed.

Lemma C10_truncated_final_record_witness :
  0 <= 0
  /\ py_slice truncated_file 0 (0 + 4) = BITCOIN_CONSTANT
  /\ unpack_le32 (py_slice truncated_file (0 + 4) (0 + 8)) = Ok 5
  /\ len truncated_file - (0 + 8) < 5
  /\ get_blocks_loop 1 truncated_file 0 = Some ([[x01; x02]], Done).
Proof.
  assert (H1 : 0 <= 0) by lia.
  assert (H2 : py_slice truncated_file 0 (0 + 4) = BITCOIN_CONSTANT) by reflexivity.
  assert (H3 : unpack_le32 (py_slice truncated_file (0 + 4) (0 + 8)) = Ok 5)
    by reflexivity.
  assert (H4 : len truncated_file - (0 + 8) < 5) by (vm_compute; reflexivity).
  exact (conj H1 (conj H2 (conj H3 (conj H4
           (proj1 (C10_truncated_final_record truncated_file 0 5 0 H1 H2 H3 H4)))))).
Defined.

(** ** Sub-lists *)

Lemma Forall_firstn_of {A : Type} (P : A -> Prop) (n : nat) (l : list A) :
  Forall P l -> Forall P (firstn n l).
Proof.
  intros H. rewrite <- (firstn_skipn n l) in H. now apply Forall_app in H.
Qed.

Lemma Forall_skipn_of {A : Type} (P : A -> Prop) (n : nat) (l : list A) :
  Forall P l -> Forall P (skipn n l).
Proof.
  intros H. rewrite <- (firstn_skipn n l) in H. now apply Forall_app in H.
Qed.

Lemma ascending_app (a b : list Z) : ascending (a ++ b) -> ascending a /\ ascending b.
Proof.
  intros H. split; intros i j x y Hij Hi Hj.
  - apply (H i j); try assumption.
    + rewrite nth_error_app1; [assumption | apply nth_error_Some; congruence].
    + rewrite nth_error_app1; [assumption | apply nth_error_Some; congruence].
  - apply (H (List.length a + i)%nat (List.length a + j)%nat); try lia.
    + rewrite nth_error_app2 by lia.
      now replace (List.length a + i - List.length a)%nat with i by lia.
    + rewrite nth_error_app2 by lia.
      now replace (List.length a + j - List.length a)%nat with j by lia.
Qed.

Lemma ascending_window (hs : list Z) (m n : nat) :
  ascending hs -> ascending (firstn n (skipn m hs)).
Proof.
  intros H. rewrite <- (firstn_skipn m hs) in H. apply ascending_app in H as [_ H].
  rewrite <- (firstn_skipn n (skipn m hs)) in H. now apply ascending_app in H.
Qed.

Lemma ascending_rev (hs : list Z) : ascending hs -> descending (rev hs).
Proof.
  intros H i j x y Hij Hi Hj.
  rewrite nth_error_rev in Hi, Hj.
  destruct (Nat.ltb_spec i (List.length hs)); [|discriminate].
  destruct (Nat.ltb_spec j (List.length hs)); [|discriminate].
  apply (H (List.length hs - S j)%nat (List.length hs - S i)%nat); try assumption. lia.
Qed.

(** The reversed window of lines 232 to 235 is the window between [end] and
    [start], read backwards. *)
Lemma reversed_slice {A : Type} (l : list A) (start end_ : Z) :
  0 <= end_ < start -> start <= len l ->
  py_slice (rev l) (len (rev l) - start) (len (rev l) - end_)
  = rev (firstn (Z.to_nat (start - end_)) (skipn (Z.to_nat end_) l)).
Proof.
  intros He Hs.
  assert (Hr : len (rev l) = len l) by (unfold len; now rewrite length_rev).
  rewrite py_slice_in_range by lia. rewrite Hr.
  replace (Z.to_nat (len l - end_ - (len l - start))) with (Z.to_nat (start - end_)) by lia.
  rewrite skipn_rev.
  replace (List.length l - Z.to_nat (len l - start))%nat with (Z.to_nat start)
    by (unfold len in *; lia).
  rewrite firstn_rev. f_equal.
  rewrite length_firstn.
  replace (Nat.min (Z.to_nat start) (List.length l) - Z.to_nat (start - end_))%nat
    with (Z.to_nat end_) by (unfold len in *; lia).
  rewrite skipn_firstn_comm. f_equal. lia.
Qed.

(** ** Ordered iteration and height lookup *)

Lemma ordered_loop_fetchable (files : block_files) (entries : list DBBlockIndex) :
  Forall (fetchable files) entries ->
  exists ys,
    ordered_loop files entries = (ys, Done)
    /\ Forall2 (fun e b => Block_at files e = Ok b) entries ys
    /\ map blk_height ys = map (fun e => Some (height e)) entries.
Proof.
  induction entries as [|e entries IH]; intros H.
  - exists []. repeat split. constructor.
  - apply Forall_cons_iff in H as [[Hdisk [b Hb]] H]. destruct (IH H) as (ys & Hys & HF & Hh).
    exists (b :: ys). cbn [ordered_loop]. rewrite Hdisk, Hb, Hys. repeat split.
    + now constructor.
    + cbn [map]. f_equal; [|exact Hh].
      unfold Block_at in Hb. destruct (get_block files (file e) (data_pos e)); [|discriminate].
      simpl in Hb. injection Hb as <-. reflexivity.
Qed.


Lemma get_block_errors (files : block_files) (f o : Z) (x : exn) :
  get_block files f o = Err x ->
  x = FileNotFoundError \/ x = ValueError \/ x = OSError \/ x = StructError.
Proof.
  unfold get_block. cbv zeta. destruct (files f) as [contents|]; [|intros [= <-]; auto].
  destruct (o - 4 <? - 2 ^ 63); [intros [= <-]; auto|].
  destruct (o - 4 <? 0); [intros [= <-]; auto|].
  destruct ((len contents <? o - 4) && (2 ^ 63 <=? o - 4)); [intros [= <-]; auto|].
  destruct ((len contents <? o - 4) && (max_offset files <? o - 4)); [intros [= <-]; auto|].
  destruct (firstn 4 (skipn (Z.to_nat (o - 4)) contents))
    as [|b0 [|b1 [|b2 [|b3 [|b4 l]]]]]; cbn; intros [= <-]; auto.
Qed.



Lemma ordered_window_ascending (idx : list DBBlockIndex) (start end_ : Z) :
  0 <= start <= end_ -> end_ <= len idx ->
  ordered_window idx start (Some end_)
  = firstn (Z.to_nat (end_ - start)) (skipn (Z.to_nat start) idx).
Proof.
  intros Hs He. unfold ordered_window.
  replace (end_ <? start) with false by (symmetry; apply Z.ltb_ge; lia).
  apply py_slice_in_range; lia.
Qed.

Lemma ordered_window_reversed (idx : list DBBlockIndex) (start end_ : Z) :
  end_ < start ->
  ordered_window idx start (Some end_)
  = py_slice (rev idx) (len idx - start) (len idx - end_).
Proof.
  intros He. unfold ordered_window.
  replace (end_ <? start) with true by (symmetry; apply Z.ltb_lt; lia).
  replace (len (rev idx)) with (len idx) by (unfold len; now rewrite length_rev).
  reflexivity.
Qed.

(** C5.  Ordered iteration over an index of length L whose blocks are all on
    disk: an omitted end is L; for 0 <= start <= end <= L the blocks of the
    entries at positions start, ..., end-1 are yielded in that order, heights
    ascending when the index is sorted; for 0 <= end < start <= L the window is
    the slice of the reversed index between L - start and L - end, that is the
    entries at positions start-1, ..., end, and heights descend. *)
Theorem C5_ordered_iteration_window
  (self : Blockchain) (idx : list DBBlockIndex) (start end_ : Z) :
  blockIndexes self = Some idx ->
  Forall (fetchable (path self)) idx ->
  get_ordered_blocks self start None = get_ordered_blocks self start (Some (len idx))
  /\ (0 <= start <= end_ -> end_ <= len idx ->
      exists ys,
        let window := firstn (Z.to_nat (end_ - start)) (skipn (Z.to_nat start) idx) in
        get_ordered_blocks self start (Some end_) = (ys, Done)
        /\ Forall2 (fun e b => Block_at (path self) e = Ok b) window ys
        /\ map blk_height ys = map (fun e => Some (height e)) window
        /\ (ascending (map height idx) -> ascending (map height window)))
  /\ (0 <= end_ < start -> start <= len idx ->
      exists ys,
        let window := py_slice (rev idx) (len idx - start) (len idx - end_) in
        get_ordered_blocks self start (Some end_) = (ys, Done)
        /\ window = rev (firstn (Z.to_nat (start - end_)) (skipn (Z.to_nat end_) idx))
        /\ Forall2 (fun e b => Block_at (path self) e = Ok b) window ys
        /\ map blk_height ys = map (fun e => Some (height e)) window
        /\ (ascending (map height idx) -> descending (map height window))).
Proof.
  intros Hidx Hfetch. unfold get_ordered_blocks. rewrite Hidx. split; [reflexivity|]. split.
  - intros Hs He. rewrite ordered_window_ascending by assumption.
    destruct (ordered_loop_fetchable (path self)
                (firstn (Z.to_nat (end_ - start)) (skipn (Z.to_nat start) idx)))
      as (ys & Hys & HF & Hh).
    { now apply Forall_firstn_of, Forall_skipn_of. }
    exists ys. cbn zeta. repeat split; try assumption.
    intros Hasc. rewrite <- firstn_map, <- skipn_map. now apply ascending_window.
  - intros He Hs. rewrite ordered_window_reversed by lia.
    assert (Hw : py_slice (rev idx) (len idx - start) (len idx - end_)
                 = rev (firstn (Z.to_nat (start - end_)) (skipn (Z.to_nat end_) idx))).
    { rewrite <- reversed_slice by assumption.
      replace (len (rev idx)) with (len idx) by (unfold len; now rewrite length_rev).
      reflexivity. }
    destruct (ordered_loop_fetchable (path self)
                (py_slice (rev idx) (len idx - start) (len idx - end_)))
      as (ys & Hys & HF & Hh).
    { rewrite Hw. now apply Forall_rev, Forall_firstn_of, Forall_skipn_of. }
    exists ys. cbn zeta. repeat split; try assumption.
    intros Hasc. rewrite Hw, map_rev. apply ascending_rev.
    rewrite <- firstn_map, <- skipn_map. now apply ascending_window.
Qed.

(** ** The scanning wrapper *)

Lemma filter_loop_spec (flt : Block -> bool) (todo : list Block) :
  forall (n : Z) (e : ending) (selected : list (option Z)),
    fst (fst (filter_loop flt n todo e selected)) = (filter flt todo, e)
    /\ snd (filter_loop flt n todo e selected)
       = selected ++ map blk_height (filter flt todo).
Proof.
  induction todo as [|block todo IH]; intros n e selected.
  - cbn. now rewrite app_nil_r.
  - cbn [filter_loop filter]. destruct (flt block).
    + destruct (IH (n + 1) e (selected ++ [blk_height block])) as [H1 H2].
      destruct (filter_loop flt (n + 1) todo e (selected ++ [blk_height block]))
        as [[[ys e'] tr] sel].
      cbn [fst snd] in *. injection H1 as -> ->. subst sel. split; [reflexivity|].
      cbn [map]. now rewrite <- app_assoc.
    + destruct (IH (n + 1) e selected) as [H1 H2].
      destruct (filter_loop flt (n + 1) todo e selected) as [[[ys e'] tr] sel].
      cbn [fst snd] in *. injection H1 as -> ->. subst sel. split; reflexivity.
Qed.

Lemma filter_blocks_spec (flt : Block -> bool) (self : Scanner) :
  exists tr,
    filter_blocks flt self
    = ((filter flt (fst (blocks self)), snd (blocks self)), tr,
       mkScanner (blockchain self) ([], Done)
         (Some (map blk_height (filter flt (fst (blocks self)))))).
Proof.
  unfold filter_blocks.
  destruct (filter_loop_spec flt (fst (blocks self)) 0 (snd (blocks self)) []) as [H1 H2].
  destruct (filter_loop flt 0 (fst (blocks self)) (snd (blocks self)) [])
    as [[out tr] sel].
  cbn [fst snd] in *. subst out sel. exists tr. reflexivity.
Qed.

Lemma replay_loop_replayable (bc : Blockchain) (ys : list Block) :
  Forall (replayable bc) ys -> replay_loop bc (map blk_height ys) = (ys, Done).
Proof.
  induction ys as [|b ys IH]; intros H; [reflexivity|].
  apply Forall_cons_iff in H as [(h & Hh & Hb) H].
  cbn [map replay_loop]. rewrite Hh, Hb, (IH H). reflexivity.
Qed.

Lemma Forall_filter_of {A : Type} (P : A -> Prop) (f : A -> bool) (l : list A) :
  Forall P l -> Forall P (filter f l).
Proof.
  rewrite !Forall_forall. intros H x Hx. apply filter_In in Hx as [Hx _]. now apply H.
Qed.

Lemma ordered_loop_origin (files : block_files) (entries : list DBBlockIndex) :
  forall ys e,
    ordered_loop files entries = (ys, e) ->
    Forall (fun b => exists ent, In ent entries /\ not_on_disk ent = false
                                 /\ Block_at files ent = Ok b) ys.
Proof.
  induction entries as [|ent entries IH]; intros ys e H.
  - cbn in H. injection H as <- _. constructor.
  - cbn [ordered_loop] in H. destruct (not_on_disk ent) eqn:Hd.
    + injection H as <- _. constructor.
    + destruct (Block_at files ent) as [b|x] eqn:Hb.
      * destruct (ordered_loop files entries) as [rest e'] eqn:Hrest.
        injection H as <- _. constructor.
        -- exists ent. repeat split; try assumption. now left.
        -- specialize (IH rest e' eq_refl). revert IH. apply Forall_impl.
           intros b' (ent' & Hin & H1 & H2). exists ent'. repeat split; try assumption.
           now right.
      * injection H as <- _. constructor.
Qed.

Lemma py_slice_all {A : Type} (l : list A) : py_slice l 0 (len l) = l.
Proof.
  pose proof (len_nonneg l). rewrite py_slice_in_range by lia.
  cbn [Z.to_nat skipn]. apply firstn_all2. unfold len. lia.
Qed.

Lemma dense_replayable (bc : Blockchain) (idx : list DBBlockIndex) :
  blockIndexes bc = Some idx -> dense idx ->
  Forall (replayable bc) (fst (get_ordered_blocks bc 0 None)).
Proof.
  intros Hidx Hdense. unfold get_ordered_blocks. rewrite Hidx.
  unfold ordered_window.
  pose proof (len_nonneg idx).
  replace (len idx <? 0) with false by (symmetry; apply Z.ltb_ge; lia).
  rewrite py_slice_all.
  destruct (ordered_loop (path bc) idx) as [ys e] eqn:Hloop. cbn [fst].
  apply ordered_loop_origin in Hloop. revert Hloop. apply Forall_impl.
  intros b (ent & Hin & Hd & Hb).
  apply In_nth_error in Hin as [i Hi].
  pose proof (Hdense i ent Hi) as Hh.
  assert (Hlt : (i < List.length idx)%nat) by (apply nth_error_Some; congruence).
  exists (height ent). split.
  - unfold Block_at in Hb. destruct (get_block _ _ _); [|discriminate].
    simpl in Hb. injection Hb as <-. reflexivity.
  - unfold get_block_by_height. rewrite Hidx. unfold py_index. rewrite Hh.
    replace (Z.of_nat i <? 0) with false by (symmetry; apply Z.ltb_ge; lia).
    replace ((Z.of_nat i <? 0) || (len idx <=? Z.of_nat i)) with false
      by (symmetry; apply orb_false_iff; split; [apply Z.ltb_ge | apply Z.leb_gt];
          unfold len; lia).
    rewrite Nat2Z.id, Hi. cbn [bind]. now rewrite Hd.
Qed.

(** C4, for dense indexes.  On a wrapper whose index is dense (every entry
    sits at the position its height names), a filter pass with [p] consumed to
    its end, whether the generator ends normally or with an exception of a
    block fetch, followed by a block iteration with any predicate [q], yields
    the same blocks again and ends normally; the second iteration calls no
    predicate and logs nothing (its event list is empty), and leaves the
    wrapper as it was. *)
Theorem C4_replay_on_dense_index
  (bc : Blockchain) (idx : list DBBlockIndex) (p q : Block -> bool) :
  blockIndexes bc = Some idx ->
  dense idx ->
  iterate_blocks q (snd (filter_blocks p (Scanner_init bc)))
  = ((fst (fst (fst (filter_blocks p (Scanner_init bc)))), Done), [],
     snd (filter_blocks p (Scanner_init bc))).
Proof.
  intros Hidx Hdense.
  destruct (filter_blocks_spec p (Scanner_init bc)) as [tr Hf].
  rewrite Hf. cbn [fst snd].
  unfold iterate_blocks. cbn [selected_blocks blockchain Scanner_init].
  rewrite replay_loop_replayable; [reflexivity|].
  apply Forall_filter_of. cbn [Scanner_init blocks]. now apply (dense_replayable bc idx).
Qed.

(** After a complete filter pass the generator [self.blocks] is spent, so a
    second filter pass, forced by clearing the selection, sees no block. *)
Lemma refilter_after_clear (self : Scanner) (p q : Block -> bool) :
  iterate_blocks q (clear_block_filter (snd (filter_blocks p self)))
  = (([], Done), [], mkScanner (blockchain self) ([], Done) (Some [])).
Proof.
  destruct (filter_blocks_spec p self) as [tr Hf]. rewrite Hf. reflexivity.
Qed.

(** ** Orphan pruning *)

Lemma string_in_iff (s : string) (l : list string) : string_in s l = true <-> In s l.
Proof.
  induction l as [|x l IH]; cbn [string_in In].
  - split; [discriminate | contradiction].
  - rewrite orb_true_iff, IH, String.eqb_eq. split; intros [H | H]; auto.
Qed.

Section Confirmation.

Variable codec : block_codec.
Variable files : block_files.
Variable seen : bytes -> Prop.



Lemma index_confirmed_loop_total (entries : list DBBlockIndex) :
  forall (chains : list (list string)) (first_block : option Block),
    Forall (readable files) entries ->
    exists r, index_confirmed_loop codec files 6 entries chains first_block = Ok r.
Proof.
  induction entries as [|index entries IH]; intros chains first_block Hr.
  - now exists None.
  - apply Forall_cons_iff in Hr as [Hi Hr]. cbn [index_confirmed_loop].
    destruct (not_on_disk index) eqn:Hd; [now exists (Some false)|].
    destruct Hi as [Hi | [raw Hraw]]; [congruence|].
    rewrite Hraw. cbn [bind].
    destruct (grow_chains _ _ _ _ _) as [chains'|b]; [apply IH; exact Hr | now exists (Some b)].
Qed.


End Confirmation.

Lemma skipn_cons_nth {A : Type} (l : list A) :
  forall (i : nat) (b : A) (t : list A),
    skipn i l = b :: t -> nth_error l i = Some b /\ skipn (S i) l = t.
Proof.
  induction l as [|x l IH]; intros [|i] b t H; try discriminate.
  - cbn in H. injection H as -> ->. split; reflexivity.
  - cbn [skipn] in H. destruct (IH i b t H) as [H1 H2]. split; assumption.
Qed.

Section Orphans.

Variable codec : block_codec.
Variable files : block_files.
Variable idx : list DBBlockIndex.

Lemma orphans_loop_total (todo : list DBBlockIndex) :
  forall (i : nat) (last_height : Z) (orphans : list string),
    Forall (readable files) idx ->
    exists res, orphans_loop codec files idx i todo last_height orphans = Ok res.
Proof.
  induction todo as [|blockIdx todo IH]; intros i last_height orphans Hr.
  - now exists orphans.
  - cbn [orphans_loop].
    destruct ((last_height >? -1) && (height blockIdx =? last_height)).
    + destruct (index_confirmed_loop_total codec files (skipn i idx) [] None) as [r Hc].
      { now apply Forall_skipn_of. }
      unfold _index_confirmed. rewrite Hc. cbn [bind]. now apply IH.
    + now apply IH.
Qed.

Lemma orphans_loop_grows (todo : list DBBlockIndex) :
  forall (i : nat) (last_height : Z) (orphans res : list string),
    orphans_loop codec files idx i todo last_height orphans = Ok res ->
    incl orphans res.
Proof.
  induction todo as [|blockIdx todo IH]; intros i last_height orphans res H.
  - injection H as ->. apply incl_refl.
  - cbn [orphans_loop] in H.
    destruct ((last_height >? -1) && (height blockIdx =? last_height)).
    + destruct (_index_confirmed codec files (skipn i idx)) as [r|x]; [|discriminate].
      cbn [bind] in H. apply IH in H.
      intros s Hs. apply H. destruct (truthy r); apply in_or_app; now left.
    + now apply IH in H.
Qed.

(** The entry at position [j] of what is left to enumerate, when its height
    repeats the height before it, gets one of the two hashes marked. *)
Lemma orphans_loop_marks (todo : list DBBlockIndex) :
  forall (i : nat) (last_height : Z) (orphans res : list string)
         (j : nat) (b : DBBlockIndex),
    orphans_loop codec files idx i todo last_height orphans = Ok res ->
    nth_error todo j = Some b ->
    match j with
    | O => height b = last_height
    | S j' => exists a, nth_error todo j' = Some a /\ height b = height a
    end ->
    -1 < height b ->
    exists r,
      _index_confirmed codec files (skipn (i + j) idx) = Ok r
      /\ In (hash (if truthy r then nth (i + j - 1) idx b else nth (i + j) idx b)) res.
Proof.
  induction todo as [|blockIdx todo IH]; intros i last_height orphans res j b H Hj Hprev Hpos.
  - destruct j; discriminate.
  - destruct j as [|j].
    + injection Hj as ->. cbn [orphans_loop] in H.
      replace ((last_height >? -1) && (height b =? last_height)) with true in H
        by (symmetry; apply andb_true_iff; split; [apply Z.gtb_lt | apply Z.eqb_eq]; lia).
      rewrite Nat.add_0_r.
      destruct (_index_confirmed codec files (skipn i idx)) as [r|x]; [|discriminate].
      cbn [bind] in H. apply orphans_loop_grows in H.
      exists r. split; [reflexivity|].
      destruct (truthy r); apply H, in_or_app; right; now left.
    + cbn [nth_error] in Hj. cbn [orphans_loop] in H.
      assert (Hrec : exists orphans',
                 orphans_loop codec files idx (S i) todo (height blockIdx) orphans' = Ok res).
      { destruct ((last_height >? -1) && (height blockIdx =? last_height)).
        - destruct (_index_confirmed codec files (skipn i idx)) as [r|x]; [|discriminate].
          cbn [bind] in H. eauto.
        - eauto. }
      destruct Hrec as [orphans' Hrec].
      replace (i + S j)%nat with (S i + j)%nat by lia.
      apply (IH (S i) (height blockIdx) orphans' res j b Hrec Hj); [|exact Hpos].
      destruct j as [|j'].
      * destruct Hprev as (a & Ha & Hh). cbn [nth_error] in Ha. injection Ha as ->. exact Hh.
      * destruct Hprev as (a & Ha & Hh). cbn [nth_error] in Ha. eauto.
Qed.


End Orphans.




(** ** Building the index *)

Lemma build_needs_store_handle (codec : block_codec)
  (decode : string -> bytes -> res DBBlockIndex) (self : Blockchain) (w : world) :
  blockIndexDb self = None ->
  exists e, _build_block_index codec decode self w = (Err e, self, w).
Proof.
  intros Hdb. unfold _build_block_index. rewrite Hdb.
  destruct (cache_set (cache self)) as [name|]; [|now exists AttributeError].
  destruct (cache_files w name) as [[l|e]|];
    [now exists AttributeError | now exists e | now exists AttributeError].
Qed.

(** C1, as the code behaves.  Construction never retains an index:
    [_build_block_index] runs before the store handle is assigned and raises
    (AttributeError when no cache is given).  Were the handle there, line 168
    raises NameError unless a global [db] exists; and with both in place the
    value returned is the cache-loaded list, sorted and pruned, whatever the
    store holds (UnboundLocalError when no cache was loaded): the list read
    from the store only lands in [self.blockIndexes], which [__init__] then
    overwrites.  In the module as it is (no global [db]) no call returns an
    index.  On the sample store (two entries) and a stale empty cache the index
    returned, once a [db] is supplied, is empty. *)
Theorem C1_index_comes_from_cache_not_store
  (codec : block_codec) (decode : string -> bytes -> res DBBlockIndex) :
  (forall files stores cache_path w,
      exists e, Blockchain_init codec decode files stores cache_path w = (Err e, w))
  /\ (forall files stores w,
         Blockchain_init codec decode files stores None w = (Err AttributeError, w))
  /\ (forall self w db from_store name cached,
         blockIndexDb self = Some db ->
         read_store decode db = Ok from_store ->
         cache_set (cache self) = Some name ->
         cache_files w name = Some (Ok cached) ->
         _build_block_index codec decode self w
         = if db_defined w
           then (prune_orphans codec (path self) (sort_by_height cached),
                 set_blockIndexes self (Some from_store), w)
           else (Err NameError, set_blockIndexes self (Some from_store), w))
  /\ (forall self w db from_store,
         blockIndexDb self = Some db ->
         read_store decode db = Ok from_store ->
         (cache_set (cache self) = None
          \/ exists name, cache_set (cache self) = Some name /\ cache_files w name = None) ->
         db_defined w = true ->
         _build_block_index codec decode self w
         = (Err UnboundLocalError, set_blockIndexes self (Some from_store), w))
  /\ (forall self w,
         db_defined w = false ->
         exists e, fst (fst (_build_block_index codec decode self w)) = Err e)
  /\ read_store sample_decode sample_store
     = Ok [mkIndex "00"%string 0 0 8; mkIndex "0b"%string 1 0 28]
  /\ fst (fst (_build_block_index sample_codec sample_decode
                 (mkBlockchain sample_files (Some "cache"%string) None
                    (Some sample_store) None)
                 (stale_cache true)))
     = Ok [].
Proof.
  split; [|split; [|split; [|split; [|split; [|split]]]]].
  - intros files stores cache_path w. unfold Blockchain_init.
    destruct (build_needs_store_handle codec decode
                (mkBlockchain files cache_path None None None) w eq_refl) as [e ->].
    now exists e.
  - reflexivity.
  - intros self w db from_store name cached Hdb Hrs Hc Hf.
    unfold _build_block_index. rewrite Hc, Hf, Hdb, Hrs.
    destruct (db_defined w); cbn [negb cache path set_blockIndexes];
      rewrite ?Hc, ?Hf; reflexivity.
  - intros self w db from_store Hdb Hrs Hc Hd.
    unfold _build_block_index.
    destruct Hc as [Hc | (name & Hc & Hf)]; rewrite Hc, ?Hf, Hdb, Hrs, Hd; reflexivity.
  - intros self w Hd. unfold _build_block_index. rewrite Hd. cbn [negb].
    destruct (cache_set (cache self)) as [name|];
      [destruct (cache_files w name) as [[l|e]|]|];
      try (now exists e);
      (destruct (blockIndexDb self) as [db|]; [|now exists AttributeError];
       destruct (read_store decode db) as [from_store|e']; [|now exists e'];
       now exists NameError).
  - reflexivity.
  - reflexivity.
Qed.

(** ** Transaction lookup *)

Lemma decode_varint_loop_consumed (stream : bytes) :
  forall (length shift acc v n : Z),
    decode_varint_loop stream length shift acc = Ok (v, n) ->
    length < n <= length + len stream.
Proof.
  induction stream as [|b stream IH]; intros length shift acc v n H; [discriminate|].
  cbn [decode_varint_loop] in H. rewrite len_cons. pose proof (len_nonneg stream).
  destruct (Z.land (ord b) 128 =? 0).
  - injection H as _ <-. lia.
  - apply IH in H. lia.
Qed.

Lemma rest_of_record (txInfo : bytes) (offset : Z) :
  0 <= offset <= len txInfo ->
  py_slice txInfo offset (len txInfo) = skipn (Z.to_nat offset) txInfo.
Proof. intros H. apply py_slice_to_end; lia. Qed.

(** C3, with three varints.  For an id whose record exists, the lookup decodes
    three consecutive varints from the stored value: file number, block offset, and
    a third one; it fetches the block at that file and offset and asks it for
    one transaction, passing what the third decoding returned.  For an id
    without a record the lookup fails: the decoder raises [EOFError]. *)
Theorem C3_transaction_lookup_reads_three_varints
  {Tx : Type} (lx : string -> bytes) (get_tx : Block -> pyarg -> res Tx)
  (self : Blockchain) (db : DB) (txid : string)
  (txInfo : bytes) (fileNo n1 blockOffs n2 third n3 : Z) :
  txIndexDb self = Some db ->
  db_get db (x74 :: lx txid) = Some txInfo ->
  decode_varint txInfo = Ok (fileNo, n1) ->
  decode_varint (skipn (Z.to_nat n1) txInfo) = Ok (blockOffs, n2) ->
  decode_varint (skipn (Z.to_nat (n1 + n2)) txInfo) = Ok (third, n3) ->
  get_transaction lx get_tx self txid
  = (raw <- get_block (path self) fileNo blockOffs ;;
     get_tx (mkBlock raw None) (ArgPair third n3))
  /\ (forall txid', db_get db (x74 :: lx txid') = None ->
                    get_transaction lx get_tx self txid' = Err EOFError).
Proof.
  intros Hdb Hget H1 H2 H3. split.
  - unfold get_transaction, tx_location. rewrite Hdb, Hget, H1. cbn [bind].
    pose proof (decode_varint_loop_consumed _ _ _ _ _ _ H1) as B1.
    pose proof (decode_varint_loop_consumed _ _ _ _ _ _ H2) as B2.
    assert (Hl2 : len (skipn (Z.to_nat n1) txInfo) = len txInfo - n1)
      by (unfold len in *; rewrite length_skipn; lia).
    rewrite rest_of_record by lia. rewrite H2. cbn [bind].
    rewrite rest_of_record by lia. rewrite H3. reflexivity.
  - intros txid' Hnone. unfold get_transaction, tx_location. rewrite Hdb, Hnone.
    reflexivity.
Qed.

Lemma C3_transaction_lookup_reads_three_varints_witness :
  txIndexDb (mkBlockchain sample_files None None None (Some sample_txdb)) = Some sample_txdb
  /\ db_get sample_txdb (x74 :: sample_lx "aa"%string) = Some [x00; x08; x03; x04]
  /\ decode_varint [x00; x08; x03; x04] = Ok (0, 1)
  /\ decode_varint (skipn (Z.to_nat 1) [x00; x08; x03; x04]) = Ok (8, 1)
  /\ decode_varint (skipn (Z.to_nat (1 + 1)) [x00; x08; x03; x04]) = Ok (3, 1)
  /\ get_transaction sample_lx sample_get_tx
       (mkBlockchain sample_files None None None (Some sample_txdb)) "aa"%string
     = (raw <- get_block sample_files 0 8 ;;
        sample_get_tx (mkBlock raw None) (ArgPair 3 1)).
Proof.
  assert (H0 : txIndexDb (mkBlockchain sample_files None None None (Some sample_txdb))
               = Some sample_txdb) by reflexivity.
  assert (H1 : db_get sample_txdb (x74 :: sample_lx "aa"%string) = Some [x00; x08; x03; x04])
    by reflexivity.
  assert (H2 : decode_varint [x00; x08; x03; x04] = Ok (0, 1)) by reflexivity.
  assert (H3 : decode_varint (skipn (Z.to_nat 1) [x00; x08; x03; x04]) = Ok (8, 1))
    by reflexivity.
  assert (H4 : decode_varint (skipn (Z.to_nat (1 + 1)) [x00; x08; x03; x04]) = Ok (3, 1))
    by reflexivity.
  repeat (split; [assumption|]).
  exact (proj1 (C3_transaction_lookup_reads_three_varints sample_lx sample_get_tx
                  _ _ "aa"%string _ _ _ _ _ _ _ H0 H1 H2 H3 H4)).
Defined.

(** The stored value [00 08 03 04]: read as four varints the transaction
    offset is 4; the lookup hands the block the pair (3, 1) instead, and never
    reads the fourth byte.  On [00 08 03] the four-varint reading runs out of
    bytes while the lookup's decoding succeeds. *)
Lemma C3_four_varints_counterexample :
  get_transaction_spec sample_lx sample_get_tx sample_files sample_txdb "aa"%string
  = Some (Ok (ArgInt 4))
  /\ get_transaction sample_lx sample_get_tx
       (mkBlockchain sample_files None None None (Some sample_txdb)) "aa"%string
     = Ok (ArgPair 3 1)
  /\ Some (get_transaction sample_lx sample_get_tx
             (mkBlockchain sample_files None None None (Some sample_txdb)) "aa"%string)
     <> get_transaction_spec sample_lx sample_get_tx sample_files sample_txdb "aa"%string
  /\ tx_location_spec [x00; x08; x03; x04] = Ok (0, 8, 3, 4)
  /\ tx_location (Some [x00; x08; x03; x04]) = Ok (0, 8, (3, 1))
  /\ tx_location_spec [x00; x08; x03] = Err EOFError
  /\ tx_location (Some [x00; x08; x03]) = Ok (0, 8, (3, 1)).
Proof.
  split; [reflexivity|]. split; [reflexivity|]. split; [discriminate|].
  repeat split.
Qed.

(** ** The wrapper: samples *)

(** C7, as the code behaves.  After a complete filter pass the
    generator [self.blocks] is exhausted; clearing the selection and iterating
    again runs the filter over no block at all: nothing is yielded, the
    predicate is never called, and the selection is left empty.  On the sample
    index the first pass yields four blocks and the re-run none. *)
Theorem C7_refilter_after_clear_sees_no_block :
  (forall (self : Scanner) (p q : Block -> bool),
      iterate_blocks q (clear_block_filter (snd (filter_blocks p self)))
      = (([], Done), [], mkScanner (blockchain self) ([], Done) (Some [])))
  /\ fst (fst (filter_blocks accept_all (Scanner_init (sample_chain dense_index))))
     = ([mkBlock [x00; xff] (Some 0); mkBlock [x0b; x00] (Some 1);
         mkBlock [x01; x0b] (Some 2); mkBlock [x02; x01] (Some 3)], Done)
  /\ fst (iterate_blocks accept_all
            (clear_block_filter
               (snd (filter_blocks accept_all (Scanner_init (sample_chain dense_index))))))
     = (([], Done), []).
Proof.
  split; [exact refilter_after_clear|]. split; reflexivity.
Qed.

(** The index that pruning leaves of a three-way fork keeps two entries at
    height 1, so the entry of height 2 sits at position 3: the block selected
    at height 2 is replayed as the block at position 2, of height 1. *)
Lemma C4_replay_counterexample :
  prune_orphans sample_codec sample_files three_way_index = Ok three_way_pruned
  /\ fst (fst (filter_blocks (at_height 2) (Scanner_init (sample_chain three_way_pruned))))
     = ([mkBlock [x01; x0c] (Some 2)], Done)
  /\ fst (fst (iterate_blocks (at_height 2)
                 (snd (filter_blocks (at_height 2)
                         (Scanner_init (sample_chain three_way_pruned))))))
     = ([mkBlock [x0c; x00] (Some 1)], Done)
  /\ fst (fst (iterate_blocks (at_height 2)
                 (snd (filter_blocks (at_height 2)
                         (Scanner_init (sample_chain three_way_pruned))))))
     <> fst (fst (filter_blocks (at_height 2)
                    (Scanner_init (sample_chain three_way_pruned)))).
Proof.
  split; [vm_compute; reflexivity|]. split; [reflexivity|]. split; [reflexivity|].
  discriminate.
Qed.

Lemma dense_index_dense : dense dense_index.
Proof.
  intros i e H. unfold dense_index in H.
  do 4 (destruct i as [|i]; [injection H as <-; reflexivity|]).
  destruct i; discriminate.
Qed.

Lemma C4_replay_on_dense_index_witness :
  blockIndexes (sample_chain dense_index) = Some dense_index
  /\ dense dense_index
  /\ iterate_blocks accept_all
       (snd (filter_blocks (at_height 1) (Scanner_init (sample_chain dense_index))))
     = ((fst (fst (fst (filter_blocks (at_height 1)
                          (Scanner_init (sample_chain dense_index))))), Done),
        [], snd (filter_blocks (at_height 1) (Scanner_init (sample_chain dense_index)))).
Proof.
  assert (H1 : blockIndexes (sample_chain dense_index) = Some dense_index) by reflexivity.
  exact (conj H1 (conj dense_index_dense
           (C4_replay_on_dense_index (sample_chain dense_index) dense_index
              (at_height 1) accept_all H1 dense_index_dense))).
Defined.

Lemma dense_index_fetchable : Forall (fetchable (path (sample_chain dense_index))) dense_index.
Proof.
  unfold dense_index.
  repeat (apply Forall_cons; [split; [reflexivity | eexists; vm_compute; reflexivity]|]).
  apply Forall_nil.
Qed.

Lemma C5_ordered_iteration_window_witness :
  blockIndexes (sample_chain dense_index) = Some dense_index
  /\ Forall (fetchable (path (sample_chain dense_index))) dense_index
  /\ get_ordered_blocks (sample_chain dense_index) 3 None
     = get_ordered_blocks (sample_chain dense_index) 3 (Some (len dense_index)).
Proof.
  assert (H1 : blockIndexes (sample_chain dense_index) = Some dense_index) by reflexivity.
  exact (conj H1 (conj dense_index_fetchable
           (proj1 (C5_ordered_iteration_window (sample_chain dense_index) dense_index
                     3 1 H1 dense_index_fetchable)))).
Defined.



(** ** Hash display *)

Lemma hex_byte (b : byte) :
  unhex_digit (hex_digit (ord b / 16)) = Some (ord b / 16)
  /\ unhex_digit (hex_digit (ord b mod 16)) = Some (ord b mod 16)
  /\ chr (16 * (ord b / 16) + ord b mod 16) = b
  /\ lower_hex_digit (hex_digit (ord b / 16)) = true
  /\ lower_hex_digit (hex_digit (ord b mod 16)) = true.
Proof. destruct b; repeat split; reflexivity. Qed.

Lemma unhexlify_hexlify (data : bytes) : unhexlify (hexlify data) = Some data.
Proof.
  induction data as [|b data IH]; [reflexivity|].
  destruct (hex_byte b) as (H1 & H2 & H3 & _).
  cbn [hexlify unhexlify]. rewrite H1, H2, IH, H3. reflexivity.
Qed.

Lemma hexlify_shape (data : bytes) :
  Z.of_nat (String.length (hexlify data)) = 2 * len data
  /\ string_forall lower_hex_digit (hexlify data) = true.
Proof.
  induction data as [|b data [IH1 IH2]]; [split; reflexivity|].
  destruct (hex_byte b) as (_ & _ & _ & H4 & H5).
  cbn [hexlify String.length string_forall]. rewrite H4, H5, IH2. split; [|reflexivity].
  rewrite len_cons. lia.
Qed.

(** X1.  The display form of a hash has two lowercase hex digits per byte;
    hex-decoding it and reversing the bytes gives the hash back, so two
    different hashes never display alike. *)
Theorem X1_format_hash_round_trip (hash_ : bytes) :
  Z.of_nat (String.length (format_hash hash_)) = 2 * len hash_
  /\ string_forall lower_hex_digit (format_hash hash_) = true
  /\ option_map (@rev byte) (unhexlify (format_hash hash_)) = Some hash_
  /\ (forall other, format_hash other = format_hash hash_ -> other = hash_).
Proof.
  unfold format_hash.
  destruct (hexlify_shape (rev hash_)) as [Hl Hs].
  assert (Hrt : forall h, option_map (@rev byte) (unhexlify (hexlify (rev h))) = Some h).
  { intros h. rewrite unhexlify_hexlify. cbn [option_map]. now rewrite rev_involutive. }
  repeat split.
  - rewrite Hl. unfold len. now rewrite length_rev.
  - exact Hs.
  - apply Hrt.
  - intros other Heq. pose proof (Hrt other) as Ho. rewrite Heq, Hrt in Ho. congruence.
Qed.

(** ** Fixed-width integers *)

Lemma chr_mod (z : Z) : chr (z mod 256) = chr z.
Proof. unfold chr. now rewrite Z.mod_mod by lia. Qed.

Lemma chr_of_byte (z : Z) (b : byte) : z mod 256 = ord b -> chr z = b.
Proof. intros H. rewrite <- chr_mod, H. apply chr_ord. Qed.

Lemma chr_congr (x y : Z) : x mod 256 = y mod 256 -> chr x = chr y.
Proof. intros H. rewrite <- (chr_mod x), <- (chr_mod y). now f_equal. Qed.

Lemma pack_le32_low (a b : Z) : pack_le32 (a + 4294967296 * b) = pack_le32 a.
Proof.
  unfold pack_le32.
  f_equal; [|f_equal; [|f_equal; [|f_equal]]]; apply chr_congr;
    Z.div_mod_to_equations; lia.
Qed.

Lemma len4 (data : bytes) :
  len data = 4 -> exists b0 b1 b2 b3, data = [b0; b1; b2; b3].
Proof.
  destruct data as [|b0 [|b1 [|b2 [|b3 [|b4 data]]]]]; intros H;
    try (unfold len in H; cbn [List.length] in H; lia).
  now exists b0, b1, b2, b3.
Qed.

Lemma pack_unpack (b0 b1 b2 b3 : byte) :
  pack_le32 (ord b0 + 256 * ord b1 + 65536 * ord b2 + 16777216 * ord b3)
  = [b0; b1; b2; b3].
Proof.
  pose proof (ord_range b0). pose proof (ord_range b1).
  pose proof (ord_range b2). pose proof (ord_range b3).
  unfold pack_le32.
  repeat f_equal; apply chr_of_byte; Z.div_mod_to_equations; lia.
Qed.

Lemma unpack32_range (data : bytes) (v : Z) :
  unpack_le32 data = Ok v -> 0 <= v < 2 ^ 32.
Proof.
  intros H. pose proof (unpack_four _ _ H) as H4.
  destruct (len4 data H4) as (b0 & b1 & b2 & b3 & ->).
  assert (E : v = ord b0 + 256 * ord b1 + 65536 * ord b2 + 16777216 * ord b3)
    by (unfold unpack_le32 in H; congruence).
  pose proof (ord_range b0). pose proof (ord_range b1).
  pose proof (ord_range b2). pose proof (ord_range b3).
  change (2 ^ 32) with 4294967296. lia.
Qed.

(** X2.  [decode_uint32] fails its assertion exactly on inputs that are not
    four bytes long and raises nothing else; on four bytes it returns a value
    in [0, 2^32) whose little-endian packing is the input, and it inverts the
    packing of every such value. *)
Theorem X2_decode_uint32_four_bytes (data : bytes) :
  (decode_uint32 data = AssertionError <-> len data <> 4)
  /\ (forall e, decode_uint32 data <> Raises e)
  /\ (forall v, decode_uint32 data = Value v -> 0 <= v < 2 ^ 32 /\ pack_le32 v = data)
  /\ (forall n, 0 <= n < 2 ^ 32 -> decode_uint32 (pack_le32 n) = Value n).
Proof.
  unfold decode_uint32. split; [split|split; [|split]].
  - destruct (len data =? 4) eqn:E.
    + apply Z.eqb_eq in E. destruct (len4 data E) as (b0 & b1 & b2 & b3 & ->). discriminate.
    + apply Z.eqb_neq in E. intros _. exact E.
  - intros H. apply Z.eqb_neq in H. now rewrite H.
  - intros e. destruct (len data =? 4) eqn:E; [|discriminate].
    apply Z.eqb_eq in E. destruct (len4 data E) as (b0 & b1 & b2 & b3 & ->). discriminate.
  - intros v H. destruct (len data =? 4) eqn:E; [|discriminate].
    apply Z.eqb_eq in E. destruct (len4 data E) as (b0 & b1 & b2 & b3 & ->).
    destruct (unpack_le32 [b0; b1; b2; b3]) as [v'|e] eqn:Hu; [|discriminate].
    assert (Ev : v' = v) by congruence. subst v'. split.
    + exact (unpack32_range _ _ Hu).
    + assert (E' : v = ord b0 + 256 * ord b1 + 65536 * ord b2 + 16777216 * ord b3)
        by (unfold unpack_le32 in Hu; congruence).
      subst v. apply pack_unpack.
  - intros n Hn. change (len (pack_le32 n) =? 4) with true. cbv iota.
    now rewrite unpack_pack.
Qed.

Lemma unpack64_split (lo hi : bytes) (a b : Z) :
  unpack_le32 lo = Ok a -> unpack_le32 hi = Ok b ->
  unpack_le64 (lo ++ hi) = Ok (a + 4294967296 * b).
Proof.
  intros Ha Hb.
  destruct (len4 lo (unpack_four _ _ Ha)) as (b0 & b1 & b2 & b3 & ->).
  destruct (len4 hi (unpack_four _ _ Hb)) as (b4 & b5 & b6 & b7 & ->).
  assert (Ea : a = ord b0 + 256 * ord b1 + 65536 * ord b2 + 16777216 * ord b3)
    by (unfold unpack_le32 in Ha; congruence).
  assert (Eb : b = ord b4 + 256 * ord b5 + 65536 * ord b6 + 16777216 * ord b7)
    by (unfold unpack_le32 in Hb; congruence).
  cbn [app unpack_le64]. f_equal. lia.
Qed.

Lemma len8 (data : bytes) :
  len data = 8 -> exists lo hi, data = lo ++ hi /\ len lo = 4 /\ len hi = 4.
Proof.
  intros H. exists (firstn 4 data), (skipn 4 data).
  rewrite firstn_skipn. unfold len in *. rewrite length_firstn, length_skipn.
  repeat split; lia.
Qed.

(** X3.  [decode_uint64] fails its assertion exactly on inputs that are not
    eight bytes long and raises nothing else; on eight bytes its value is in
    [0, 2^64), is the low word plus 2^32 times the high word as
    [decode_uint32] reads them, and its packing is the input. *)
Theorem X3_decode_uint64_eight_bytes (data : bytes) :
  (decode_uint64 data = AssertionError <-> len data <> 8)
  /\ (forall e, decode_uint64 data <> Raises e)
  /\ (forall v, decode_uint64 data = Value v -> 0 <= v < 2 ^ 64 /\ pack_le64 v = data)
  /\ (forall lo hi a b,
         decode_uint32 lo = Value a -> decode_uint32 hi = Value b ->
         decode_uint64 (lo ++ hi) = Value (a + 2 ^ 32 * b)).
Proof.
  assert (Hsplit : forall lo hi, len lo = 4 -> len hi = 4 ->
            exists a b, unpack_le32 lo = Ok a /\ unpack_le32 hi = Ok b
                        /\ decode_uint64 (lo ++ hi) = Value (a + 2 ^ 32 * b)).
  { intros lo hi Hlo Hhi.
    destruct (len4 lo Hlo) as (b0 & b1 & b2 & b3 & ->).
    destruct (len4 hi Hhi) as (b4 & b5 & b6 & b7 & ->).
    eexists; eexists. split; [reflexivity|]. split; [reflexivity|].
    unfold decode_uint64. change (len (_ ++ _) =? 8) with true. cbv iota.
    rewrite (unpack64_split [b0; b1; b2; b3] [b4; b5; b6; b7] _ _ eq_refl eq_refl).
    reflexivity. }
  split; [split|split; [|split]].
  - unfold decode_uint64. destruct (len data =? 8) eqn:E.
    + apply Z.eqb_eq in E. destruct (len8 data E) as (lo & hi & -> & Hlo & Hhi).
      destruct (Hsplit lo hi Hlo Hhi) as (a & b & _ & _ & Hd).
      unfold decode_uint64 in Hd. rewrite len_app, Hlo, Hhi in Hd. cbn in Hd.
      intros H. rewrite H in Hd. discriminate.
    + apply Z.eqb_neq in E. intros _. exact E.
  - intros H. unfold decode_uint64. apply Z.eqb_neq in H. now rewrite H.
  - intros e H. destruct (Z.eq_dec (len data) 8) as [E|E].
    + destruct (len8 data E) as (lo & hi & -> & Hlo & Hhi).
      destruct (Hsplit lo hi Hlo Hhi) as (a & b & _ & _ & Hd). congruence.
    + unfold decode_uint64 in H. apply Z.eqb_neq in E. rewrite E in H. discriminate.
  - intros v H. destruct (Z.eq_dec (len data) 8) as [E|E].
    + destruct (len8 data E) as (lo & hi & -> & Hlo & Hhi).
      destruct (Hsplit lo hi Hlo Hhi) as (a & b & Ha & Hb & Hd).
      rewrite Hd in H. assert (Ev : v = a + 2 ^ 32 * b) by congruence. subst v.
      pose proof (unpack32_range _ _ Ha) as Ra. pose proof (unpack32_range _ _ Hb) as Rb.
      change (2 ^ 32) with 4294967296 in *. change (2 ^ 64) with 18446744073709551616.
      split; [lia|].
      destruct (len4 lo Hlo) as (b0 & b1 & b2 & b3 & ->).
      destruct (len4 hi Hhi) as (b4 & b5 & b6 & b7 & ->).
      assert (Ea : a = ord b0 + 256 * ord b1 + 65536 * ord b2 + 16777216 * ord b3)
        by (unfold unpack_le32 in Ha; congruence).
      assert (Eb : b = ord b4 + 256 * ord b5 + 65536 * ord b6 + 16777216 * ord b7)
        by (unfold unpack_le32 in Hb; congruence).
      unfold pack_le64.
      replace ((a + 4294967296 * b) / 4294967296) with b
        by (Z.div_mod_to_equations; lia).
      rewrite pack_le32_low, Ea, Eb, !pack_unpack. reflexivity.
    + unfold decode_uint64 in H. apply Z.eqb_neq in E. rewrite E in H. discriminate.
  - intros lo hi a b Ha Hb.
    assert (Hlo : len lo = 4).
    { unfold decode_uint32 in Ha. destruct (len lo =? 4) eqn:E; [|discriminate].
      now apply Z.eqb_eq. }
    assert (Hhi : len hi = 4).
    { unfold decode_uint32 in Hb. destruct (len hi =? 4) eqn:E; [|discriminate].
      now apply Z.eqb_eq. }
    destruct (Hsplit lo hi Hlo Hhi) as (a' & b' & Ha' & Hb' & Hd).
    unfold decode_uint32 in Ha, Hb.
    apply Z.eqb_eq in Hlo, Hhi. rewrite Hlo, Ha' in Ha. rewrite Hhi, Hb' in Hb.
    congruence.
Qed.

(** ** More on the varint decoder *)

Lemma decode_varint_loop_eof (stream : bytes) :
  forall length shift acc,
    forallb high_bit_set stream = true ->
    decode_varint_loop stream length shift acc = Err EOFError.
Proof.
  induction stream as [|b stream IH]; intros length shift acc H; [reflexivity|].
  cbn [forallb] in H. apply andb_true_iff in H as [Hb H].
  unfold high_bit_set in Hb. apply negb_true_iff in Hb.
  cbn [decode_varint_loop]. rewrite Hb. now apply IH.
Qed.

(** A successful decoding splits the stream at the first byte whose high bit
    is clear. *)
Lemma decode_varint_loop_split (stream : bytes) :
  forall length shift acc,
    forallb high_bit_set stream = false ->
    exists cont last rest,
      stream = cont ++ last :: rest
      /\ forallb high_bit_set cont = true
      /\ high_bit_set last = false
      /\ decode_varint_loop stream length shift acc
         = Ok (Z.lor acc (varint_value (cont ++ [last]) shift), length + len cont + 1).
Proof.
  induction stream as [|b stream IH]; intros length shift acc H; [discriminate|].
  cbn [forallb] in H. destruct (high_bit_set b) eqn:Hb.
  - cbn [andb] in H. destruct (IH (length + 1) (shift + 7)
        (Z.lor acc (Z.shiftl (Z.land (ord b) 127) shift)) H)
      as (cont & last & rest & -> & Hc & Hl & Hd).
    exists (b :: cont), last, rest. repeat split.
    + cbn [forallb]. now rewrite Hb, Hc.
    + exact Hl.
    + now apply (decode_varint_run (b :: cont) last rest); [cbn [forallb]; rewrite Hb, Hc|].
  - exists [], b, stream. repeat split; [exact Hb|].
    now apply (decode_varint_run [] b stream).
Qed.

Lemma lor_below (a b m : Z) :
  0 <= m -> 0 <= a < 2 ^ m -> 0 <= b < 2 ^ m -> 0 <= Z.lor a b < 2 ^ m.
Proof.
  intros Hm Ha Hb. split; [apply Z.lor_nonneg; lia|].
  destruct (Z.eq_dec a 0) as [->|Hna]; [now rewrite Z.lor_0_l|].
  destruct (Z.eq_dec b 0) as [->|Hnb]; [now rewrite Z.lor_0_r|].
  apply Z.log2_lt_pow2.
  - assert (0 <= Z.lor a b) by (apply Z.lor_nonneg; lia).
    assert (Z.lor a b <> 0) by (intros E; apply Z.lor_eq_0_iff in E; lia). lia.
  - rewrite Z.log2_lor by lia.
    assert (Z.log2 a < m) by (apply Z.log2_lt_pow2; lia).
    assert (Z.log2 b < m) by (apply Z.log2_lt_pow2; lia). lia.
Qed.

Lemma seven_bits_below (b : byte) (shift : Z) :
  0 <= shift -> 0 <= Z.shiftl (Z.land (ord b) 127) shift < 2 ^ (shift + 7).
Proof.
  intros Hs. rewrite byte_low7, Z.shiftl_mul_pow2 by lia.
  assert (0 <= ord b mod 128 < 128) by (apply Z.mod_pos_bound; lia).
  assert (0 < 2 ^ shift) by (apply Z.pow_pos_nonneg; lia).
  rewrite Z.pow_add_r by lia. change (2 ^ 7) with 128. nia.
Qed.

Lemma varint_value_below (bs : bytes) :
  forall shift, 0 <= shift -> 0 <= varint_value bs shift < 2 ^ (shift + 7 * len bs).
Proof.
  induction bs as [|b bs IH]; intros shift Hs.
  - cbn [varint_value]. change (len (@nil byte)) with 0.
    split; [lia | apply Z.pow_pos_nonneg; lia].
  - cbn [varint_value]. rewrite len_cons. pose proof (len_nonneg bs).
    apply lor_below; [lia | |].
    + pose proof (seven_bits_below b shift Hs) as [H1 H2]. split; [exact H1|].
      apply Z.lt_le_trans with (2 ^ (shift + 7)); [exact H2|].
      apply Z.pow_le_mono_r; lia.
    + replace (shift + 7 * (1 + len bs)) with (shift + 7 + 7 * len bs) by lia.
      apply IH. lia.
Qed.

(** X4.  [decode_varint] raises [EOFError], and nothing else, exactly when
    every byte of its input (possibly none) has the high bit set.  When it
    returns (v, n), n is between 1 and the input length, v is below 2^(7n), and
    only the first n bytes were read: whatever follows them, the result is the
    same. *)
Theorem X4_decode_varint_outcomes (varint : bytes) :
  (decode_varint varint = Err EOFError <-> forallb high_bit_set varint = true)
  /\ (forall e, decode_varint varint = Err e -> e = EOFError)
  /\ (forall v n,
         decode_varint varint = Ok (v, n) ->
         1 <= n <= len varint
         /\ 0 <= v < 2 ^ (7 * n)
         /\ forall rest, decode_varint (firstn (Z.to_nat n) varint ++ rest) = Ok (v, n)).
Proof.
  unfold decode_varint.
  destruct (forallb high_bit_set varint) eqn:Hall.
  - pose proof (decode_varint_loop_eof varint 0 0 0 Hall) as He. rewrite He.
    split; [split; reflexivity|]. split; [congruence | discriminate].
  - destruct (decode_varint_loop_split varint 0 0 0 Hall)
      as (cont & last & rest & Hs & Hc & Hl & Hd).
    rewrite Hd. split; [split; discriminate|]. split; [discriminate|].
    intros v n H. rewrite Z.lor_0_l in H.
    assert (Ev : v = varint_value (cont ++ [last]) 0) by congruence.
    assert (En : n = 0 + len cont + 1) by congruence. subst v n.
    pose proof (len_nonneg cont). pose proof (len_nonneg rest).
    split; [|split].
    + rewrite Hs, len_app, len_cons. lia.
    + pose proof (varint_value_below (cont ++ [last]) 0 ltac:(lia)) as Hv.
      rewrite len_app in Hv. change (len [last]) with 1 in Hv.
      replace (7 * (0 + len cont + 1)) with (0 + 7 * (len cont + 1)) by lia. exact Hv.
    + intros rest'.
      replace (firstn (Z.to_nat (0 + len cont + 1)) varint) with (cont ++ [last]).
      * rewrite <- app_assoc. cbn [app].
        rewrite (decode_varint_run cont last rest' 0 0 0 Hc Hl). now rewrite Z.lor_0_l.
      * rewrite Hs.
        replace (Z.to_nat (0 + len cont + 1)) with (List.length (cont ++ [last]))
          by (rewrite length_app; cbn [List.length]; unfold len; lia).
        replace (cont ++ last :: rest) with ((cont ++ [last]) ++ rest)
          by (now rewrite <- app_assoc).
        now rewrite firstn_app, firstn_all, Nat.sub_diag, firstn_0, app_nil_r.
Qed.

Lemma varint_value_app (a b : bytes) :
  forall shift,
    varint_value (a ++ b) shift
    = Z.lor (varint_value a shift) (varint_value b (shift + 7 * len a)).
Proof.
  induction a as [|x a IH]; intros shift.
  - cbn [app varint_value]. change (len (@nil byte)) with 0.
    rewrite Z.lor_0_l. f_equal. lia.
  - cbn [app varint_value]. rewrite IH, len_cons, Z.lor_assoc. do 2 f_equal. lia.
Qed.

Lemma continued_byte (last : byte) :
  high_bit_set last = false ->
  high_bit_set (chr (ord last + 128)) = true
  /\ Z.land (ord (chr (ord last + 128))) 127 = Z.land (ord last) 127.
Proof. destruct last; intros H; try discriminate H; split; reflexivity. Qed.

(** X5.  The decoder accepts over-long encodings: setting the high bit of the
    closing byte and appending a zero byte gives the same value with one more
    byte consumed, so a value does not determine the number of bytes read. *)
Theorem X5_decode_varint_overlong (cont : bytes) (last : byte) (rest : bytes) :
  forallb high_bit_set cont = true ->
  high_bit_set last = false ->
  decode_varint (cont ++ last :: rest)
  = Ok (varint_value (cont ++ [last]) 0, len cont + 1)
  /\ decode_varint (cont ++ chr (ord last + 128) :: x00 :: rest)
     = Ok (varint_value (cont ++ [last]) 0, len cont + 2).
Proof.
  intros Hc Hl. destruct (continued_byte last Hl) as [Hh H7]. unfold decode_varint. split.
  - rewrite (decode_varint_run cont last rest 0 0 0 Hc Hl). now rewrite Z.lor_0_l.
  - replace (cont ++ chr (ord last + 128) :: x00 :: rest)
      with ((cont ++ [chr (ord last + 128)]) ++ x00 :: rest)
      by (now rewrite <- app_assoc).
    rewrite decode_varint_run.
    + rewrite Z.lor_0_l, len_app. change (len [chr (ord last + 128)]) with 1.
      f_equal. f_equal; [|lia].
      rewrite !varint_value_app. cbn [varint_value].
      rewrite H7. change (Z.land (ord x00) 127) with 0.
      now rewrite Z.shiftl_0_l, !Z.lor_0_r.
    + rewrite forallb_app. cbn [forallb]. now rewrite Hc, Hh.
    + reflexivity.
Qed.

Lemma X5_decode_varint_overlong_witness :
  forallb high_bit_set [x85] = true
  /\ high_bit_set x01 = false
  /\ decode_varint ([x85] ++ x01 :: []) = Ok (varint_value ([x85] ++ [x01]) 0, len [x85] + 1)
  /\ decode_varint ([x85] ++ chr (ord x01 + 128) :: x00 :: [])
     = Ok (varint_value ([x85] ++ [x01]) 0, len [x85] + 2).
Proof.
  assert (H1 : forallb high_bit_set [x85] = true) by reflexivity.
  assert (H2 : high_bit_set x01 = false) by reflexivity.
  exact (conj H1 (conj H2 (X5_decode_varint_overlong [x85] x01 [] H1 H2))).
Defined.

(** ** Direct fetch *)

Lemma unpack_le32_len (data : bytes) :
  (exists size, unpack_le32 data = Ok size) <-> len data = 4.
Proof.
  split.
  - intros [size H]. exact (unpack_four _ _ H).
  - intros H. destruct (len4 data H) as (b0 & b1 & b2 & b3 & ->). eexists. reflexivity.
Qed.

Lemma unpack_le32_short (data : bytes) :
  len data <> 4 -> unpack_le32 data = Err StructError.
Proof.
  intros H. destruct data as [|b0 [|b1 [|b2 [|b3 [|b4 data]]]]]; try reflexivity.
  exfalso. apply H. reflexivity.
Qed.

Lemma len_header (contents : bytes) (offset : Z) :
  4 <= offset ->
  len (firstn 4 (skipn (Z.to_nat (offset - 4)) contents))
  = Z.max 0 (Z.min 4 (len contents - (offset - 4))).
Proof.
  intros H. unfold len. rewrite length_firstn, length_skipn. lia.
Qed.

Lemma get_block_reads (files : block_files) (file offset : Z) (contents : bytes) :
  files file = Some contents ->
  4 <= offset ->
  offset - 4 <= len contents \/ (offset - 4 < 2 ^ 63 /\ offset - 4 <= max_offset files) ->
  get_block files file offset
  = (size <- unpack_le32 (firstn 4 (skipn (Z.to_nat (offset - 4)) contents)) ;;
     Ok (firstn (Z.to_nat size) (skipn (Z.to_nat offset) contents))).
Proof.
  intros Hf H4 Hin. unfold get_block. rewrite Hf. cbv zeta.
  assert (E1 : (offset - 4 <? - 2 ^ 63) = false) by (apply Z.ltb_ge; lia).
  assert (E2 : (offset - 4 <? 0) = false) by (apply Z.ltb_ge; lia).
  assert (E3 : (len contents <? offset - 4) && (2 ^ 63 <=? offset - 4) = false).
  { apply andb_false_iff. destruct Hin as [H | [H _]];
      [left; apply Z.ltb_ge | right; apply Z.leb_gt]; lia. }
  assert (E4 : (len contents <? offset - 4) && (max_offset files <? offset - 4) = false).
  { apply andb_false_iff. destruct Hin as [H | [_ H]];
      [left | right]; apply Z.ltb_ge; lia. }
  now rewrite E1, E2, E3, E4.
Qed.

(** X6.  [get_block] raises [FileNotFoundError] exactly when the file is
    missing.  On a file that exists, with the seek position [offset - 4]: it
    raises [ValueError] when the position does not fit a signed 64-bit file
    offset, [OSError] when it is negative or, past the end of the file, beyond
    what the file system allows, and [struct.error] when the seek is accepted
    but fewer than four bytes are left to read; for an offset from 4 to the
    file length it returns the bytes from the offset on, as many as the four
    bytes before the offset say, or the rest of the file when that is less. *)
Theorem X6_get_block_outcomes (files : block_files) (file offset : Z) :
  (get_block files file offset = Err FileNotFoundError <-> files file = None)
  /\ (forall contents,
         files file = Some contents ->
         (offset - 4 < - 2 ^ 63 -> get_block files file offset = Err ValueError)
         /\ (- 2 ^ 63 <= offset - 4 < 0 -> get_block files file offset = Err OSError)
         /\ (len contents < offset - 4 -> 2 ^ 63 <= offset - 4 ->
             get_block files file offset = Err ValueError)
         /\ (len contents < offset - 4 < 2 ^ 63 -> max_offset files < offset - 4 ->
             get_block files file offset = Err OSError)
         /\ (4 <= offset -> len contents < offset ->
             offset - 4 <= len contents
             \/ (offset - 4 < 2 ^ 63 /\ offset - 4 <= max_offset files) ->
             get_block files file offset = Err StructError)
         /\ (4 <= offset <= len contents ->
             exists size raw,
               unpack_le32 (firstn 4 (skipn (Z.to_nat (offset - 4)) contents)) = Ok size
               /\ get_block files file offset = Ok raw
               /\ raw = firstn (Z.to_nat size) (skipn (Z.to_nat offset) contents)
               /\ len raw = Z.min size (len contents - offset))).
Proof.
  split.
  - unfold get_block. destruct (files file) as [contents|] eqn:Hf; [|split; reflexivity].
    split; [|discriminate]. intros H. exfalso. cbv zeta in H.
    destruct (offset - 4 <? - 2 ^ 63); [discriminate|].
    destruct (offset - 4 <? 0); [discriminate|].
    destruct ((len contents <? offset - 4) && (2 ^ 63 <=? offset - 4)); [discriminate|].
    destruct ((len contents <? offset - 4) && (max_offset files <? offset - 4));
      [discriminate|].
    destruct (unpack_le32 _) as [size|e] eqn:Hu; cbn [bind] in H; [discriminate|].
    destruct (firstn 4 (skipn (Z.to_nat (offset - 4)) contents))
      as [|b0 [|b1 [|b2 [|b3 [|b4 l]]]]]; cbn in Hu; congruence.
  - intros contents Hf. pose proof (len_nonneg contents) as Hlen.
    split; [|split; [|split; [|split; [|split]]]].
    + intros H. unfold get_block. rewrite Hf. cbv zeta.
      now replace (offset - 4 <? - 2 ^ 63) with true by (symmetry; apply Z.ltb_lt; lia).
    + intros H. unfold get_block. rewrite Hf. cbv zeta.
      replace (offset - 4 <? - 2 ^ 63) with false by (symmetry; apply Z.ltb_ge; lia).
      now replace (offset - 4 <? 0) with true by (symmetry; apply Z.ltb_lt; lia).
    + intros H1 H2. unfold get_block. rewrite Hf. cbv zeta.
      replace (offset - 4 <? - 2 ^ 63) with false by (symmetry; apply Z.ltb_ge; lia).
      replace (offset - 4 <? 0) with false by (symmetry; apply Z.ltb_ge; lia).
      replace (len contents <? offset - 4) with true by (symmetry; apply Z.ltb_lt; lia).
      now replace (2 ^ 63 <=? offset - 4) with true by (symmetry; apply Z.leb_le; lia).
    + intros H1 H2. unfold get_block. rewrite Hf. cbv zeta.
      replace (offset - 4 <? - 2 ^ 63) with false by (symmetry; apply Z.ltb_ge; lia).
      replace (offset - 4 <? 0) with false by (symmetry; apply Z.ltb_ge; lia).
      replace (len contents <? offset - 4) with true by (symmetry; apply Z.ltb_lt; lia).
      replace (2 ^ 63 <=? offset - 4) with false by (symmetry; apply Z.leb_gt; lia).
      now replace (max_offset files <? offset - 4) with true
        by (symmetry; apply Z.ltb_lt; lia).
    + intros H4 Hpast Hin. rewrite (get_block_reads files file offset contents Hf H4 Hin).
      rewrite unpack_le32_short; [reflexivity|].
      rewrite len_header by lia. lia.
    + intros [H4 Hin].
      rewrite (get_block_reads files file offset contents Hf H4) by (left; lia).
      destruct (proj2 (unpack_le32_len (firstn 4 (skipn (Z.to_nat (offset - 4)) contents))))
        as [size Hu].
      { rewrite len_header by lia. lia. }
      pose proof (unpack_nonneg _ _ Hu) as Hs.
      exists size, (firstn (Z.to_nat size) (skipn (Z.to_nat offset) contents)).
      rewrite Hu. cbn [bind]. repeat split.
      unfold len. rewrite length_firstn, length_skipn. unfold len in Hin. lia.
Qed.

Lemma get_block_frame (files : block_files) (file : Z) (pre p post : bytes) :
  files file = Some (pre ++ frame p ++ post) -> len p < 2 ^ 32 ->
  get_block files file (len pre + 8) = Ok p.
Proof.
  intros Hf Hp. pose proof (len_nonneg pre). pose proof (len_nonneg p).
  assert (Hin : len pre + 8 - 4 <= len (pre ++ frame p ++ post)).
  { unfold frame. rewrite !len_app. change (len BITCOIN_CONSTANT) with 4.
    pose proof (len_nonneg post). pose proof (len_nonneg (pack_le32 (len p))). lia. }
  rewrite (get_block_reads files file (len pre + 8) (pre ++ frame p ++ post) Hf)
    by (try left; lia).
  replace (Z.to_nat (len pre + 8 - 4)) with (List.length (pre ++ BITCOIN_CONSTANT))
    by (rewrite length_app; cbn [List.length BITCOIN_CONSTANT]; unfold len; lia).
  replace (Z.to_nat (len pre + 8))
    with (List.length (pre ++ BITCOIN_CONSTANT ++ pack_le32 (len p)))
    by (rewrite !length_app; cbn [List.length BITCOIN_CONSTANT pack_le32]; unfold len; lia).
  unfold frame.
  replace (pre ++ (BITCOIN_CONSTANT ++ pack_le32 (len p) ++ p) ++ post)
    with ((pre ++ BITCOIN_CONSTANT) ++ pack_le32 (len p) ++ p ++ post)
    by (now rewrite <- !app_assoc).
  rewrite skipn_app, skipn_all, Nat.sub_diag. cbn [app skipn].
  replace (firstn 4 (pack_le32 (len p) ++ p ++ post)) with (pack_le32 (len p)) by reflexivity.
  rewrite unpack_pack by lia. cbn [bind].
  replace ((pre ++ BITCOIN_CONSTANT) ++ pack_le32 (len p) ++ p ++ post)
    with ((pre ++ BITCOIN_CONSTANT ++ pack_le32 (len p)) ++ p ++ post)
    by (now rewrite <- !app_assoc).
  rewrite skipn_app, skipn_all, Nat.sub_diag. cbn [app skipn].
  replace (Z.to_nat (len p)) with (List.length p) by (unfold len; lia).
  now rewrite firstn_app, firstn_all, Nat.sub_diag, firstn_0, app_nil_r.
Qed.

Lemma padded_file_app (a b : list (bytes * bytes)) :
  padded_file (a ++ b) = padded_file a ++ padded_file b.
Proof. unfold padded_file. now rewrite map_app, concat_app. Qed.

(** X7.  In a block file of well-formed records with marker-free padding, the
    direct fetch at the position right after the k-th record's marker and
    length returns the k-th payload, the very record the linear scan yields
    k-th. *)
Theorem X7_direct_fetch_matches_scan
  (files : block_files) (file : Z) (records : list (bytes * bytes)) (trailer : bytes)
  (k : nat) (pad p : bytes) :
  Forall well_formed_record records ->
  no_marker_start trailer ->
  files file = Some (padded_file records ++ trailer) ->
  nth_error records k = Some (pad, p) ->
  exists yields,
    get_blocks (padded_file records ++ trailer) = Some (yields, Done)
    /\ nth_error yields k = Some p
    /\ get_block files file (len (padded_file (firstn k records)) + len pad + 8) = Ok p.
Proof.
  intros Hwf Ht Hf Hk.
  assert (Hsplit : records = firstn k records ++ (pad, p) :: skipn (S k) records).
  { rewrite <- (firstn_skipn k records) at 1. f_equal.
    clear - Hk. revert records Hk. induction k as [|k IH]; intros [|r records] Hk;
      try discriminate.
    - cbn in Hk. injection Hk as ->. reflexivity.
    - cbn [nth_error] in Hk. cbn [skipn]. now apply IH. }
  assert (Hp : len p < 2 ^ 32).
  { apply nth_error_In in Hk. rewrite Forall_forall in Hwf. now destruct (Hwf _ Hk). }
  assert (Hne : padded_file records ++ trailer <> []).
  { rewrite Hsplit, padded_file_app. unfold padded_file at 2. cbn [map List.concat fst snd].
    intros E. apply (f_equal (@List.length byte)) in E.
    unfold frame in E. rewrite !length_app in E. cbn [List.length BITCOIN_CONSTANT] in E.
    lia. }
  exists (map snd records). split; [|split].
  - now apply scan_padded_file.
  - rewrite nth_error_map, Hk. reflexivity.
  - replace (len (padded_file (firstn k records)) + len pad)
      with (len (padded_file (firstn k records) ++ pad)) by apply len_app.
    apply get_block_frame with (post := padded_file (skipn (S k) records) ++ trailer);
      [|exact Hp].
    rewrite Hf. rewrite Hsplit at 1. rewrite padded_file_app.
    unfold padded_file at 2. cbn [map List.concat fst snd].
    fold (padded_file (skipn (S k) records)). now rewrite <- !app_assoc.
Qed.

Lemma X7_direct_fetch_matches_scan_witness :
  Forall well_formed_record [([], [x00; xff]); ([x00; x00], [x0a; x00])]
  /\ no_marker_start [x00]
  /\ mkFiles
       (fun n => if n =? 7 then
                   Some (padded_file [([], [x00; xff]); ([x00; x00], [x0a; x00])] ++ [x00])
                 else None) 0 7
     = Some (padded_file [([], [x00; xff]); ([x00; x00], [x0a; x00])] ++ [x00])
  /\ nth_error [([], [x00; xff]); ([x00; x00], [x0a; x00])] 1 = Some ([x00; x00], [x0a; x00])
  /\ exists yields,
       get_blocks (padded_file [([], [x00; xff]); ([x00; x00], [x0a; x00])] ++ [x00])
       = Some (yields, Done)
       /\ nth_error yields 1 = Some [x0a; x00]
       /\ get_block
            (mkFiles
               (fun n => if n =? 7 then
                           Some (padded_file [([], [x00; xff]); ([x00; x00], [x0a; x00])]
                                   ++ [x00])
                         else None) 0) 7
            (len (padded_file (firstn 1 [([], [x00; xff]); ([x00; x00], [x0a; x00])]))
             + len [x00; x00] + 8)
          = Ok [x0a; x00].
Proof.
  assert (H1 : Forall well_formed_record [([], [x00; xff]); ([x00; x00], [x0a; x00])]).
  { repeat (apply Forall_cons; [split; [repeat constructor; discriminate
                                       | vm_compute; reflexivity]|]).
    apply Forall_nil. }
  assert (H2 : no_marker_start [x00]) by (repeat constructor; discriminate).
  split; [exact H1|]. split; [exact H2|]. split; [reflexivity|]. split; [reflexivity|].
  exact (X7_direct_fetch_matches_scan
           (mkFiles
              (fun n => if n =? 7 then
                          Some (padded_file [([], [x00; xff]); ([x00; x00], [x0a; x00])]
                                  ++ [x00])
                        else None) 0)
           7 _ [x00] 1 [x00; x00] [x0a; x00] H1 H2 eq_refl eq_refl).
Defined.

(** ** Listing the block files *)

Lemma string_compare_trans (a : string) :
  forall b c,
    String.compare a b <> Gt -> String.compare b c <> Gt -> String.compare a c <> Gt.
Proof.
  induction a as [|x a IH]; intros [|y b] [|z c]; cbn [String.compare];
    try congruence.
  unfold Ascii.compare.
  destruct (N.compare_spec (N_of_ascii x) (N_of_ascii y)) as [E1|L1|G1];
    destruct (N.compare_spec (N_of_ascii y) (N_of_ascii z)) as [E2|L2|G2];
    destruct (N.compare_spec (N_of_ascii x) (N_of_ascii z)) as [E3|L3|G3];
    try congruence; try lia.
  apply IH.
Qed.

Lemma leb_trans (a b c : string) :
  String.leb a b = true -> String.leb b c = true -> String.leb a c = true.
Proof.
  unfold String.leb. intros H1 H2.
  pose proof (string_compare_trans a b c) as H.
  destruct (String.compare a b); destruct (String.compare b c);
    destruct (String.compare a c); try reflexivity; try discriminate;
    exfalso; apply H; congruence.
Qed.

Lemma insert_string_perm (x : string) (l : list string) :
  Permutation (insert_string x l) (x :: l).
Proof.
  induction l as [|y l IH]; cbn [insert_string]; [apply Permutation_refl|].
  destruct (String.leb x y); [apply Permutation_refl|].
  apply perm_trans with (y :: x :: l); [now apply perm_skip | apply perm_swap].
Qed.

Lemma insert_string_sorted (x : string) (l : list string) :
  StronglySorted string_le l -> StronglySorted string_le (insert_string x l).
Proof.
  induction l as [|y l IH]; intros Hs; cbn [insert_string].
  - repeat constructor.
  - apply StronglySorted_inv in Hs as [Hs Hy].
    destruct (String.leb x y) eqn:Hxy.
    + constructor; [now constructor|]. constructor; [exact Hxy|].
      rewrite Forall_forall in *. intros z Hz. apply (leb_trans x y z Hxy). now apply Hy.
    + constructor; [now apply IH|].
      assert (Hyx : string_le y x)
        by (destruct (String.leb_total x y) as [H|H]; [congruence | exact H]).
      rewrite Forall_forall in *. intros z Hz.
      apply (Permutation_in _ (insert_string_perm x l)) in Hz. destruct Hz as [<-|Hz];
        [exact Hyx | now apply Hy].
Qed.

Lemma sorted_strings_perm (l : list string) : Permutation (sorted_strings l) l.
Proof.
  induction l as [|x l IH]; [apply Permutation_refl|].
  cbn [sorted_strings fold_right]. fold (sorted_strings l).
  apply perm_trans with (x :: sorted_strings l);
    [apply insert_string_perm | now apply perm_skip].
Qed.

Lemma sorted_strings_sorted (l : list string) : StronglySorted string_le (sorted_strings l).
Proof.
  induction l as [|x l IH]; [constructor|].
  cbn [sorted_strings fold_right]. fold (sorted_strings l). now apply insert_string_sorted.
Qed.

Lemma leb_refl (a : string) : String.leb a a = true.
Proof. destruct (String.leb_total a a); assumption. Qed.

Lemma strongly_sorted_nth {A : Type} (R : A -> A -> Prop) (l : list A) :
  (forall a, R a a) -> StronglySorted R l ->
  forall i j a b, (i <= j)%nat -> nth_error l i = Some a -> nth_error l j = Some b -> R a b.
Proof.
  intros Hrefl. induction l as [|x l IH]; intros Hs i j a b Hij Hi Hj.
  - destruct i; discriminate.
  - apply StronglySorted_inv in Hs as [Hs Hx].
    destruct i as [|i], j as [|j]; cbn [nth_error] in Hi, Hj.
    + injection Hi as <-. injection Hj as <-. apply Hrefl.
    + injection Hi as <-. rewrite Forall_forall in Hx. apply Hx.
      now apply nth_error_In in Hj.
    + lia.
    + apply (IH Hs i j); try assumption. lia.
Qed.

Lemma strongly_sorted_ascending (l : list string) :
  StronglySorted string_le l -> strings_ascending l.
Proof. intros Hs. exact (strongly_sorted_nth string_le l leb_refl Hs). Qed.

(** Two sorted lists with the same members, counted, are one list. *)
Lemma sorted_unique (l1 : list string) :
  forall l2,
    StronglySorted string_le l1 -> StronglySorted string_le l2 ->
    Permutation l1 l2 -> l1 = l2.
Proof.
  induction l1 as [|a l1 IH]; intros l2 H1 H2 Hp.
  - now apply Permutation_nil in Hp.
  - destruct l2 as [|b l2]; [apply Permutation_sym, Permutation_nil in Hp; discriminate|].
    apply StronglySorted_inv in H1 as [H1 Ha]. apply StronglySorted_inv in H2 as [H2 Hb].
    rewrite Forall_forall in Ha, Hb.
    assert (Hab : a = b).
    { assert (Hin_a : In a (b :: l2)) by (apply (Permutation_in _ Hp); now left).
      assert (Hin_b : In b (a :: l1))
        by (apply (Permutation_in _ (Permutation_sym Hp)); now left).
      destruct Hin_a as [E|Hin_a]; [now symmetry|].
      destruct Hin_b as [E|Hin_b]; [exact E|].
      apply String.leb_antisym; [now apply Ha | now apply Hb]. }
    subst b. f_equal. apply IH; try assumption. now apply Permutation_cons_inv in Hp.
Qed.

Lemma filter_perm {A : Type} (f : A -> bool) (l1 l2 : list A) :
  Permutation l1 l2 -> Permutation (filter f l1) (filter f l2).
Proof.
  induction 1 as [|x l1 l2 Hp IH|x y l|l1 l2 l3 H12 IH12 H23 IH23]; cbn [filter].
  - apply Permutation_refl.
  - destruct (f x); [now apply perm_skip | exact IH].
  - destruct (f x), (f y); try apply Permutation_refl. apply perm_swap.
  - now apply perm_trans with (filter f l2).
Qed.

(** X8.  For a directory, [get_files] returns the joined paths of exactly
    the listed names that start with "blk" and end with ".dat", each as often
    as it is listed, in ascending string order; for a path that is not a
    directory it returns that path alone. *)
Theorem X8_get_files_lists_block_files (path : string) (listing : list string) :
  (exists files,
      get_files path (Some (Directory listing)) = Ok files
      /\ strings_ascending files
      /\ Permutation files (map (fun x => path_join path x) (filter is_blk_file listing))
      /\ (forall f,
             In f files <->
             exists name, In name listing
                          /\ startswith name "blk" = true /\ endswith name ".dat" = true
                          /\ f = path_join path name))
  /\ get_files path (Some NotDirectory) = Ok [path]
  /\ get_files path None = Err FileNotFoundError.
Proof.
  split; [|split; reflexivity].
  eexists. split; [reflexivity|]. split; [|split].
  - apply strongly_sorted_ascending, sorted_strings_sorted.
  - apply sorted_strings_perm.
  - intros f. split.
    + intros Hf. apply (Permutation_in _ (sorted_strings_perm _)) in Hf.
      apply in_map_iff in Hf as (name & <- & Hn). apply filter_In in Hn as [Hn Hb].
      unfold is_blk_file in Hb. apply andb_true_iff in Hb as [Hs He].
      exists name. repeat split; assumption.
    + intros (name & Hn & Hs & He & ->).
      apply (Permutation_in _ (Permutation_sym (sorted_strings_perm _))).
      apply in_map_iff. exists name. split; [reflexivity|].
      apply filter_In. split; [exact Hn|]. unfold is_blk_file. now rewrite Hs, He.
Qed.

(** X9.  The result of [get_files] does not depend on the order in which the
    directory lists its entries. *)
Theorem X9_get_files_listing_order (path : string) (listing listing' : list string) :
  Permutation listing listing' ->
  get_files path (Some (Directory listing)) = get_files path (Some (Directory listing')).
Proof.
  intros Hp. cbn [get_files]. f_equal. apply sorted_unique.
  - apply sorted_strings_sorted.
  - apply sorted_strings_sorted.
  - apply perm_trans with (map (fun x => path_join path x) (filter is_blk_file listing));
      [apply sorted_strings_perm|].
    apply perm_trans with (map (fun x => path_join path x) (filter is_blk_file listing'));
      [|apply Permutation_sym, sorted_strings_perm].
    now apply Permutation_map, filter_perm.
Qed.

Lemma X9_get_files_listing_order_witness :
  Permutation ["blk00001.dat"; "rev00000.dat"; "blk00000.dat"]%string
              ["blk00000.dat"; "blk00001.dat"; "rev00000.dat"]%string
  /\ get_files "blocks" (Some (Directory ["blk00001.dat"; "rev00000.dat"; "blk00000.dat"]%string))
     = Ok ["blocks/blk00000.dat"; "blocks/blk00001.dat"]%string.
Proof.
  assert (H : Permutation ["blk00001.dat"; "rev00000.dat"; "blk00000.dat"]%string
                          ["blk00000.dat"; "blk00001.dat"; "rev00000.dat"]%string).
  { apply perm_trans with ["blk00001.dat"; "blk00000.dat"; "rev00000.dat"]%string.
    - apply perm_skip, perm_swap.
    - apply perm_swap. }
  split; [exact H|].
  rewrite (X9_get_files_listing_order "blocks" _ _ H). reflexivity.
Defined.

(** ** Unordered iteration *)

Lemma unordered_loop_good (read : string -> res bytes) (names : list string) :
  forall (layouts : list (list (bytes * bytes) * bytes)) (rest : list string),
    Forall2 (good_block_file read) names layouts ->
    unordered_loop read (names ++ rest)
    = match unordered_loop read rest with
      | Some (blocks, e) => Some (blocks_of_layouts layouts ++ blocks, e)
      | None => None
      end.
Proof.
  induction names as [|name names IH]; intros layouts rest H.
  - inversion H; subst. cbn [app]. unfold blocks_of_layouts. cbn [flat_map map app].
    destruct (unordered_loop read rest) as [[blocks e]|]; reflexivity.
  - inversion H as [|? layout ? layouts' (Hr & Hwf & Ht & Hne) H']; subst.
    cbn [app unordered_loop]. rewrite Hr.
    rewrite (scan_padded_file (fst layout) (snd layout) Hwf Ht Hne).
    rewrite (IH layouts' rest H').
    destruct (unordered_loop read rest) as [[blocks e]|]; [|reflexivity].
    unfold blocks_of_layouts. cbn [flat_map]. now rewrite !map_app, <- app_assoc.
Qed.

(** X10.  When every block file of a directory is a non-empty file of
    well-formed records, the unordered iteration yields the records of the
    files taken in ascending name order, each file's records in file order,
    as blocks without a height, and ends normally. *)
Theorem X10_unordered_blocks_in_file_order
  (path : string) (listing : list string) (read : string -> res bytes)
  (files : list string) (layouts : list (list (bytes * bytes) * bytes)) :
  get_files path (Some (Directory listing)) = Ok files ->
  Forall2 (good_block_file read) files layouts ->
  get_unordered_blocks path (Some (Directory listing)) read
  = Some (blocks_of_layouts layouts, Done)
  /\ Forall (fun b => blk_height b = None) (blocks_of_layouts layouts).
Proof.
  intros Hf Hg. split.
  - unfold get_unordered_blocks. rewrite Hf.
    rewrite <- (app_nil_r files), (unordered_loop_good read files layouts [] Hg).
    cbn [unordered_loop]. now rewrite app_nil_r.
  - unfold blocks_of_layouts. apply Forall_map. apply Forall_forall. reflexivity.
Qed.

Lemma sample_files_good :
  Forall2 (good_block_file sample_read)
    ["blocks/blk00000.dat"; "blocks/blk00001.dat"]%string
    [([([], [x01])], []); ([([x00], [x02])], [x00])].
Proof.
  constructor; [|constructor; [|constructor]].
  - split; [reflexivity|]. split; [|split].
    + repeat constructor.
    + constructor.
    + discriminate.
  - split; [reflexivity|]. split; [|split].
    + constructor; [|constructor]. split; [|vm_compute; reflexivity].
      constructor; [discriminate | constructor].
    + constructor; [discriminate | constructor].
    + discriminate.
Qed.

Lemma X10_unordered_blocks_in_file_order_witness :
  get_files "blocks" (Some (Directory sample_listing))
  = Ok ["blocks/blk00000.dat"; "blocks/blk00001.dat"]%string
  /\ Forall2 (good_block_file sample_read)
       ["blocks/blk00000.dat"; "blocks/blk00001.dat"]%string
       [([([], [x01])], []); ([([x00], [x02])], [x00])]
  /\ get_unordered_blocks "blocks" (Some (Directory sample_listing)) sample_read
     = Some ([mkBlock [x01] None; mkBlock [x02] None], Done).
Proof.
  assert (H1 : get_files "blocks" (Some (Directory sample_listing))
               = Ok ["blocks/blk00000.dat"; "blocks/blk00001.dat"]%string) by reflexivity.
  exact (conj H1 (conj sample_files_good
           (proj1 (X10_unordered_blocks_in_file_order "blocks" sample_listing sample_read
                     _ _ H1 sample_files_good)))).
Defined.

(** X11.  The unordered iteration ends at the first block file that is empty
    ([mmap] raises [ValueError]) or cannot be opened: the blocks of the files
    before it have been yielded, and no later file is read, whatever it holds. *)
Theorem X11_unordered_blocks_stop_at_bad_file
  (path : string) (listing : list string) (read : string -> res bytes)
  (good : list string) (bad : string) (later : list string)
  (layouts : list (list (bytes * bytes) * bytes)) :
  get_files path (Some (Directory listing)) = Ok (good ++ bad :: later) ->
  Forall2 (good_block_file read) good layouts ->
  (read bad = Ok [] ->
   get_unordered_blocks path (Some (Directory listing)) read
   = Some (blocks_of_layouts layouts, Raised ValueError))
  /\ (forall e, read bad = Err e ->
                get_unordered_blocks path (Some (Directory listing)) read
                = Some (blocks_of_layouts layouts, Raised e)).
Proof.
  intros Hf Hg. unfold get_unordered_blocks. rewrite Hf.
  rewrite (unordered_loop_good read good layouts (bad :: later) Hg).
  cbn [unordered_loop]. split.
  - intros Hb. rewrite Hb. cbn [get_blocks map]. now rewrite app_nil_r.
  - intros e Hb. rewrite Hb. now rewrite app_nil_r.
Qed.

Lemma X11_unordered_blocks_stop_at_bad_file_witness :
  get_files "blocks" (Some (Directory ("blk00002.dat"%string :: sample_listing)))
  = Ok (["blocks/blk00000.dat"]%string
        ++ "blocks/blk00001.dat"%string :: ["blocks/blk00002.dat"]%string)
  /\ Forall2 (good_block_file sample_read_empty) ["blocks/blk00000.dat"]%string
       [([([], [x01])], [])]
  /\ get_unordered_blocks "blocks"
       (Some (Directory ("blk00002.dat"%string :: sample_listing))) sample_read_empty
     = Some ([mkBlock [x01] None], Raised ValueError).
Proof.
  assert (H1 : get_files "blocks" (Some (Directory ("blk00002.dat"%string :: sample_listing)))
               = Ok (["blocks/blk00000.dat"]%string
                     ++ "blocks/blk00001.dat"%string :: ["blocks/blk00002.dat"]%string))
    by reflexivity.
  assert (H2 : Forall2 (good_block_file sample_read_empty) ["blocks/blk00000.dat"]%string
                 [([([], [x01])], [])]).
  { constructor; [|constructor]. split; [reflexivity|]. split; [|split].
    - repeat constructor.
    - constructor.
    - discriminate. }
  exact (conj H1 (conj H2
           (proj1 (X11_unordered_blocks_stop_at_bad_file "blocks" _ sample_read_empty
                     _ _ _ _ H1 H2) eq_refl))).
Defined.

(** ** Ordered iteration: where it stops, and bounds out of range *)

Lemma ordered_loop_app (files : block_files) (pre : list DBBlockIndex) :
  forall tail,
    Forall (fetchable files) pre ->
    exists ys,
      Forall2 (fun e b => Block_at files e = Ok b) pre ys
      /\ ordered_loop files (pre ++ tail)
         = (ys ++ fst (ordered_loop files tail), snd (ordered_loop files tail)).
Proof.
  induction pre as [|e pre IH]; intros tail H.
  - exists []. split; [constructor|]. cbn [app]. now destruct (ordered_loop files tail).
  - apply Forall_cons_iff in H as [[Hd [b Hb]] H].
    destruct (IH tail H) as (ys & HF & Hl).
    exists (b :: ys). split; [now constructor|].
    cbn [app ordered_loop]. rewrite Hd, Hb, Hl. reflexivity.
Qed.

(** X12.  Ordered iteration walks its window until the first entry marked as
    not on disk and ends there without an error: the entries after it are not
    yielded even when they are on disk.  An entry that is on disk but cannot
    be fetched ends the iteration with the exception of the fetch. *)
Theorem X12_ordered_iteration_stops_at_missing_block
  (self : Blockchain) (idx : list DBBlockIndex) (start : Z) (end_ : option Z)
  (pre : list DBBlockIndex) (e : DBBlockIndex) (post : list DBBlockIndex) :
  blockIndexes self = Some idx ->
  ordered_window idx start end_ = pre ++ e :: post ->
  Forall (fetchable (path self)) pre ->
  exists ys,
    Forall2 (fun entry b => Block_at (path self) entry = Ok b) pre ys
    /\ (not_on_disk e = true -> get_ordered_blocks self start end_ = (ys, Done))
    /\ (forall x, not_on_disk e = false -> Block_at (path self) e = Err x ->
                  get_ordered_blocks self start end_ = (ys, Raised x)).
Proof.
  intros Hidx Hw Hpre.
  destruct (ordered_loop_app (path self) pre (e :: post) Hpre) as (ys & HF & Hl).
  exists ys. split; [exact HF|]. unfold get_ordered_blocks. rewrite Hidx, Hw, Hl.
  cbn [ordered_loop]. split.
  - intros Hd. rewrite Hd. cbn [fst snd]. now rewrite app_nil_r.
  - intros x Hd Hb. rewrite Hd, Hb. cbn [fst snd]. now rewrite app_nil_r.
Qed.

Lemma X12_ordered_iteration_stops_at_missing_block_witness :
  blockIndexes (sample_chain [sample_entry x00 0 0; mkIndex "0a"%string 1 (-1) (-1);
                              sample_entry x0b 1 2])
  = Some [sample_entry x00 0 0; mkIndex "0a"%string 1 (-1) (-1); sample_entry x0b 1 2]
  /\ ordered_window [sample_entry x00 0 0; mkIndex "0a"%string 1 (-1) (-1);
                     sample_entry x0b 1 2] 0 None
     = [sample_entry x00 0 0] ++ mkIndex "0a"%string 1 (-1) (-1) :: [sample_entry x0b 1 2]
  /\ Forall (fetchable sample_files) [sample_entry x00 0 0]
  /\ get_ordered_blocks
       (sample_chain [sample_entry x00 0 0; mkIndex "0a"%string 1 (-1) (-1);
                      sample_entry x0b 1 2]) 0 None
     = ([mkBlock [x00; xff] (Some 0)], Done).
Proof.
  assert (H3 : Forall (fetchable sample_files) [sample_entry x00 0 0]).
  { constructor; [|constructor]. split; [reflexivity | eexists; vm_compute; reflexivity]. }
  split; [reflexivity|]. split; [reflexivity|]. split; [exact H3|].
  destruct (X12_ordered_iteration_stops_at_missing_block
              (sample_chain [sample_entry x00 0 0; mkIndex "0a"%string 1 (-1) (-1);
                             sample_entry x0b 1 2])
              _ 0 None [sample_entry x00 0 0] (mkIndex "0a"%string 1 (-1) (-1))
              [sample_entry x0b 1 2] eq_refl eq_refl H3) as (ys & HF & Hstop & _).
  rewrite (Hstop eq_refl). f_equal.
  inversion HF as [|? b ? ys' Hb HF']; subst. inversion HF'; subst.
  vm_compute in Hb. congruence.
Defined.

Lemma len_rev {A : Type} (l : list A) : len (rev l) = len l.
Proof. unfold len. now rewrite length_rev. Qed.

Lemma py_slice_clamped {A : Type} (l : list A) (a b : Z) :
  0 <= a <= len l -> len l <= b -> py_slice l a b = skipn (Z.to_nat a) l.
Proof. intros Ha Hb. now apply py_slice_to_end. Qed.

Lemma py_slice_negative_start {A : Type} (l : list A) (a b : Z) :
  - len l <= a < 0 -> py_slice l a b = py_slice l (a + len l) b.
Proof.
  intros Ha. unfold py_slice, adjust_index.
  replace (a <? 0) with true by (symmetry; apply Z.ltb_lt; lia).
  replace (a + len l <? 0) with false by (symmetry; apply Z.ltb_ge; lia).
  rewrite (Z.max_r 0 (a + len l)) by lia. rewrite (Z.min_l (a + len l)) by lia.
  reflexivity.
Qed.

(** X13.  Bounds outside the index follow Python's slicing, before and after
    the reversal.  An end beyond the length stops at the last entry; a
    negative start with no end gives the last [-start] entries; a negative end
    turns the iteration around and gives the first [start] entries backwards;
    and a start beyond the length L, up to 2L, with an end in range gives the
    entries below position [start - L] backwards, so asking for more than all
    entries backwards gives fewer. *)
Theorem X13_ordered_window_out_of_range (idx : list DBBlockIndex) (start end_ : Z) :
  (0 <= start <= len idx -> len idx <= end_ ->
   ordered_window idx start (Some end_) = skipn (Z.to_nat start) idx)
  /\ (- len idx <= start < 0 ->
      ordered_window idx start None = skipn (Z.to_nat (len idx + start)) idx)
  /\ (end_ < 0 -> 0 <= start <= len idx ->
      ordered_window idx start (Some end_) = rev (firstn (Z.to_nat start) idx))
  /\ (len idx < start <= 2 * len idx -> 0 <= end_ <= len idx ->
      ordered_window idx start (Some end_)
      = rev (firstn (Z.to_nat (start - len idx - end_)) (skipn (Z.to_nat end_) idx))).
Proof.
  pose proof (len_nonneg idx) as HL. split; [|split; [|split]].
  - intros Hs He. unfold ordered_window.
    replace (end_ <? start) with false by (symmetry; apply Z.ltb_ge; lia).
    apply py_slice_clamped; lia.
  - intros Hs. unfold ordered_window.
    replace (len idx <? start) with false by (symmetry; apply Z.ltb_ge; lia).
    rewrite py_slice_negative_start by lia.
    rewrite py_slice_clamped by lia. f_equal. lia.
  - intros He Hs. unfold ordered_window.
    replace (end_ <? start) with true by (symmetry; apply Z.ltb_lt; lia).
    rewrite py_slice_clamped by (rewrite len_rev; lia).
    rewrite len_rev, skipn_rev. do 2 f_equal. unfold len in *. lia.
  - intros Hs He. unfold ordered_window.
    replace (end_ <? start) with true by (symmetry; apply Z.ltb_lt; lia).
    rewrite py_slice_negative_start by (rewrite len_rev; lia).
    destruct (Z.lt_ge_cases end_ (start - len idx)) as [Hlt | Hge].
    + replace (len (rev idx) - start + len (rev idx))
        with (len (rev idx) - (start - len idx)) by (rewrite len_rev; lia).
      rewrite reversed_slice by lia. do 2 f_equal; lia.
    + replace (Z.to_nat (start - len idx - end_)) with 0%nat by lia.
      cbn [firstn rev]. unfold py_slice, adjust_index. rewrite len_rev.
      replace (len idx - start + len idx <? 0) with false by (symmetry; apply Z.ltb_ge; lia).
      replace (len idx - end_ <? 0) with false by (symmetry; apply Z.ltb_ge; lia).
      replace (Z.to_nat (Z.min (len idx - end_) (len idx)
                         - Z.min (len idx - start + len idx) (len idx))) with 0%nat by lia.
      reflexivity.
Qed.

(** X14.  Height lookup follows Python's indexing: a height from [-L] to
    [-1] selects the entry [L + height] (counting from the newest), and a
    height of [L] or more, or below [-L], raises [IndexError]. *)
Theorem X14_height_lookup_index_range
  (self : Blockchain) (idx : list DBBlockIndex) (h : Z) :
  blockIndexes self = Some idx ->
  (- len idx <= h < 0 -> get_block_by_height self h = get_block_by_height self (h + len idx))
  /\ (len idx <= h \/ h < - len idx -> get_block_by_height self h = Err IndexError)
  /\ (0 <= h < len idx -> get_block_by_height self h <> Err IndexError).
Proof.
  intros Hidx. pose proof (len_nonneg idx). unfold get_block_by_height. rewrite Hidx.
  split; [|split].
  - intros Hh. f_equal. unfold py_index. cbv zeta.
    assert (E1 : (h <? 0) = true) by (apply Z.ltb_lt; lia).
    assert (E2 : (h + len idx <? 0) = false) by (apply Z.ltb_ge; lia).
    rewrite E1, !E2. reflexivity.
  - intros Hh. unfold py_index. cbv zeta.
    destruct (h <? 0) eqn:Hneg.
    + apply Z.ltb_lt in Hneg.
      assert (E : (h + len idx <? 0) = true) by (apply Z.ltb_lt; lia).
      rewrite E. reflexivity.
    + apply Z.ltb_ge in Hneg.
      assert (E : (len idx <=? h) = true) by (apply Z.leb_le; lia).
      rewrite E, orb_true_r. reflexivity.
  - intros Hh. unfold py_index. cbv zeta.
    assert (E1 : (h <? 0) = false) by (apply Z.ltb_ge; lia).
    assert (E2 : (len idx <=? h) = false) by (apply Z.leb_gt; lia).
    rewrite !E1, E2. cbn [orb].
    destruct (nth_error idx (Z.to_nat h)) as [e|] eqn:He.
    + cbn [bind]. destruct (not_on_disk e); [discriminate|].
      unfold Block_at. destruct (get_block (path self) (file e) (data_pos e)) as [raw|x] eqn:Hg;
        cbn [bind]; [discriminate|].
      intros E. injection E as ->.
      destruct (get_block_errors _ _ _ _ Hg) as [E | [E | [E | E]]]; discriminate.
    + apply nth_error_None in He. unfold len in Hh. lia.
Qed.

Lemma X14_height_lookup_index_range_witness :
  blockIndexes (sample_chain dense_index) = Some dense_index
  /\ get_block_by_height (sample_chain dense_index) (-1)
     = get_block_by_height (sample_chain dense_index) (-1 + len dense_index)
  /\ get_block_by_height (sample_chain dense_index) 4 = Err IndexError.
Proof.
  assert (H : blockIndexes (sample_chain dense_index) = Some dense_index) by reflexivity.
  split; [exact H|]. split.
  - apply (proj1 (X14_height_lookup_index_range _ dense_index (-1) H)).
    vm_compute. split; [discriminate | reflexivity].
  - apply (proj1 (proj2 (X14_height_lookup_index_range _ dense_index 4 H))).
    left. vm_compute. discriminate.
Defined.

(** ** Sorting the index *)

Lemma insert_by_height_perm (x : DBBlockIndex) (l : list DBBlockIndex) :
  Permutation (insert_by_height x l) (x :: l).
Proof.
  induction l as [|y l IH]; cbn [insert_by_height]; [apply Permutation_refl|].
  destruct (height x <=? height y); [apply Permutation_refl|].
  apply perm_trans with (y :: x :: l); [now apply perm_skip | apply perm_swap].
Qed.

Lemma insert_by_height_sorted (x : DBBlockIndex) (l : list DBBlockIndex) :
  StronglySorted height_le l -> StronglySorted height_le (insert_by_height x l).
Proof.
  induction l as [|y l IH]; intros Hs; cbn [insert_by_height].
  - repeat constructor.
  - apply StronglySorted_inv in Hs as [Hs Hy].
    destruct (height x <=? height y) eqn:Hxy.
    + apply Z.leb_le in Hxy. constructor; [now constructor|]. constructor; [exact Hxy|].
      rewrite Forall_forall in *. intros z Hz. specialize (Hy z Hz).
      unfold height_le in *. lia.
    + apply Z.leb_gt in Hxy. constructor; [now apply IH|].
      rewrite Forall_forall in *. intros z Hz.
      apply (Permutation_in _ (insert_by_height_perm x l)) in Hz. destruct Hz as [<-|Hz];
        [unfold height_le; lia | now apply Hy].
Qed.

Lemma insert_by_height_stable (h : Z) (x : DBBlockIndex) (l : list DBBlockIndex) :
  filter (fun e => height e =? h) (insert_by_height x l)
  = filter (fun e => height e =? h) (x :: l).
Proof.
  induction l as [|y l IH]; [reflexivity|].
  cbn [insert_by_height]. destruct (height x <=? height y) eqn:Hxy; [reflexivity|].
  apply Z.leb_gt in Hxy. cbn [filter] in *. rewrite IH.
  destruct (height x =? h) eqn:Hx, (height y =? h) eqn:Hy; try reflexivity.
  apply Z.eqb_eq in Hx, Hy. lia.
Qed.

(** X15.  The sort of line 169 is a stable sort by height: the sorted list
    is a rearrangement of the loaded one, heights ascend along it, and the
    entries of any one height keep the order they had. *)
Theorem X15_sort_by_height_is_stable (l : list DBBlockIndex) :
  Permutation (sort_by_height l) l
  /\ ascending (map height (sort_by_height l))
  /\ (forall h, filter (fun e => height e =? h) (sort_by_height l)
                = filter (fun e => height e =? h) l).
Proof.
  split; [|split].
  - induction l as [|x l IH]; [apply Permutation_refl|].
    cbn [sort_by_height fold_right]. fold (sort_by_height l).
    apply perm_trans with (x :: sort_by_height l);
      [apply insert_by_height_perm | now apply perm_skip].
  - assert (Hs : StronglySorted height_le (sort_by_height l)).
    { induction l as [|x l IH]; [constructor|].
      cbn [sort_by_height fold_right]. fold (sort_by_height l).
      now apply insert_by_height_sorted. }
    intros i j a b Hij Hi Hj.
    rewrite nth_error_map in Hi, Hj.
    destruct (nth_error (sort_by_height l) i) as [ea|] eqn:Ea; [|discriminate].
    destruct (nth_error (sort_by_height l) j) as [eb|] eqn:Eb; [|discriminate].
    injection Hi as <-. injection Hj as <-.
    apply (strongly_sorted_nth height_le (sort_by_height l)
             (fun e => Z.le_refl (height e)) Hs i j ea eb Hij Ea Eb).
  - intros h. induction l as [|x l IH]; [reflexivity|].
    cbn [sort_by_height fold_right]. fold (sort_by_height l).
    rewrite insert_by_height_stable. cbn [filter]. now rewrite IH.
Qed.

(** ** Pruning: what it leaves alone *)

Section Pruning.

Variable codec : block_codec.
Variable files : block_files.
Variable idx : list DBBlockIndex.

Lemma orphans_loop_no_repeat (todo : list DBBlockIndex) :
  forall (i : nat) (last_height : Z) (orphans : list string),
    match todo with
    | [] => True
    | b :: _ => height b <> last_height \/ last_height <= -1
    end ->
    no_repeated_height todo ->
    orphans_loop codec files idx i todo last_height orphans = Ok orphans.
Proof.
  induction todo as [|b todo IH]; intros i last_height orphans Hhead Hno; [reflexivity|].
  cbn [orphans_loop].
  replace ((last_height >? -1) && (height b =? last_height)) with false.
  - destruct Hno as [Hb Hno]. apply IH; [|exact Hno].
    destruct todo as [|b' todo]; [exact I | now left].
  - symmetry. apply andb_false_iff. destruct Hhead as [H|H].
    + right. now apply Z.eqb_neq.
    + left. rewrite Z.gtb_ltb. apply Z.ltb_ge. lia.
Qed.

Lemma orphans_loop_origin (todo : list DBBlockIndex) :
  forall (i : nat) (last_height : Z) (orphans res : list string),
    todo = skipn i idx ->
    (i = 0%nat /\ last_height = -1
     \/ exists j a, i = S j /\ nth_error idx j = Some a /\ height a = last_height) ->
    Forall (of_repeated_height idx) orphans ->
    orphans_loop codec files idx i todo last_height orphans = Ok res ->
    Forall (of_repeated_height idx) res.
Proof.
  induction todo as [|b todo IH]; intros i last_height orphans res Htodo Hinv Hall H.
  - injection H as <-. exact Hall.
  - symmetry in Htodo. destruct (skipn_cons_nth idx i b todo Htodo) as [Hb Htodo'].
    assert (Hnext : S i = 0%nat /\ height b = -1
                    \/ exists j a, S i = S j /\ nth_error idx j = Some a
                                   /\ height a = height b)
      by (right; exists i, b; repeat split; assumption).
    cbn [orphans_loop] in H.
    destruct ((last_height >? -1) && (height b =? last_height)) eqn:Hc.
    + apply andb_true_iff in Hc as [Hgt Heq]. apply Z.eqb_eq in Heq.
      apply Z.gtb_lt in Hgt.
      destruct Hinv as [[_ Hl] | (j & a & -> & Ha & Hh)]; [lia|].
      destruct (_index_confirmed codec files (skipn (S j) idx)) as [r|x]; [|discriminate].
      cbn [bind] in H. revert H. apply IH; [now symmetry | exact Hnext |].
      assert (Hrep : of_repeated_height idx (hash a) /\ of_repeated_height idx (hash b)).
      { split; exists j, a, b; repeat split; try assumption; try lia; auto. }
      replace (S j - 1)%nat with j by lia.
      rewrite (nth_error_nth idx j b Ha), (nth_error_nth idx (S j) b Hb).
      destruct (truthy r); apply Forall_app; (split; [exact Hall|]);
        constructor; try constructor; apply Hrep.
    + revert H. apply IH; [now symmetry | exact Hnext | exact Hall].
Qed.

End Pruning.

Lemma ascending_cons (x : Z) (l : list Z) :
  ascending (x :: l) <-> Forall (fun y => x <= y) l /\ ascending l.
Proof.
  split.
  - intros H. split.
    + apply Forall_forall. intros y Hy. apply In_nth_error in Hy as [j Hj].
      apply (H 0%nat (S j)); [lia | reflexivity | exact Hj].
    + intros i j a b Hij Hi Hj. apply (H (S i) (S j)); [lia | exact Hi | exact Hj].
  - intros [Hx Hl] i j a b Hij Hi Hj. rewrite Forall_forall in Hx.
    destruct i as [|i], j as [|j]; cbn [nth_error] in Hi, Hj.
    + injection Hi as <-. injection Hj as <-. lia.
    + injection Hi as <-. apply Hx. now apply nth_error_In in Hj.
    + lia.
    + apply (Hl i j); try assumption. lia.
Qed.

Lemma ascending_filter (f : DBBlockIndex -> bool) (l : list DBBlockIndex) :
  ascending (map height l) -> ascending (map height (filter f l)).
Proof.
  induction l as [|x l IH]; intros H; [exact H|].
  cbn [map] in H. apply ascending_cons in H as [Hx Hl]. cbn [filter].
  destruct (f x); [|now apply IH].
  cbn [map]. apply ascending_cons. split; [|now apply IH].
  rewrite Forall_forall in *. intros y Hy. apply Hx.
  apply in_map_iff in Hy as (e & <- & He). apply filter_In in He as [He _].
  apply in_map_iff. now exists e.
Qed.

(** X16.  An index in which no entry has the height of the entry before it
    comes out of pruning unchanged, and no block file is read for it. *)
Theorem X16_pruning_without_fork_is_identity
  (codec : block_codec) (files : block_files) (idx : list DBBlockIndex) :
  no_repeated_height idx ->
  prune_orphans codec files idx = Ok idx.
Proof.
  intros Hno. unfold prune_orphans.
  rewrite (orphans_loop_no_repeat codec files idx idx 0 (-1) []); [|destruct idx|exact Hno].
  - cbn [bind]. f_equal. induction idx as [|x l IH]; [reflexivity|].
    cbn [filter string_in negb]. f_equal. apply IH. now destruct Hno.
  - exact I.
  - right. lia.
Qed.

Lemma X16_pruning_without_fork_is_identity_witness :
  no_repeated_height dense_index
  /\ prune_orphans sample_codec (mkFiles (fun _ => None) 0) dense_index = Ok dense_index.
Proof.
  assert (H : no_repeated_height dense_index)
    by (cbn; repeat split; discriminate).
  exact (conj H (X16_pruning_without_fork_is_identity sample_codec (mkFiles (fun _ => None) 0)
                   dense_index H)).
Defined.

(** X17.  Pruning only removes entries: what it returns is made of entries
    of the index, is no longer, and keeps heights ascending; and every entry
    it removes carries the hash of one of two neighbouring entries of equal
    height. *)
Theorem X17_pruning_only_removes_fork_hashes
  (codec : block_codec) (files : block_files) (idx pruned : list DBBlockIndex) :
  prune_orphans codec files idx = Ok pruned ->
  (forall e, In e pruned -> In e idx)
  /\ len pruned <= len idx
  /\ (ascending (map height idx) -> ascending (map height pruned))
  /\ (forall e, In e idx -> ~ In e pruned ->
                exists j a b,
                  nth_error idx j = Some a /\ nth_error idx (S j) = Some b
                  /\ height b = height a /\ (hash e = hash a \/ hash e = hash b)).
Proof.
  unfold prune_orphans. intros H.
  destruct (orphans_loop codec files idx 0 idx (-1) []) as [orphans|x] eqn:Ho;
    [|discriminate].
  cbn [bind] in H. injection H as <-. split; [|split; [|split]].
  - intros e He. now apply filter_In in He.
  - unfold len. pose proof (filter_length_le
      (fun block => negb (string_in (hash block) orphans)) idx). lia.
  - apply ascending_filter.
  - intros e He Hout.
    assert (Hin : string_in (hash e) orphans = true).
    { destruct (string_in (hash e) orphans) eqn:E; [reflexivity|].
      exfalso. apply Hout. apply filter_In. split; [exact He|]. now rewrite E. }
    apply string_in_iff in Hin.
    pose proof (orphans_loop_origin codec files idx idx 0 (-1) [] orphans eq_refl
                  (or_introl (conj eq_refl eq_refl)) (Forall_nil _) Ho) as Hall.
    rewrite Forall_forall in Hall. exact (Hall _ Hin).
Qed.

Lemma X17_pruning_only_removes_fork_hashes_witness :
  prune_orphans sample_codec sample_files three_way_index = Ok three_way_pruned
  /\ len three_way_pruned <= len three_way_index.
Proof.
  assert (H : prune_orphans sample_codec sample_files three_way_index = Ok three_way_pruned)
    by (vm_compute; reflexivity).
  exact (conj H (proj1 (proj2 (X17_pruning_only_removes_fork_hashes _ _ _ _ H)))).
Defined.

(** ** Confirmation needs six blocks *)

Lemma grow_chains_short (first_hash bhash bprev : string) (m : Z)
  (chains : list (list string)) :
  m + 1 < 6 ->
  Forall (fun c => len c <= m) chains ->
  exists chains',
    grow_chains 6 first_hash bhash bprev chains = inl chains'
    /\ Forall (fun c => len c <= m + 1) chains'.
Proof.
  intros Hm. induction chains as [|chain chains IH]; intros Hall.
  - exists []. split; [reflexivity | constructor].
  - apply Forall_cons_iff in Hall as [Hc Hall]. destruct (IH Hall) as (chains' & Hg & Hb).
    cbn [grow_chains].
    set (chain' := if String.eqb (last chain EmptyString) bprev
                   then chain ++ [bhash] else chain).
    assert (Hc' : len chain' <= m + 1).
    { subst chain'. destruct (String.eqb (last chain EmptyString) bprev).
      - rewrite len_app. change (len [bhash]) with 1. lia.
      - lia. }
    replace (len chain' =? 6) with false by (symmetry; apply Z.eqb_neq; lia).
    rewrite Hg. exists (chain' :: chains'). split; [reflexivity | now constructor].
Qed.

Lemma grow_chains_fresh (first_hash bhash bprev : string) (m : Z)
  (chains : list (list string)) :
  0 <= m -> m + 1 < 6 -> bhash <> bprev ->
  Forall (fun c => len c <= m) chains ->
  exists chains',
    grow_chains 6 first_hash bhash bprev (chains ++ [[bhash]]) = inl chains'
    /\ Forall (fun c => len c <= m + 1) chains'.
Proof.
  intros H0 Hm Hne. induction chains as [|chain chains IH]; intros Hall.
  - cbn [app grow_chains last].
    replace (String.eqb bhash bprev) with false by (symmetry; now apply String.eqb_neq).
    cbn. exists [[bhash]]. split; [reflexivity|].
    constructor; [|constructor]. change (len [bhash]) with 1. lia.
  - apply Forall_cons_iff in Hall as [Hc Hall]. destruct (IH Hall) as (chains' & Hg & Hb).
    cbn [app grow_chains].
    set (chain' := if String.eqb (last chain EmptyString) bprev
                   then chain ++ [bhash] else chain).
    assert (Hc' : len chain' <= m + 1).
    { subst chain'. destruct (String.eqb (last chain EmptyString) bprev).
      - rewrite len_app. change (len [bhash]) with 1. lia.
      - lia. }
    replace (len chain' =? 6) with false by (symmetry; apply Z.eqb_neq; lia).
    rewrite Hg. exists (chain' :: chains'). split; [reflexivity | now constructor].
Qed.

Section SixBlocks.

Variable codec : block_codec.
Variable files : block_files.

Lemma index_confirmed_loop_short (entries : list DBBlockIndex) :
  forall (chains : list (list string)) (first_block : option Block) (m : Z),
    0 <= m ->
    m + Z.of_nat (List.length entries) < 6 ->
    Forall (fun c => len c <= m) chains ->
    (forall e raw, In e entries -> get_block files (file e) (data_pos e) = Ok raw ->
                   block_hash codec raw <> previous_block_hash codec raw) ->
    index_confirmed_loop codec files 6 entries chains first_block <> Ok (Some true)
    /\ (Forall (fun e => not_on_disk e = false
                         /\ exists raw, get_block files (file e) (data_pos e) = Ok raw)
          entries ->
        index_confirmed_loop codec files 6 entries chains first_block = Ok None).
Proof.
  induction entries as [|index entries IH]; intros chains first_block m H0 Hm Hall Hself.
  - split; [discriminate | reflexivity].
  - cbn [List.length] in Hm. cbn [index_confirmed_loop].
    destruct (not_on_disk index) eqn:Hd.
    + split; [discriminate|]. intros Hf. apply Forall_cons_iff in Hf as [[Hf _] _].
      congruence.
    + destruct (get_block files (file index) (data_pos index)) as [raw|x] eqn:Hraw.
      * cbn [bind blk_raw].
        destruct (grow_chains_fresh
                    (block_hash codec
                       (blk_raw match first_block with
                                | Some fb => fb
                                | None => mkBlock raw None
                                end))
                    (block_hash codec raw) (previous_block_hash codec raw) m chains)
          as (chains' & Hg & Hb); try assumption; try lia.
        { apply (Hself index raw); [now left | exact Hraw]. }
        rewrite Hg.
        destruct (IH chains' (Some match first_block with
                                   | Some fb => fb
                                   | None => mkBlock raw None
                                   end) (m + 1)) as [H1 H2]; try assumption; try lia.
        { intros e r Hin. apply Hself. now right. }
        split; [exact H1|]. intros Hf. apply Forall_cons_iff in Hf as [_ Hf]. now apply H2.
      * cbn [bind]. split; [discriminate|].
        intros Hf. apply Forall_cons_iff in Hf as [[_ [raw Hr]] _]. congruence.
Qed.

End SixBlocks.

Lemma confirmation_short (codec : block_codec) (files : block_files)
  (chain_indexes : list DBBlockIndex) :
  (List.length chain_indexes < 6)%nat ->
  (forall e raw, In e chain_indexes -> get_block files (file e) (data_pos e) = Ok raw ->
                 block_hash codec raw <> previous_block_hash codec raw) ->
  _index_confirmed codec files chain_indexes <> Ok (Some true)
  /\ (Forall (fun e => not_on_disk e = false
                       /\ exists raw, get_block files (file e) (data_pos e) = Ok raw)
        chain_indexes ->
      _index_confirmed codec files chain_indexes = Ok None).
Proof.
  intros Hlen Hself. unfold _index_confirmed.
  apply (index_confirmed_loop_short codec files chain_indexes [] None 0);
    [lia | lia | constructor | exact Hself].
Qed.

(** X18.  With fewer than six entries to search, none of whose blocks names
    itself as its predecessor, [_index_confirmed] never answers [True]; when
    all of them are on disk and readable it runs off the end and returns
    [None]. *)
Theorem X18_confirmation_needs_six_blocks
  (codec : block_codec) (files : block_files) (chain_indexes : list DBBlockIndex) :
  (List.length chain_indexes < 6)%nat ->
  (forall e raw, In e chain_indexes -> get_block files (file e) (data_pos e) = Ok raw ->
                 block_hash codec raw <> previous_block_hash codec raw) ->
  _index_confirmed codec files chain_indexes <> Ok (Some true)
  /\ (Forall (fun e => not_on_disk e = false
                       /\ exists raw, get_block files (file e) (data_pos e) = Ok raw)
        chain_indexes ->
      _index_confirmed codec files chain_indexes = Ok None).
Proof.
  exact (confirmation_short codec files chain_indexes).
Qed.

Lemma sample_blocks_not_own_parent (entries : list DBBlockIndex) :
  incl entries forked_index ->
  forall e raw, In e entries -> get_block sample_files (file e) (data_pos e) = Ok raw ->
                block_hash sample_codec raw <> previous_block_hash sample_codec raw.
Proof.
  intros Hincl e raw He Hraw. apply Hincl in He. unfold forked_index in He.
  repeat (destruct He as [<-|He];
          [vm_compute in Hraw; injection Hraw as <-; vm_compute; discriminate|]).
  contradiction.
Qed.

Lemma X18_confirmation_needs_six_blocks_witness :
  (List.length (skipn 3 forked_index) < 6)%nat
  /\ (forall e raw, In e (skipn 3 forked_index) ->
                    get_block sample_files (file e) (data_pos e) = Ok raw ->
                    block_hash sample_codec raw <> previous_block_hash sample_codec raw)
  /\ _index_confirmed sample_codec sample_files (skipn 3 forked_index) <> Ok (Some true)
  /\ _index_confirmed sample_codec sample_files (skipn 2 forked_index) = Ok (Some true).
Proof.
  assert (H1 : (List.length (skipn 3 forked_index) < 6)%nat) by (vm_compute; lia).
  assert (H2 : forall e raw, In e (skipn 3 forked_index) ->
                 get_block sample_files (file e) (data_pos e) = Ok raw ->
                 block_hash sample_codec raw <> previous_block_hash sample_codec raw).
  { apply sample_blocks_not_own_parent. intros e He.
    rewrite <- (firstn_skipn 3 forked_index). apply in_or_app. now right. }
  split; [exact H1|]. split; [exact H2|]. split.
  - exact (proj1 (X18_confirmation_needs_six_blocks sample_codec sample_files _ H1 H2)).
  - vm_compute. reflexivity.
Defined.

(** X19.  A fork among the newest blocks is always decided against the later
    of the two entries: when fewer than six entries follow the earlier
    duplicate (the later one included), the later duplicate's hash is marked,
    and no entry with that hash is left in the pruned index, whether or not
    the chain goes on from it. *)
Theorem X19_recent_fork_drops_later_duplicate
  (codec : block_codec) (files : block_files) (idx : list DBBlockIndex)
  (i : nat) (a b : DBBlockIndex) :
  nth_error idx i = Some a ->
  nth_error idx (S i) = Some b ->
  height b = height a ->
  -1 < height a ->
  Forall (readable files) idx ->
  (List.length idx < S i + 6)%nat ->
  (forall e raw, In e idx -> get_block files (file e) (data_pos e) = Ok raw ->
                 block_hash codec raw <> previous_block_hash codec raw) ->
  exists pruned,
    prune_orphans codec files idx = Ok pruned
    /\ (forall e, In e pruned -> hash e <> hash b).
Proof.
  intros Ha Hb Hh Hpos Hread Hlen Hself.
  destruct (orphans_loop_total codec files idx idx 0 (-1) [] Hread) as [orphans Ho].
  destruct (orphans_loop_marks codec files idx idx 0 (-1) [] orphans (S i) b Ho Hb)
    as (r & Hr & Hin).
  { exists a. split; assumption. }
  { lia. }
  cbn [Nat.add] in Hr, Hin.
  assert (Hnot : r <> Some true).
  { intros ->. revert Hr.
    apply (confirmation_short codec files (skipn (S i) idx)).
    - rewrite length_skipn. lia.
    - intros e raw He. apply Hself. rewrite <- (firstn_skipn (S i) idx).
      apply in_or_app. now right. }
  assert (Ht : truthy r = false)
    by (destruct r as [[|]|]; [exfalso; now apply Hnot | reflexivity | reflexivity]).
  rewrite Ht, (nth_error_nth idx (S i) b Hb) in Hin.
  exists (filter (fun e => negb (string_in (hash e) orphans)) idx). split.
  - unfold prune_orphans. now rewrite Ho.
  - intros e He Heq. apply filter_In in He as [_ He]. apply negb_true_iff in He.
    apply (proj2 (string_in_iff _ _)) in Hin. rewrite Heq in He. congruence.
Qed.

Lemma X19_recent_fork_drops_later_duplicate_witness :
  nth_error (firstn 6 forked_index) 1 = Some (sample_entry x0a 1 1)
  /\ nth_error (firstn 6 forked_index) 2 = Some (sample_entry x0b 1 2)
  /\ height (sample_entry x0b 1 2) = height (sample_entry x0a 1 1)
  /\ -1 < height (sample_entry x0a 1 1)
  /\ Forall (readable sample_files) (firstn 6 forked_index)
  /\ (List.length (firstn 6 forked_index) < 2 + 6)%nat
  /\ (forall e raw, In e (firstn 6 forked_index) ->
                    get_block sample_files (file e) (data_pos e) = Ok raw ->
                    block_hash sample_codec raw <> previous_block_hash sample_codec raw)
  /\ exists pruned,
       prune_orphans sample_codec sample_files (firstn 6 forked_index) = Ok pruned
       /\ (forall e, In e pruned -> hash e <> hash (sample_entry x0b 1 2)).
Proof.
  assert (H1 : nth_error (firstn 6 forked_index) 1 = Some (sample_entry x0a 1 1))
    by reflexivity.
  assert (H2 : nth_error (firstn 6 forked_index) 2 = Some (sample_entry x0b 1 2))
    by reflexivity.
  assert (H3 : height (sample_entry x0b 1 2) = height (sample_entry x0a 1 1))
    by reflexivity.
  assert (H4 : -1 < height (sample_entry x0a 1 1)) by (vm_compute; reflexivity).
  assert (H5 : Forall (readable sample_files) (firstn 6 forked_index)).
  { cbn [firstn forked_index].
    repeat (apply Forall_cons; [right; eexists; vm_compute; reflexivity|]).
    apply Forall_nil. }
  assert (H6 : (List.length (firstn 6 forked_index) < 2 + 6)%nat) by (vm_compute; lia).
  assert (H7 : forall e raw, In e (firstn 6 forked_index) ->
                 get_block sample_files (file e) (data_pos e) = Ok raw ->
                 block_hash sample_codec raw <> previous_block_hash sample_codec raw).
  { apply sample_blocks_not_own_parent. intros e He.
    rewrite <- (firstn_skipn 6 forked_index). apply in_or_app. now left. }
  exact (conj H1 (conj H2 (conj H3 (conj H4 (conj H5 (conj H6 (conj H7
           (X19_recent_fork_drops_later_duplicate sample_codec sample_files
              (firstn 6 forked_index) 1 _ _ H1 H2 H3 H4 H5 H6 H7)))))))).
Defined.

(** ** The wrapper: what a filter pass does *)

Lemma filter_loop_trace (flt : Block -> bool) (todo : list Block) :
  forall (n : Z) (e : ending) (selected : list (option Z)),
    calls_of (snd (fst (filter_loop flt n todo e selected))) = todo
    /\ logs_of (snd (fst (filter_loop flt n todo e selected))) = every_1000th n todo.
Proof.
  induction todo as [|block todo IH]; intros n e selected; [split; reflexivity|].
  cbn [filter_loop every_1000th].
  destruct (flt block).
  - destruct (IH (n + 1) e (selected ++ [blk_height block])) as [H1 H2].
    destruct (filter_loop flt (n + 1) todo e (selected ++ [blk_height block]))
      as [[[ys e'] tr] sel].
    cbn [fst snd] in *. destruct (n mod 1000 =? 0); cbn [app calls_of logs_of];
      rewrite H1, H2; split; reflexivity.
  - destruct (IH (n + 1) e selected) as [H1 H2].
    destruct (filter_loop flt (n + 1) todo e selected) as [[[ys e'] tr] sel].
    cbn [fst snd] in *. destruct (n mod 1000 =? 0); cbn [app calls_of logs_of];
      rewrite H1, H2; split; reflexivity.
Qed.

(** X20.  A filter pass consumed to its end calls the predicate once on
    every block the generator still has, in order, whether or not earlier
    blocks matched; it logs progress for the blocks at positions 0, 1000,
    2000, ...; it yields the matching blocks in order and ends as the
    generator ends; and it leaves the generator exhausted and the selection
    holding the heights of the blocks it yielded. *)
Theorem X20_filter_pass_effects (flt : Block -> bool) (self : Scanner) :
  fst (fst (filter_blocks flt self)) = (filter flt (fst (blocks self)), snd (blocks self))
  /\ calls_of (snd (fst (filter_blocks flt self))) = fst (blocks self)
  /\ logs_of (snd (fst (filter_blocks flt self))) = every_1000th 0 (fst (blocks self))
  /\ snd (filter_blocks flt self)
     = mkScanner (blockchain self) ([], Done)
         (Some (map blk_height (filter flt (fst (blocks self))))).
Proof.
  destruct (filter_blocks_spec flt self) as [tr Hf].
  destruct (filter_loop_trace flt (fst (blocks self)) 0 (snd (blocks self)) []) as [Hc Hl].
  unfold filter_blocks in *.
  destruct (filter_loop flt 0 (fst (blocks self)) (snd (blocks self)) [])
    as [[out tr'] sel].
  cbn [fst snd] in *. injection Hf as -> -> ->. repeat split; assumption.
Qed.

(** ** The wrapper: replaying a selection *)

Lemma replay_loop_app (bc : Blockchain) (s1 s2 : list (option Z)) :
  replay_loop bc (s1 ++ s2)
  = match replay_loop bc s1 with
    | (ys, Done) => (ys ++ fst (replay_loop bc s2), snd (replay_loop bc s2))
    | (ys, Raised e) => (ys, Raised e)
    end.
Proof.
  induction s1 as [|h s1 IH]; cbn [app replay_loop].
  - now destruct (replay_loop bc s2).
  - destruct (match h with Some h' => get_block_by_height bc h' | None => Err TypeError end)
      as [block|x]; [|reflexivity].
    rewrite IH. destruct (replay_loop bc s1) as [ys [|e]]; reflexivity.
Qed.

(** X21.  Replaying a selection stops at the first remembered height whose
    lookup fails and raises the lookup's exception after the blocks before it:
    [ValueError] for an entry not on disk (where ordered iteration would end
    silently), [IndexError] for a height outside the index.  Heights after it
    are not looked up, and no predicate is called. *)
Theorem X21_replay_stops_at_failing_height
  (flt : Block -> bool) (self : Scanner) (good : list (option Z)) (h : Z)
  (later : list (option Z)) (ys : list Block) (e : exn) :
  selected_blocks self = Some (good ++ Some h :: later) ->
  replay_loop (blockchain self) good = (ys, Done) ->
  get_block_by_height (blockchain self) h = Err e ->
  iterate_blocks flt self = ((ys, Raised e), [], self).
Proof.
  intros Hsel Hgood Hh. unfold iterate_blocks. rewrite Hsel, replay_loop_app, Hgood.
  cbn [replay_loop]. rewrite Hh. cbn [fst snd]. now rewrite app_nil_r.
Qed.

Lemma X21_replay_stops_at_failing_height_witness :
  selected_blocks (mkScanner (sample_chain dense_index) ([], Done)
                     (Some ([Some 1] ++ Some 7 :: [Some 0])))
  = Some ([Some 1] ++ Some 7 :: [Some 0])
  /\ replay_loop (sample_chain dense_index) [Some 1] = ([mkBlock [x0b; x00] (Some 1)], Done)
  /\ get_block_by_height (sample_chain dense_index) 7 = Err IndexError
  /\ fst (iterate_blocks accept_all
            (mkScanner (sample_chain dense_index) ([], Done)
               (Some ([Some 1] ++ Some 7 :: [Some 0]))))
     = (([mkBlock [x0b; x00] (Some 1)], Raised IndexError), []).
Proof.
  split; [reflexivity|]. split; [reflexivity|]. split; [reflexivity|].
  rewrite (X21_replay_stops_at_failing_height accept_all
             (mkScanner (sample_chain dense_index) ([], Done)
                (Some ([Some 1] ++ Some 7 :: [Some 0])))
             [Some 1] 7 [Some 0] [mkBlock [x0b; x00] (Some 1)] IndexError
             eq_refl eq_refl eq_refl).
  reflexivity.
Defined.

(** ** The wrapper: transactions *)

Section Transactions.

Variable Tx : Type.
Variable transactions : Block -> list Tx.

Lemma filter_accept_all {A : Type} (l : list A) : filter (fun _ => true) l = l.
Proof. induction l as [|x l IH]; [reflexivity|]. cbn [filter]. now rewrite IH. Qed.

Lemma py_index_middle {A : Type} (pre : list A) (x : A) (post : list A) :
  py_index (pre ++ x :: post) (len pre) = Ok x.
Proof.
  pose proof (len_nonneg pre). pose proof (len_nonneg post).
  unfold py_index. cbv zeta.
  assert (E1 : (len pre <? 0) = false) by (apply Z.ltb_ge; lia).
  assert (E2 : (len (pre ++ x :: post) <=? len pre) = false)
    by (apply Z.leb_gt; rewrite len_app, len_cons; lia).
  rewrite !E1, E2. cbn [orb].
  replace (Z.to_nat (len pre)) with (List.length pre) by (unfold len; lia).
  now rewrite nth_error_app2, Nat.sub_diag by lia.
Qed.

(** The triples of one block: each names the block, a position in its
    transaction list and the transaction there, which the predicate accepts;
    together they are the accepted transactions in order. *)
Lemma filter_tx_block_hits (flt : Tx -> bool) (block : Block) (txs : list Tx) :
  forall pre,
    Forall (fun hit => fst (fst hit) = block
                       /\ py_index (pre ++ txs) (snd (fst hit)) = Ok (snd hit)
                       /\ flt (snd hit) = true)
           (filter_tx_block flt block (len pre) txs)
    /\ map snd (filter_tx_block flt block (len pre) txs) = filter flt txs.
Proof.
  induction txs as [|tx txs IH]; intros pre; [split; [constructor | reflexivity]|].
  cbn [filter_tx_block filter].
  destruct (IH (pre ++ [tx])) as [H1 H2].
  rewrite len_app in H1, H2. change (len [tx]) with 1 in H1, H2.
  rewrite <- app_assoc in H1. cbn [app] in H1.
  destruct (flt tx) eqn:Hf.
  - split.
    + constructor; [|exact H1]. cbn [fst snd]. repeat split; [|exact Hf].
      apply py_index_middle.
    + cbn [map snd]. now rewrite H2.
  - split; assumption.
Qed.

Lemma filter_tx_without_block_selection (flt : Tx -> bool) (self : TxScanner) :
  selected_blocks (scanner self) = None ->
  fst (fst (filter_tx transactions flt self))
  = (flat_map (fun block => filter_tx_block flt block 0 (transactions block))
       (fst (blocks (scanner self))),
     snd (blocks (scanner self)))
  /\ snd (snd (fst (filter_tx transactions flt self)))
     = flat_map transactions (fst (blocks (scanner self)))
  /\ scanner (snd (filter_tx transactions flt self))
     = mkScanner (blockchain (scanner self)) ([], Done)
         (Some (map blk_height (fst (blocks (scanner self)))))
  /\ (forall p, iterate_blocks p (scanner (snd (filter_tx transactions flt self)))
                = (replay_loop (blockchain (scanner self))
                     (map blk_height (fst (blocks (scanner self)))), [],
                   scanner (snd (filter_tx transactions flt self)))).
Proof.
  intros Hnone. unfold filter_tx, iterate_blocks. rewrite Hnone.
  destruct (filter_blocks_spec (fun _ => true) (scanner self)) as [tr Hf].
  rewrite Hf, filter_accept_all. cbn [fst snd scanner]. repeat split.
Qed.

(** X22.  A transaction filter pass runs over the blocks that
    [iterate_blocks()] gives.  Without a block selection these are all the
    blocks the generator still has, and the pass leaves the block selection
    holding the height of every one of them, with the generator exhausted, so
    that any later block iteration replays all blocks and never calls its
    predicate.  With a block selection only the replayed blocks are looked
    into.  Either way the predicate is called on every transaction of every
    block visited, and the accepted ones are yielded in order. *)
Theorem X22_filter_tx_visits_iterated_blocks (flt : Tx -> bool) (self : TxScanner) :
  (selected_blocks (scanner self) = None ->
   let all := fst (blocks (scanner self)) in
   fst (fst (filter_tx transactions flt self))
   = (flat_map (fun block => filter_tx_block flt block 0 (transactions block)) all,
      snd (blocks (scanner self)))
   /\ snd (snd (fst (filter_tx transactions flt self))) = flat_map transactions all
   /\ scanner (snd (filter_tx transactions flt self))
      = mkScanner (blockchain (scanner self)) ([], Done) (Some (map blk_height all))
   /\ (forall p, iterate_blocks p (scanner (snd (filter_tx transactions flt self)))
                 = (replay_loop (blockchain (scanner self)) (map blk_height all), [],
                    scanner (snd (filter_tx transactions flt self)))))
  /\ (forall selected,
         selected_blocks (scanner self) = Some selected ->
         let replayed := replay_loop (blockchain (scanner self)) selected in
         fst (fst (filter_tx transactions flt self))
         = (flat_map (fun block => filter_tx_block flt block 0 (transactions block))
              (fst replayed), snd replayed)
         /\ scanner (snd (filter_tx transactions flt self)) = scanner self)
  /\ map snd (fst (fst (fst (filter_tx transactions flt self))))
     = filter flt (snd (snd (fst (filter_tx transactions flt self)))).
Proof.
  split; [|split].
  - intros Hnone. cbv zeta. now apply filter_tx_without_block_selection.
  - intros selected Hsel. cbv zeta. unfold filter_tx, iterate_blocks. rewrite Hsel.
    destruct (replay_loop (blockchain (scanner self)) selected) as [bs e].
    cbn [fst snd scanner]. split; reflexivity.
  - unfold filter_tx.
    destruct (iterate_blocks (fun _ => true) (scanner self)) as [[[bs e] tr] s'].
    cbn [fst snd]. clear. induction bs as [|b bs IH]; [reflexivity|].
    cbn [flat_map]. rewrite map_app, filter_app, IH. f_equal.
    exact (proj2 (filter_tx_block_hits flt b (transactions b) [])).
Qed.

Lemma tx_replay_hits (bc : Blockchain) (hits : list (Block * Z * Tx)) :
  Forall (fun hit => replayable bc (fst (fst hit))
                     /\ py_index (transactions (fst (fst hit))) (snd (fst hit))
                        = Ok (snd hit)) hits ->
  tx_replay_loop transactions bc
    (map (fun hit => (blk_height (fst (fst hit)), snd (fst hit))) hits)
  = (hits, Done).
Proof.
  induction hits as [|[[b i] tx] hits IH]; intros H; [reflexivity|].
  apply Forall_cons_iff in H as [[(h & Hh & Hb) Hi] H]. cbn [fst snd] in *.
  cbn [map tx_replay_loop fst snd]. rewrite Hh, Hb. cbn [bind]. rewrite Hi. cbn [bind].
  now rewrite (IH H).
Qed.

Lemma hits_replayable (bc : Blockchain) (flt : Tx -> bool) (bs : list Block) :
  Forall (replayable bc) bs ->
  Forall (fun hit => replayable bc (fst (fst hit))
                     /\ py_index (transactions (fst (fst hit))) (snd (fst hit))
                        = Ok (snd hit))
         (flat_map (fun block => filter_tx_block flt block 0 (transactions block)) bs).
Proof.
  induction bs as [|b bs IH]; intros H; [constructor|].
  apply Forall_cons_iff in H as [Hb H]. cbn [flat_map]. apply Forall_app. split; [|now apply IH].
  pose proof (proj1 (filter_tx_block_hits flt b (transactions b) [])) as Hh.
  revert Hh. apply Forall_impl. intros [[b' i] tx] (E & Hi & _). cbn [fst snd] in *.
  subst b'. split; assumption.
Qed.

(** X23.  On a fresh wrapper over a dense index whose ordered iteration
    ends normally, a transaction filter pass followed by a transaction
    iteration yields the same triples again without calling any predicate;
    and after clearing the transaction selection, iterating with a predicate
    [q] filters the transactions of all blocks anew: the blocks come from
    replaying the block selection the first pass left, not from the spent
    generator. *)
Theorem X23_transaction_replay_and_refilter
  (bc : Blockchain) (idx : list DBBlockIndex) (p q : Tx -> bool) :
  blockIndexes bc = Some idx ->
  dense idx ->
  snd (get_ordered_blocks bc 0 None) = Done ->
  let first := filter_tx transactions p (TxScanner_init bc) in
  let all := fst (get_ordered_blocks bc 0 None) in
  fst (fst first)
  = (flat_map (fun block => filter_tx_block p block 0 (transactions block)) all, Done)
  /\ iterate_tx transactions q (snd first) = (fst (fst first), ([], []), snd first)
  /\ fst (fst (iterate_tx transactions q (clear_tx_filter (snd first))))
     = (flat_map (fun block => filter_tx_block q block 0 (transactions block)) all, Done)
  /\ snd (snd (fst (iterate_tx transactions q (clear_tx_filter (snd first)))))
     = flat_map transactions all.
Proof.
  intros Hidx Hdense Hdone. cbv zeta.
  pose proof (dense_replayable bc idx Hidx Hdense) as Hrep.
  destruct (filter_tx_without_block_selection p (TxScanner_init bc) eq_refl)
    as (H1 & _ & H3 & _).
  cbn [TxScanner_init scanner Scanner_init blocks blockchain] in H1, H3.
  rewrite Hdone in H1.
  set (first := filter_tx transactions p (TxScanner_init bc)) in *.
  assert (Hsel : selected_tx (snd first)
                 = Some (map (fun hit => (blk_height (fst (fst hit)), snd (fst hit)))
                           (fst (fst (fst first))))).
  { subst first. unfold filter_tx.
    destruct (iterate_blocks (fun _ => true) (scanner (TxScanner_init bc)))
      as [[[bs e] tr] s']. reflexivity. }
  split; [exact H1|]. split; [|split].
  - unfold iterate_tx. rewrite Hsel, H3. cbn [blockchain].
    rewrite tx_replay_hits.
    + rewrite H1. reflexivity.
    + rewrite H1. cbn [fst]. now apply hits_replayable.
  - unfold iterate_tx, clear_tx_filter. cbn [selected_tx].
    unfold filter_tx, iterate_blocks. cbn [scanner]. rewrite H3.
    cbn [selected_blocks blockchain]. rewrite (replay_loop_replayable bc _ Hrep).
    reflexivity.
  - unfold iterate_tx, clear_tx_filter. cbn [selected_tx].
    unfold filter_tx, iterate_blocks. cbn [scanner]. rewrite H3.
    cbn [selected_blocks blockchain]. rewrite (replay_loop_replayable bc _ Hrep).
    reflexivity.
Qed.

End Transactions.

Lemma X23_transaction_replay_and_refilter_witness :
  blockIndexes (sample_chain dense_index) = Some dense_index
  /\ dense dense_index
  /\ snd (get_ordered_blocks (sample_chain dense_index) 0 None) = Done
  /\ iterate_tx sample_transactions is_zero_byte
       (snd (filter_tx sample_transactions is_zero_byte
               (TxScanner_init (sample_chain dense_index))))
     = (fst (fst (filter_tx sample_transactions is_zero_byte
                    (TxScanner_init (sample_chain dense_index)))),
        ([], []),
        snd (filter_tx sample_transactions is_zero_byte
               (TxScanner_init (sample_chain dense_index)))).
Proof.
  assert (H1 : blockIndexes (sample_chain dense_index) = Some dense_index) by reflexivity.
  assert (H3 : snd (get_ordered_blocks (sample_chain dense_index) 0 None) = Done)
    by reflexivity.
  exact (conj H1 (conj dense_index_dense (conj H3
    (proj1 (proj2 (X23_transaction_replay_and_refilter byte sample_transactions
       (sample_chain dense_index) dense_index is_zero_byte is_zero_byte
       H1 dense_index_dense H3)))))).
Defined.
